(** * FalconAPIClient: token lifecycle, retry engine and pagination

    A shallow embedding of [src/crowdstrike/FalconAPIClient.ts].

    The client is a TypeScript class whose methods are [async] and mutate
    the instance ([this.token], [this.rateLimitState]).  The embedding
    threads one explicit [World] through every method: the instance fields,
    the wall clock, the two HTTP endpoints the client talks to (as scripted
    reply sequences) and a chronological trace of what the client did
    (requests sent, timers awaited, records handed to the logger).

    Conventions.
    - JavaScript numbers are modelled by [JsNumber]: [NaN] or a rational.
      Arithmetic is exact (no rounding); infinities and signed zero are
      left out.
    - Time is in seconds on the clock ([Date.now() / 1000]) and in
      milliseconds in timer arguments, as in the source.
    - The retry library races each attempt against a timer of
      [timeout] milliseconds.  When the timer fires first, the call
      rejects at that instant; the attempt it abandons is not cancelled
      by the library, and what the library's error handling does for it
      later, detached from the caller, is outside the model.
    - Loops that the source does not bound ([do ... while (!finished)],
      [retry] with [maxAttempts = 0]) take a fuel argument; running out of
      fuel is the outcome [OutOfFuel], distinct from every outcome of the
      program. *)

From Stdlib Require Import ZArith QArith Qminmax Qround Lqa.
From Stdlib Require Import List String Bool Lia.
Import ListNotations.

Local Open Scope Z_scope.
Local Open Scope Q_scope.

(** ** JavaScript values *)

Inductive JsNumber : Type :=
| NaN
| Num (q : Q).

(** Truthiness of a number: [NaN] and [0] are falsy. *)
Definition js_truthy (n : JsNumber) : bool :=
  match n with
  | NaN => false
  | Num q => negb (Qeq_bool q 0)
  end.

Definition js_add (a b : JsNumber) : JsNumber :=
  match a, b with
  | Num x, Num y => Num (x + y)
  | _, _ => NaN
  end.

Definition js_sub (a b : JsNumber) : JsNumber :=
  match a, b with
  | Num x, Num y => Num (x - y)
  | _, _ => NaN
  end.

Definition js_mul (a b : JsNumber) : JsNumber :=
  match a, b with
  | Num x, Num y => Num (x * y)
  | _, _ => NaN
  end.

(** [a <= b]; any comparison with [NaN] is false. *)
Definition js_le (a b : JsNumber) : bool :=
  match a, b with
  | Num x, Num y => Qle_bool x y
  | _, _ => false
  end.

(** [a > b] on numbers that are not [NaN]. *)
Definition Qgt_bool (a b : Q) : bool := negb (Qle_bool a b).

(** [Math.round]: the nearest integer, ties towards positive infinity. *)
Definition Math_round (q : Q) : Z := Qfloor (q + (1 # 2)).

(** A value of a response header as [response.headers.get(name)] returns
    it, seen through the two observations the client makes on it: whether
    the text is empty (its truthiness) and its [Number(...)] coercion.
    [HText n] is a non-empty text whose coercion is [n]; the coercion of
    the empty text is [0]. *)
Inductive HeaderValue : Type :=
| HEmpty
| HText (n : JsNumber).

(** [Number(response.headers.get(name))]; [Number(null)] is [0]. *)
Definition Number_of_header (h : option HeaderValue) : JsNumber :=
  match h with
  | None => Num 0
  | Some HEmpty => Num 0
  | Some (HText n) => n
  end.

(** ** Types of [./types] used by the client

    The module [./types] is imported by the client but is not among the
    sources; its declarations are given here with the fields the client
    reads and writes, typed as the data model of the specification
    describes them. *)

(** Modelled from the spec: [OAuth2ClientCredentials] of [./types]
    (Credentials: clientId, clientSecret). *)
Record OAuth2ClientCredentials : Type := {
  clientId : string;
  clientSecret : string
}.

(** Modelled from the spec: [OAuth2Token] of [./types] (Token: the secret
    and [expiresAt], an absolute timestamp in seconds). *)
Record OAuth2Token : Type := {
  token : string;
  expiresAt : Q
}.

(** Modelled from the spec: [RateLimitConfig] of [./types]
    (reserveLimit: a count; cooldownPeriod: a duration, in milliseconds
    as [sleep] takes it). *)
Record RateLimitConfig : Type := {
  reserveLimit : Q;
  cooldownPeriod : Q
}.

(** What [get(h) && Number(get(h))] evaluates to: [null] when the header
    is missing, the empty string when it is empty, a number otherwise. *)
Inductive RetryAfterValue : Type :=
| RA_null
| RA_empty
| RA_number (n : JsNumber).

(** Modelled from the spec: [RateLimitState] of [./types], with the
    values the client stores in it: the [Number(...)] of two headers and
    the [&&] expression above. *)
Record RateLimitState : Type := {
  limitRemaining : JsNumber;
  perMinuteLimit : JsNumber;
  retryAfter : RetryAfterValue
}.

Definition retryAfter_truthy (v : RetryAfterValue) : bool :=
  match v with
  | RA_null => false
  | RA_empty => false
  | RA_number n => js_truthy n
  end.

(** The numeric value of the field where it is used in arithmetic. *)
Definition retryAfter_number (v : RetryAfterValue) : JsNumber :=
  match v with
  | RA_null => Num 0
  | RA_empty => Num 0
  | RA_number n => n
  end.

(** A pagination value: a number or a string. *)
Inductive ParamValue : Type :=
| PNum (n : Z)
| PStr (s : string).

(** Modelled from the spec: [QueryParams] of [./types], static query
    parameters; the entries of the object in the order [Object.entries]
    lists them. *)
Definition QueryParams : Type := list (string * ParamValue).

(** Modelled from the spec: [PaginationMeta] of [./types], which extends
    [PaginationParams] (limit, offset, after) with the optional [total]
    (PaginationCursor: limit?, offset-or-after?, total?: count). *)
Record PaginationMeta : Type := {
  limit : option ParamValue;
  offset : option ParamValue;
  after : option ParamValue;
  total : option Z
}.

(** Modelled from the spec: an entry of the [errors] array of a response
    (code, message, id). *)
Record ApiErrorItem : Type := {
  code : Z;
  message : string;
  id : string
}.

(** Modelled from the spec: [ResourcesResponse<T>] of [./types] (Page:
    items, errors, cursor); [meta_pagination] is [meta.pagination]. *)
Record ResourcesResponse (T : Type) : Type := {
  resources : list T;
  errors : option (list ApiErrorItem);
  meta_pagination : PaginationMeta
}.
Arguments resources {T} _.
Arguments errors {T} _.
Arguments meta_pagination {T} _.

(** Modelled from the spec: the body of a successful token exchange, of
    which the client reads [access_token] and [expires_in] (seconds). *)
Record OAuth2TokenResponse : Type := {
  access_token : string;
  expires_in : Q
}.

(** ** Requests, replies and errors *)

(** [https://api.crowdstrike.com${path}?${params}] *)
Record Url : Type := {
  path : string;
  params : list (string * ParamValue)
}.

Inductive Endpoint : Type :=
| TokenEndpoint
| ResourceEndpoint (u : Url).

Record Headers : Type := {
  X_RateLimit_Remaining : option HeaderValue;
  X_RateLimit_Limit : option HeaderValue;
  X_RateLimit_RetryAfter : option HeaderValue
}.

(** An HTTP response; [body] is what [response.json()] resolves to, [None]
    when the body does not parse. *)
Record Response (B : Type) : Type := {
  status : Z;
  statusText : string;
  headers : Headers;
  body : option B
}.
Arguments status {B} _.
Arguments statusText {B} _.
Arguments headers {B} _.
Arguments body {B} _.

Definition response_ok {B} (r : Response B) : bool :=
  (200 <=? status r)%Z && (status r <=? 299)%Z.

(** What one [fetch] does: after [latency] seconds it resolves with a
    response or rejects. *)
Inductive Reply (B : Type) : Type :=
| Responds (latency : Q) (r : Response B)
| NetworkFault (latency : Q).
Arguments Responds {B} _ _.
Arguments NetworkFault {B} _.

(** The seconds a [fetch] takes to settle. *)
Definition replyLatency {B} (r : Reply B) : Q :=
  match r with
  | Responds latency _ => latency
  | NetworkFault latency => latency
  end.

(** The fields of the error classes of [@jupiterone/integration-sdk-core]
    that the client sets and reads. *)
Record ProviderError : Type := {
  err_status : Z;
  err_statusText : string;
  err_endpoint : Endpoint
}.

(** What can be thrown: the three provider errors, a rejected [fetch] or
    [json()] ([FetchError], which has no [status]), a [TypeError] of the
    runtime, and the errors of the retry library: [ATTEMPT_ABORTED],
    [ATTEMPT_TIMEOUT] (neither has a [status]) and the rejection of
    invalid options. *)
Inductive Error : Type :=
| IntegrationProviderAPIError (e : ProviderError)
| IntegrationProviderAuthenticationError (e : ProviderError)
| IntegrationProviderAuthorizationError (e : ProviderError)
| FetchError
| TypeError
| AttemptAborted
| AttemptTimeout
| InvalidOptions.

Definition error_fields (e : Error) : option ProviderError :=
  match e with
  | IntegrationProviderAPIError f => Some f
  | IntegrationProviderAuthenticationError f => Some f
  | IntegrationProviderAuthorizationError f => Some f
  | _ => None
  end.

(** [error.status]; [None] is [undefined]. *)
Definition error_status (e : Error) : option Z :=
  option_map err_status (error_fields e).

(** [error.status === n] *)
Definition status_is (e : Error) (n : Z) : bool :=
  match error_status e with
  | Some s => (s =? n)%Z
  | None => false
  end.

(** ** The retry library

    [retry] is imported from the package [@lifeomic/attempt]; the client
    passes it an attempt function, [this.attemptOptions] and a
    [handleError] callback.  This module holds the part of the library that
    does not touch the world: its options, the context it hands to the
    callbacks, its delay computation and the test of its timer.  The
    attempt loop itself is [makeAttempt] below. *)

Module Attempt.

(** The options the client sets; the library requires [maxAttempts],
    [delay] and [timeout] to be non-negative integers.  The remaining
    options keep the library's defaults: no initial delay, no minimal
    or maximal delay, no jitter, no [beforeAttempt], [handleTimeout]
    or [calculateDelay] callback. *)
Record AttemptOptions : Type := {
  maxAttempts : N;
  delay : N;
  timeout : N;
  factor : Q
}.

(** The context object shared by all attempts of one [retry] call.
    [attemptNum] is the zero-based index of the current attempt;
    [attemptsRemaining] is [-1] when the attempts are unbounded. *)
Record AttemptContext : Type := {
  attemptNum : Z;
  attemptsRemaining : Z;
  aborted : bool
}.

(** [context.abort()] *)
Definition abort (c : AttemptContext) : AttemptContext :=
  {| attemptNum := attemptNum c;
     attemptsRemaining := attemptsRemaining c;
     aborted := true |}.

Definition initialContext (o : AttemptOptions) : AttemptContext :=
  {| attemptNum := 0;
     attemptsRemaining :=
       if (maxAttempts o =? 0)%N then (-1)%Z else Z.of_N (maxAttempts o);
     aborted := false |}.

(** [if (context.attemptsRemaining > 0) context.attemptsRemaining--] *)
Definition consumeAttempt (c : AttemptContext) : AttemptContext :=
  {| attemptNum := attemptNum c;
     attemptsRemaining :=
       if (0 <? attemptsRemaining c)%Z
       then (attemptsRemaining c - 1)%Z else attemptsRemaining c;
     aborted := aborted c |}.

(** [context.attemptNum++] *)
Definition nextAttempt (c : AttemptContext) : AttemptContext :=
  {| attemptNum := (attemptNum c + 1)%Z;
     attemptsRemaining := attemptsRemaining c;
     aborted := aborted c |}.

(** [defaultCalculateDelay], with [maxDelay = 0] and no jitter:
    [delay * factor ^ (attemptNum - 1)], rounded; in milliseconds. *)
Definition defaultCalculateDelay
    (c : AttemptContext) (o : AttemptOptions) : Z :=
  if (delay o =? 0)%N then 0%Z
  else
    let d := inject_Z (Z.of_N (delay o)) in
    let d := if Qeq_bool (factor o) 0 then d
             else d * (factor o) ^ (attemptNum c - 1) in
    Math_round d.

(** [options.timeout], in seconds. *)
Definition timeoutSeconds (o : AttemptOptions) : Q :=
  inject_Z (Z.of_N (timeout o)) / 1000.

(** [if (options.timeout) { setTimeout(..., options.timeout) }]: whether
    the timer of an attempt started at the instant [started] fires before
    the attempt settles at the instant [settled] (both in seconds).  A
    [timeout] of [0] starts no timer. *)
Definition timerFiresFirst (o : AttemptOptions) (started settled : Q)
  : bool :=
  negb (timeout o =? 0)%N
  && Qgt_bool settled (started + timeoutSeconds o).

End Attempt.
Import Attempt.

(** [DEFAULT_ATTEMPT_OPTIONS] *)
Definition DEFAULT_ATTEMPT_OPTIONS : AttemptOptions :=
  {| maxAttempts := 5; delay := 30000; timeout := 180000; factor := 2 |}.

(** [DEFAULT_RATE_LIMIT_CONFIG] *)
Definition DEFAULT_RATE_LIMIT_CONFIG : RateLimitConfig :=
  {| reserveLimit := 30; cooldownPeriod := 1000 |}.

(** ** What the client does to its environment *)

(** The records the client hands to its logger, one constructor per call
    site. *)
Inductive LogRecord : Type :=
| LogRequestUrl (requestUrl : Url) (paginationParams : option PaginationMeta)
| LogResponseErrors (errs : list ApiErrorItem)
| LogPaginationResponse (pagination : PaginationMeta) (resourcesLength : Z)
| LogPaginationState (seen : Z) (total_ : option Z) (finished : bool)
| LogFetchingToken
| LogFetchedToken (expiresAt_ : Q) (expires_in_ : Q)
| LogAuthRecoverable (attemptContext : AttemptContext) (error : Error)
| LogHandleError (error : Error) (attemptContext : AttemptContext)
| LogRequestRecoverable (attemptContext : AttemptContext) (error : Error)
| LogRateLimited (unixTimeNow : Q) (timeToSleepInSeconds_ : JsNumber)
                 (st : RateLimitState) (cfg : RateLimitConfig)
| LogCooldown (st : RateLimitState) (cfg : RateLimitConfig).

Inductive Event : Type :=
| EvTokenRequest (c : OAuth2ClientCredentials)
| EvApiRequest (u : Url) (bearer : string)
| EvSleep (ms : JsNumber)
| EvLog (r : LogRecord).

(** How long a timer started with [setTimeout(resolve, ms)] takes, in
    milliseconds: a delay that is not positive, or not a number, fires at
    once.  (The granularity of the runtime's timers and its 32-bit bound
    on delays are outside the model.) *)
Definition timer_elapsed (ms : JsNumber) : Q :=
  match ms with
  | NaN => 0
  | Num q => Qmax 0 q
  end.

Definition is_sleep (e : Event) : bool :=
  match e with EvSleep _ => true | _ => false end.

Definition is_api_request (e : Event) : bool :=
  match e with EvApiRequest _ _ => true | _ => false end.

Definition is_token_request (e : Event) : bool :=
  match e with EvTokenRequest _ => true | _ => false end.

(** The timers awaited in a trace, oldest first. *)
Fixpoint sleeps (t : list Event) : list JsNumber :=
  match t with
  | [] => []
  | EvSleep ms :: t' => ms :: sleeps t'
  | _ :: t' => sleeps t'
  end.

(** The bearer tokens of the resource requests in a trace, oldest first. *)
Fixpoint bearers (t : list Event) : list string :=
  match t with
  | [] => []
  | EvApiRequest _ b :: t' => b :: bearers t'
  | _ :: t' => bearers t'
  end.

(** ** The world

    The fields [this_*] are the private fields of the [FalconAPIClient]
    instance.  [tokenServer n] and [apiServer n] are the replies to the
    [n]-th request sent to the token endpoint and to the resource
    endpoints; [tokenRequests] and [apiRequests] count the requests sent so
    far.  [clock] is [Date.now() / 1000]. *)
Record World (Resource : Type) : Type := mkWorld {
  this_credentials : OAuth2ClientCredentials;
  this_token : option OAuth2Token;
  this_rateLimitConfig : RateLimitConfig;
  this_rateLimitState : option RateLimitState;
  this_attemptOptions : AttemptOptions;
  clock : Q;
  tokenServer : nat -> Reply OAuth2TokenResponse;
  apiServer : nat -> Reply (ResourcesResponse Resource);
  tokenRequests : nat;
  apiRequests : nat;
  trace : list Event
}.
Arguments mkWorld {Resource}.
Arguments this_credentials {Resource} _.
Arguments this_token {Resource} _.
Arguments this_rateLimitConfig {Resource} _.
Arguments this_rateLimitState {Resource} _.
Arguments this_attemptOptions {Resource} _.
Arguments clock {Resource} _.
Arguments tokenServer {Resource} _ _.
Arguments apiServer {Resource} _ _.
Arguments tokenRequests {Resource} _.
Arguments apiRequests {Resource} _.
Arguments trace {Resource} _.

(** How a method call ends: it returns, it throws, or the model ran out of
    fuel before it did either. *)
Inductive Outcome (A : Type) : Type :=
| Ok (a : A)
| Throw (e : Error)
| OutOfFuel.
Arguments Ok {A} _.
Arguments Throw {A} _.
Arguments OutOfFuel {A}.

Definition M (Resource A : Type) : Type :=
  World Resource -> Outcome A * World Resource.

Section Monad.
Context {Resource : Type}.

Definition ret {A} (a : A) : M Resource A := fun w => (Ok a, w).

Definition throw {A} (e : Error) : M Resource A := fun w => (Throw e, w).

Definition outOfFuel {A} : M Resource A := fun w => (OutOfFuel, w).

Definition bind {A B} (m : M Resource A) (k : A -> M Resource B)
  : M Resource B :=
  fun w =>
    match m w with
    | (Ok a, w') => k a w'
    | (Throw e, w') => (Throw e, w')
    | (OutOfFuel, w') => (OutOfFuel, w')
    end.

(** [m.catch(h)] *)
Definition catch {A} (m : M Resource A) (h : Error -> M Resource A)
  : M Resource A :=
  fun w =>
    match m w with
    | (Throw e, w') => h e w'
    | r => r
    end.

Definition gets {A} (f : World Resource -> A) : M Resource A :=
  fun w => (Ok (f w), w).

Definition modify (f : World Resource -> World Resource) : M Resource unit :=
  fun w => (Ok tt, f w).

End Monad.

Declare Scope client_scope.
Delimit Scope client_scope with client.
Notation "x <- m ;; k" := (bind m (fun x => k))
  (at level 61, m at next level, right associativity) : client_scope.
Notation "m ;; k" := (bind m (fun _ => k))
  (at level 61, right associativity) : client_scope.
Local Open Scope client_scope.

Section Primitives.
Context {Resource : Type}.
Local Abbreviation W := (World Resource).

Definition set_token (t : option OAuth2Token) (w : W) : W :=
  mkWorld (this_credentials w) t (this_rateLimitConfig w)
          (this_rateLimitState w) (this_attemptOptions w) (clock w)
          (tokenServer w) (apiServer w) (tokenRequests w) (apiRequests w)
          (trace w).

Definition set_rateLimitState (s : option RateLimitState) (w : W) : W :=
  mkWorld (this_credentials w) (this_token w) (this_rateLimitConfig w)
          s (this_attemptOptions w) (clock w)
          (tokenServer w) (apiServer w) (tokenRequests w) (apiRequests w)
          (trace w).

(** Let [dt] seconds pass. *)
Definition advance (dt : Q) (w : W) : W :=
  mkWorld (this_credentials w) (this_token w) (this_rateLimitConfig w)
          (this_rateLimitState w) (this_attemptOptions w) (clock w + dt)
          (tokenServer w) (apiServer w) (tokenRequests w) (apiRequests w)
          (trace w).

Definition emit (e : Event) (w : W) : W :=
  mkWorld (this_credentials w) (this_token w) (this_rateLimitConfig w)
          (this_rateLimitState w) (this_attemptOptions w) (clock w)
          (tokenServer w) (apiServer w) (tokenRequests w) (apiRequests w)
          (trace w ++ [e]).

Definition count_token_request (w : W) : W :=
  mkWorld (this_credentials w) (this_token w) (this_rateLimitConfig w)
          (this_rateLimitState w) (this_attemptOptions w) (clock w)
          (tokenServer w) (apiServer w) (S (tokenRequests w))
          (apiRequests w) (trace w).

Definition count_api_request (w : W) : W :=
  mkWorld (this_credentials w) (this_token w) (this_rateLimitConfig w)
          (this_rateLimitState w) (this_attemptOptions w) (clock w)
          (tokenServer w) (apiServer w) (tokenRequests w)
          (S (apiRequests w)) (trace w).

(** [getUnixTimeNow()] *)
Definition getUnixTimeNow : M Resource Q := gets clock.

(** [sleep(ms)]: resolves when a timer of [ms] milliseconds fires. *)
Definition sleep (ms : JsNumber) : M Resource unit :=
  modify (fun w => advance (timer_elapsed ms / 1000) (emit (EvSleep ms) w)).

(** [this.logger.info / warn / error / debug] *)
Definition log (r : LogRecord) : M Resource unit :=
  modify (emit (EvLog r)).

(** [fetch('https://api.crowdstrike.com/oauth2/token', { method: 'POST',
    body: params })] *)
Definition fetch_token (c : OAuth2ClientCredentials)
  : M Resource (Response OAuth2TokenResponse) :=
  fun w =>
    let w1 := emit (EvTokenRequest c) (count_token_request w) in
    match tokenServer w (tokenRequests w) with
    | Responds dt r => (Ok r, advance dt w1)
    | NetworkFault dt => (Throw FetchError, advance dt w1)
    end.

(** [fetch(requestUrl, { method: 'GET', headers: { accept, authorization:
    `bearer ${token}` } })] *)
Definition fetch_api (u : Url) (bearer : string)
  : M Resource (Response (ResourcesResponse Resource)) :=
  fun w =>
    let w1 := emit (EvApiRequest u bearer) (count_api_request w) in
    match apiServer w (apiRequests w) with
    | Responds dt r => (Ok r, advance dt w1)
    | NetworkFault dt => (Throw FetchError, advance dt w1)
    end.

(** [response.json()] *)
Definition json {B} (r : Response B) : M Resource B :=
  match body r with
  | Some b => ret b
  | None => throw FetchError
  end.

(** [if (delay) { await sleep(delay); }] of the retry library *)
Definition awaitDelay (delay : Z) : M Resource unit :=
  if (delay =? 0)%Z then ret tt else sleep (Num (inject_Z delay)).

(** The world [w] with the clock at the instant [t]. *)
Definition at_instant (t : Q) (w : W) : W := advance (t - clock w) w.

(** *** The timer of an attempt

    With a [timeout] the library starts a timer together with the
    attempt function [m] and settles by whichever comes first.  When [m]
    settles first the timer is cleared: a value is returned, an error
    goes to [onError]; with [timeout = 0] there is no timer and this is
    [m.catch(onError)].  When the timer fires first the promise rejects
    with [ATTEMPT_TIMEOUT] at that instant and [onError] is not
    consulted.  The library does not cancel [m], whose request still
    settles afterwards: the world of the rejection is the one [m]
    leaves, with the clock at the instant the timer fired.  When both
    fall on the same instant the order is the runtime's; here the
    attempt wins. *)
Definition withTimeout {A} (options : AttemptOptions) (m : M Resource A)
    (onError : Error -> M Resource A) : M Resource A :=
  fun w =>
    match m w with
    | (r, w1) =>
      if timerFiresFirst options (clock w) (clock w1)
      then (Throw AttemptTimeout,
            at_instant (clock w + timeoutSeconds options) w1)
      else match r with
           | Throw err => onError err w1
           | _ => (r, w1)
           end
    end.

(** *** The attempt loop of the retry library

    [makeAttempt] runs [attemptFunc] against the timer; when it rejects
    in time, [onError] awaits [handleError], rethrows the error if the
    context was aborted or no attempt remains, and otherwise increments
    [attemptNum], awaits the computed delay and makes the next attempt.
    An error thrown by [handleError] itself rejects the whole [retry],
    and so does the timer. *)
Fixpoint makeAttempt {A} (fuel : nat)
    (attemptFunc : AttemptContext -> M Resource A)
    (handleError : Error -> AttemptContext -> M Resource AttemptContext)
    (options : AttemptOptions) (context : AttemptContext)
  : M Resource A :=
  match fuel with
  | O => outOfFuel
  | S fuel' =>
    if aborted context then throw AttemptAborted
    else
      let context := consumeAttempt context in
      withTimeout options (attemptFunc context)
        (fun err =>
           context <- handleError err context ;;
           if aborted context || (attemptsRemaining context =? 0)%Z
           then throw err
           else
             let context := nextAttempt context in
             awaitDelay (defaultCalculateDelay context options) ;;
             makeAttempt fuel' attemptFunc handleError options context)
  end.

(** [retry(attemptFunc, { ...attemptOptions, handleError })] *)
Definition retry {A} (fuel : nat)
    (attemptFunc : AttemptContext -> M Resource A)
    (handleError : Error -> AttemptContext -> M Resource AttemptContext)
    (options : AttemptOptions)
  : M Resource A :=
  if negb (Qle_bool 0 (factor options)) then throw InvalidOptions
  else makeAttempt fuel attemptFunc handleError options
                   (initialContext options).

End Primitives.

(** ** The client *)

Section FalconAPIClient.
Context {Resource : Type}.
Local Abbreviation W := (World Resource).

(** [isValidToken(token)] *)
Definition isValidToken (t : OAuth2Token) : M Resource bool :=
  now <- getUnixTimeNow ;;
  ret (Qgt_bool (expiresAt t) now).

(** The attempt function of [requestOAuth2Token]. *)
Definition authRequestAttempt (_ : AttemptContext)
  : M Resource OAuth2TokenResponse :=
  credentials <- gets this_credentials ;;
  response <- fetch_token credentials ;;
  if response_ok response then json response
  else throw (IntegrationProviderAPIError
                {| err_status := status response;
                   err_statusText := statusText response;
                   err_endpoint := TokenEndpoint |}).

(** The [handleError] callback of [requestOAuth2Token]. *)
Definition authHandleError (error : Error) (attemptContext : AttemptContext)
  : M Resource AttemptContext :=
  let attemptContext :=
    if status_is error 400 then abort attemptContext else attemptContext in
  match error_fields error with
  | Some e =>
    if (err_status e =? 403)%Z
    then throw (IntegrationProviderAuthenticationError
                  {| err_status := err_status e;
                     err_statusText := err_statusText e;
                     err_endpoint := err_endpoint e |})
    else log (LogAuthRecoverable attemptContext error) ;; ret attemptContext
  | None =>
    log (LogAuthRecoverable attemptContext error) ;; ret attemptContext
  end.

(** [requestOAuth2Token()] *)
Definition requestOAuth2Token (fuel : nat) : M Resource OAuth2Token :=
  log LogFetchingToken ;;
  attemptOptions <- gets this_attemptOptions ;;
  response <- retry fuel authRequestAttempt authHandleError attemptOptions ;;
  now <- getUnixTimeNow ;;
  let expiresAt := now + expires_in response in
  log (LogFetchedToken expiresAt (expires_in response)) ;;
  ret {| token := access_token response; expiresAt := expiresAt |}.

(** [this.token = await this.requestOAuth2Token(); return this.token] *)
Definition refresh (fuel : nat) : M Resource OAuth2Token :=
  t <- requestOAuth2Token fuel ;;
  modify (set_token (Some t)) ;;
  ret t.

(** [authenticate()] *)
Definition authenticate (fuel : nat) : M Resource OAuth2Token :=
  held <- gets this_token ;;
  match held with
  | None => refresh fuel
  | Some t =>
    valid <- isValidToken t ;;
    if valid then ret t else refresh fuel
  end.

(** [timeToSleepInSeconds] of [handle429Error]:
    [retryAfter ? retryAfter + 60 - unixTimeNow : 0] *)
Definition timeToSleepInSeconds (st : RateLimitState) (unixTimeNow : Q)
  : JsNumber :=
  if retryAfter_truthy (retryAfter st)
  then js_sub (js_add (retryAfter_number (retryAfter st)) (Num 60))
              (Num unixTimeNow)
  else Num 0.

(** The guard of the cooldown:
    [limitRemaining && limitRemaining <= reserveLimit] *)
Definition needsCooldown (st : RateLimitState) (cfg : RateLimitConfig)
  : bool :=
  js_truthy (limitRemaining st)
  && js_le (limitRemaining st) (Num (reserveLimit cfg)).

(** Reading a field of [this.rateLimitState], which no constructor
    initialises. *)
Definition getRateLimitState : M Resource RateLimitState :=
  s <- gets this_rateLimitState ;;
  match s with
  | Some st => ret st
  | None => throw TypeError
  end.

(** [handle429Error()] *)
Definition handle429Error : M Resource unit :=
  unixTimeNow <- getUnixTimeNow ;;
  st <- getRateLimitState ;;
  cfg <- gets this_rateLimitConfig ;;
  let t := timeToSleepInSeconds st unixTimeNow in
  log (LogRateLimited unixTimeNow t st cfg) ;;
  sleep (js_mul t (Num 1000)) ;;
  st <- getRateLimitState ;;
  if needsCooldown st cfg
  then log (LogCooldown st cfg) ;; sleep (Num (cooldownPeriod cfg))
  else ret tt.

(** The rate-limit state read off the headers of a response. *)
Definition rateLimitState_of_headers (h : Headers) : RateLimitState :=
  {| limitRemaining := Number_of_header (X_RateLimit_Remaining h);
     perMinuteLimit := Number_of_header (X_RateLimit_Limit h);
     retryAfter :=
       match X_RateLimit_RetryAfter h with
       | None => RA_null
       | Some HEmpty => RA_empty
       | Some (HText n) => RA_number n
       end |}.

(** The attempt function of [executeAPIRequestWithRetries]. *)
Definition requestAttempt (requestUrl : Url) (_ : AttemptContext)
  : M Resource (ResourcesResponse Resource) :=
  held <- gets this_token ;;
  match held with
  | None => throw TypeError
  | Some t =>
    response <- fetch_api requestUrl (token t) ;;
    modify (set_rateLimitState
              (Some (rateLimitState_of_headers (headers response)))) ;;
    if response_ok response then json response
    else
      let e := {| err_status := status response;
                  err_statusText := statusText response;
                  err_endpoint := ResourceEndpoint requestUrl |} in
      if (status response =? 401)%Z
      then throw (IntegrationProviderAuthenticationError e)
      else if (status response =? 403)%Z
      then throw (IntegrationProviderAuthorizationError e)
      else throw (IntegrationProviderAPIError e)
  end.

(** The [handleError] callback of [executeAPIRequestWithRetries]. *)
Definition requestHandleError (fuel : nat)
    (error : Error) (attemptContext : AttemptContext)
  : M Resource AttemptContext :=
  log (LogHandleError error attemptContext) ;;
  attemptContext <-
    (if status_is error 401
     then if (1 <? attemptNum attemptContext)%Z
          then ret (abort attemptContext)
          else authenticate fuel ;; ret attemptContext
     else ret attemptContext) ;;
  let attemptContext :=
    if status_is error 403 then abort attemptContext else attemptContext in
  (if status_is error 429 then handle429Error else ret tt) ;;
  log (LogRequestRecoverable attemptContext error) ;;
  ret attemptContext.

(** [executeAPIRequestWithRetries(requestUrl, init)]; both callers pass
    the same [init] (a [GET] accepting JSON), which [fetch_api] fixes. *)
Definition executeAPIRequestWithRetries (fuel : nat) (requestUrl : Url)
  : M Resource (ResourcesResponse Resource) :=
  authenticate fuel ;;
  attemptOptions <- gets this_attemptOptions ;;
  retry fuel (requestAttempt requestUrl) (requestHandleError fuel)
        attemptOptions.

(** [toQueryString(pagination, queryParams)]; the parameters in the order
    they are appended, each value before its conversion to text. *)
Definition toQueryString (pagination : option PaginationMeta)
    (queryParams : option QueryParams) : list (string * ParamValue) :=
  let of_field (name : string) (v : option ParamValue) :=
    match v with
    | Some x => [(name, x)]
    | None => []
    end in
  (match pagination with
   | Some p =>
     (match limit p with
      | Some (PNum n) => [("limit"%string, PNum n)]
      | _ => []
      end)
     ++ of_field "offset"%string (offset p)
     ++ of_field "after"%string (after p)
   | None => []
   end)
  ++ (match queryParams with
      | Some q => q
      | None => []
      end).

(** [`https://api.crowdstrike.com${resourcePath}?${toQueryString(
    paginationParams, query)}`] *)
Definition pageUrl (resourcePath : string) (query : option QueryParams)
    (paginationParams : option PaginationMeta) : Url :=
  {| path := resourcePath;
     params := toQueryString paginationParams query |}.

(** The state of the pagination loop that survives an iteration. *)
Record PaginationLoop : Type := {
  loop_seen : Z;
  loop_paginationParams : option PaginationMeta;
  loop_finished : bool
}.

(** [seen >= total]; false when [total] is [undefined]. *)
Definition seen_ge_total (seen : Z) (total : option Z) : bool :=
  match total with
  | Some t => (t <=? seen)%Z
  | None => false
  end.

(** [if (response.errors?.length) this.logger.error(...)] *)
Definition logResponseErrors (response : ResourcesResponse Resource)
  : M Resource unit :=
  match errors response with
  | Some (e :: errs) => log (LogResponseErrors (e :: errs))
  | _ => ret tt
  end.

(** One pass through the body of the [do ... while] of
    [paginateResources]. *)
Definition paginateIteration (fuel : nat)
    (callback : list Resource -> M Resource unit)
    (resourcePath : string) (query : option QueryParams)
    (seen : Z) (paginationParams : option PaginationMeta)
  : M Resource PaginationLoop :=
  let url := pageUrl resourcePath query paginationParams in
  log (LogRequestUrl url paginationParams) ;;
  response <- executeAPIRequestWithRetries fuel url ;;
  logResponseErrors response ;;
  callback (resources response) ;;
  let resourcesLength := Z.of_nat (List.length (resources response)) in
  log (LogPaginationResponse (meta_pagination response) resourcesLength) ;;
  let paginationParams := meta_pagination response in
  let seen := (seen + resourcesLength)%Z in
  let total := total paginationParams in
  let finished := (seen =? 0)%Z || seen_ge_total seen total in
  log (LogPaginationState seen total finished) ;;
  ret {| loop_seen := seen;
         loop_paginationParams := Some paginationParams;
         loop_finished := finished |}.

(** The loop of [paginateResources], entered with the current [seen] and
    [paginationParams]: [fuel] bounds the iterations, [rfuel] the
    attempts of each request. *)
Fixpoint paginateLoop (fuel rfuel : nat)
    (callback : list Resource -> M Resource unit)
    (resourcePath : string) (query : option QueryParams)
    (seen : Z) (paginationParams : option PaginationMeta)
  : M Resource unit :=
  match fuel with
  | O => outOfFuel
  | S fuel' =>
    st <- paginateIteration rfuel callback resourcePath query
                            seen paginationParams ;;
    if loop_finished st then ret tt
    else paginateLoop fuel' rfuel callback resourcePath query
                      (loop_seen st) (loop_paginationParams st)
  end.

(** [paginateResources({ callback, resourcePath, query })] *)
Definition paginateResources (fuel rfuel : nat)
    (callback : list Resource -> M Resource unit)
    (resourcePath : string) (query : option QueryParams)
  : M Resource unit :=
  paginateLoop fuel rfuel callback resourcePath query 0%Z None.

(** The loop state [(seen', params')] at the head of some iteration of a
    run that entered the loop with [(seen, params)]: every iteration in
    between returned with [finished = false]. *)
Inductive LoopReaches (rfuel : nat)
    (callback : list Resource -> M Resource unit)
    (resourcePath : string) (query : option QueryParams)
  : Z -> option PaginationMeta -> W ->
    Z -> option PaginationMeta -> W -> Prop :=
| reaches_here : forall seen params w,
    LoopReaches rfuel callback resourcePath query seen params w
                seen params w
| reaches_next : forall seen params w st w1 seen' params' w',
    paginateIteration rfuel callback resourcePath query seen params w
    = (Ok st, w1) ->
    loop_finished st = false ->
    LoopReaches rfuel callback resourcePath query
                (loop_seen st) (loop_paginationParams st) w1
                seen' params' w' ->
    LoopReaches rfuel callback resourcePath query seen params w
                seen' params' w'.

End FalconAPIClient.

(** ** The iterators

    The public methods that list a collection.  The type parameter of
    [ResourcesResponse<T>] is erased at run time: device identifiers,
    device records, vulnerabilities and policies are all values of the
    [resources] array of a body, hence of the one type [Resource].
    [deviceId] is the text of an identifier as [URLSearchParams.append]
    takes it. *)

Section Iterators.
Context {Resource : Type}.
Variable deviceId : Resource -> ParamValue.

(** The URL of [fetchDevices]: one [ids] parameter per identifier. *)
Definition devicesEntitiesUrl (ids : list Resource) : Url :=
  {| path := "/devices/entities/devices/v1";
     params := List.map (fun aid => ("ids"%string, deviceId aid)) ids |}.

(** [fetchDevices(ids)] *)
Definition fetchDevices (fuel : nat) (ids : list Resource)
  : M Resource (list Resource) :=
  response <- executeAPIRequestWithRetries fuel (devicesEntitiesUrl ids) ;;
  ret (resources response).

(** The callback [iterateDevices] hands to [paginateResources]:
    [if (deviceIds.length) return await input.callback(await
    this.fetchDevices(deviceIds))]. *)
Definition hydrateDevices (rfuel : nat)
    (callback : list Resource -> M Resource unit)
    (deviceIds : list Resource) : M Resource unit :=
  match deviceIds with
  | [] => ret tt
  | _ :: _ =>
    devices <- fetchDevices rfuel deviceIds ;;
    callback devices
  end.

(** [iterateDevices({ callback, query })] *)
Definition iterateDevices (fuel rfuel : nat)
    (callback : list Resource -> M Resource unit)
    (query : option QueryParams) : M Resource unit :=
  paginateResources fuel rfuel (hydrateDevices rfuel callback)
                    "/devices/queries/devices-scroll/v1" query.

(** [iterateVulnerabilities({ callBack, query })] *)
Definition iterateVulnerabilities (fuel rfuel : nat)
    (callBack : list Resource -> M Resource unit)
    (query : option QueryParams) : M Resource unit :=
  paginateResources fuel rfuel callBack
                    "/spotlight/combined/vulnerabilities/v1" query.

(** [iteratePreventionPolicies({ callback })] *)
Definition iteratePreventionPolicies (fuel rfuel : nat)
    (callback : list Resource -> M Resource unit) : M Resource unit :=
  paginateResources fuel rfuel callback
                    "/policy/combined/prevention/v1" None.

(** [iteratePreventionPolicyMemberIds({ callback, policyId })] *)
Definition iteratePreventionPolicyMemberIds (fuel rfuel : nat)
    (callback : list Resource -> M Resource unit)
    (policyId : string) : M Resource unit :=
  paginateResources fuel rfuel callback
                    "/policy/queries/prevention-members/v1"
                    (Some [("id"%string, PStr policyId)]).

End Iterators.

(** The timers the retry policy awaits between the attempt made in
    [context] and the [k] attempts after it, oldest first; a delay of zero
    starts no timer. *)
Fixpoint backoffWaits (options : AttemptOptions) (context : AttemptContext)
    (k : nat) : list JsNumber :=
  match k with
  | O => []
  | S k' =>
    let context' := nextAttempt (consumeAttempt context) in
    let d := defaultCalculateDelay context' options in
    (if (d =? 0)%Z then [] else [Num (inject_Z d)])
      ++ backoffWaits options context' k'
  end.

(** Every resource request in the trace [t] goes to a URL that satisfies
    [P]. *)
Definition requestsOnly (P : Url -> Prop) (t : list Event) : Prop :=
  Forall (fun e => match e with
                   | EvApiRequest u _ => P u
                   | _ => True
                   end) t.

Section Vocabulary.
Context {Resource : Type}.
Local Abbreviation W := (World Resource).

(** *** Invariants of the world

    A property of the world is [Stable] when none of the elementary
    effects can break it; every method of the client then preserves
    it. *)

Record Stable (I : W -> Prop) : Prop := {
  stable_emit : forall e w, I w -> I (emit e w);
  stable_advance : forall dt w, I w -> I (advance dt w);
  stable_set_token : forall t w, I w -> I (set_token t w);
  stable_set_rateLimitState :
    forall s w, I w -> I (set_rateLimitState s w);
  stable_count_token_request : forall w, I w -> I (count_token_request w);
  stable_count_api_request : forall w, I w -> I (count_api_request w)
}.

Definition preserves (I : W -> Prop) {A} (m : M Resource A) : Prop :=
  forall w r w', I w -> m w = (r, w') -> I w'.

(** The servers, and the requests already counted, are never undone. *)
Definition servedBy (w0 : W) (w : W) : Prop :=
  tokenServer w = tokenServer w0
  /\ apiServer w = apiServer w0
  /\ (tokenRequests w0 <= tokenRequests w)%nat
  /\ (apiRequests w0 <= apiRequests w)%nat.

(** The resource endpoints answer as they did in [w0]. *)
Definition sameApiServer (w0 : W) (w : W) : Prop :=
  apiServer w = apiServer w0.

(** The client's attempt options are [o]. *)
Definition hasOptions (o : AttemptOptions) (w : W) : Prop :=
  this_attemptOptions w = o.

(** The call ends: it returns or throws. *)
Definition ends {A} (r : Outcome A * W) : Prop := fst r <> OutOfFuel.

(** A property that holds as long as no resource request is sent and
    the rate-limit state is not written. *)
Record Quiet (I : W -> Prop) : Prop := {
  quiet_emit : forall e w, I w -> I (emit e w);
  quiet_advance : forall dt w, I w -> I (advance dt w);
  quiet_set_token : forall t w, I w -> I (set_token t w);
  quiet_count_token_request : forall w, I w -> I (count_token_request w)
}.

(** The resource requests counted and the rate-limit state are those of
    [w0]. *)
Definition noResourceTraffic (w0 : W) (w : W) : Prop :=
  apiRequests w = apiRequests w0
  /\ this_rateLimitState w = this_rateLimitState w0.

(** A reply of the given latency settles before the timer of the attempt
    that awaits it fires (or there is no timer). *)
Definition settlesInTime (o : AttemptOptions) (latency : Q) : Prop :=
  timeout o = 0%N \/ latency < timeoutSeconds o.

(** A reply that the retry engine treats as a plain failure: a response
    whose status is not a success and none of 401, 403, 429. *)
Definition plainFailure {B} (r : Reply B) : Prop :=
  match r with
  | Responds _ resp =>
    response_ok resp = false
    /\ status resp <> 401%Z /\ status resp <> 403%Z
    /\ status resp <> 429%Z
  | NetworkFault _ => False
  end.

(** However [m] ends, it has only added to the trace, and the resource
    requests it added go to URLs that satisfy [P]. *)
Definition sends (P : Url -> Prop) {A} (m : M Resource A) : Prop :=
  forall w r w',
    m w = (r, w') ->
    exists added, trace w' = trace w ++ added /\ requestsOnly P added.

End Vocabulary.

(** The [{ seen, total, finished }] records logged after each page, oldest
    first. *)
Fixpoint paginationStates (t : list Event) : list (Z * option Z * bool) :=
  match t with
  | [] => []
  | EvLog (LogPaginationState s tot f) :: t' =>
    (s, tot, f) :: paginationStates t'
  | _ :: t' => paginationStates t'
  end.

(** ** Scenarios

    Concrete clients and servers on which the statements below are
    exercised.  Resources are device identifiers (strings). *)

Module Scenario.
Local Open Scope string_scope.

Definition noHeaders : Headers :=
  {| X_RateLimit_Remaining := None;
     X_RateLimit_Limit := None;
     X_RateLimit_RetryAfter := None |}.

(** A reply with the given status and no body, after no delay. *)
Definition failing {B} (s : Z) : Reply B :=
  Responds 0 {| status := s; statusText := "";
                headers := noHeaders; body := None |}.

(** A successful page of [items] reporting [tot] as the total. *)
Definition page (items : list string) (tot : option Z)
  : Reply (ResourcesResponse string) :=
  Responds 0
    {| status := 200; statusText := "OK"; headers := noHeaders;
       body := Some {| resources := items; errors := None;
                       meta_pagination :=
                         {| limit := None; offset := None;
                            after := None; total := tot |} |} |}.

(** A successful token exchange. *)
Definition grants (secret : string) (lifetime : Q)
  : Reply OAuth2TokenResponse :=
  Responds 0
    {| status := 200; statusText := "OK"; headers := noHeaders;
       body := Some {| access_token := secret;
                       expires_in := lifetime |} |}.

Definition credentials : OAuth2ClientCredentials :=
  {| clientId := "client"; clientSecret := "secret" |}.

(** A client constructed with the default options, holding [held], at
    time [now], facing the given servers. *)
Definition client (held : option OAuth2Token) (now : Q)
    (tokens : nat -> Reply OAuth2TokenResponse)
    (api : nat -> Reply (ResourcesResponse string))
  : World string :=
  mkWorld credentials held DEFAULT_RATE_LIMIT_CONFIG None
          DEFAULT_ATTEMPT_OPTIONS now tokens api 0 0 [].

Definition tokenA : OAuth2Token := {| token := "A"; expiresAt := 2800 |}.

Definition devicesUrl : Url :=
  {| path := "/devices/queries/devices-scroll/v1"; params := [] |}.

(** A page handler that does nothing. *)
Definition ignore : list string -> M string unit := fun _ => ret tt.

(** A client whose unexpired token the server rejects every time. *)
Definition rejected : World string :=
  client (Some tokenA) 1000 (fun _ => grants "B" 1799)
         (fun _ => failing 401).

(** A client whose request is forbidden. *)
Definition forbidden : World string :=
  client (Some tokenA) 1000 (fun _ => grants "B" 1799)
         (fun _ => failing 403).

(** A client with no token facing a token endpoint that answers 400,
    403 or 500. *)
Definition tokenEndpointAnswers (s : Z) : World string :=
  client None 1000 (fun _ => failing s) (fun _ => failing 500).

(** A client that has just seen a 429 with the given rate-limit state. *)
Definition rateLimited (st : RateLimitState) : World string :=
  set_rateLimitState (Some st)
    (client (Some tokenA) 1000 (fun _ => grants "B" 1799)
            (fun _ => failing 429)).

(** Quota exhausted: [X-RateLimit-Remaining: 0], no retry-after. *)
Definition exhausted : RateLimitState :=
  {| limitRemaining := Num 0; perMinuteLimit := Num 6000;
     retryAfter := RA_null |}.

(** Retry allowed 40 seconds from [now = 1000]. *)
Definition retryLater : RateLimitState :=
  {| limitRemaining := Num 10; perMinuteLimit := Num 6000;
     retryAfter := RA_number (Num 1040) |}.

(** A server whose first page has one item out of five and whose later
    pages are empty. *)
Definition stalls : World string :=
  client (Some tokenA) 1000 (fun _ => grants "B" 1799)
         (fun n => match n with
                   | O => page ["d1"] (Some 5%Z)
                   | _ => page [] (Some 5%Z)
                   end).

(** A server with nothing to list that reports a total of five. *)
Definition empty : World string :=
  client (Some tokenA) 1000 (fun _ => grants "B" 1799)
         (fun _ => page [] (Some 5%Z)).

(** A server that omits the total on the first page only. *)
Definition totalOmittedOnce : World string :=
  client (Some tokenA) 1000 (fun _ => grants "B" 1799)
         (fun n => match n with
                   | O => page ["d1"] None
                   | _ => page ["d2"] (Some 2%Z)
                   end).

(** A server that never reports a total. *)
Definition totalNeverSent : World string :=
  client (Some tokenA) 1000 (fun _ => grants "B" 1799)
         (fun _ => page ["d"] None).

(** A client whose token expired one second ago, one whose token
    expires in one second, and one without a token. *)
Definition expiredBy1 : World string :=
  client (Some {| token := "A"; expiresAt := 999 |}) 1000
         (fun _ => grants "B" 1799) (fun _ => failing 500).

Definition validFor1 : World string :=
  client (Some {| token := "A"; expiresAt := 1001 |}) 1000
         (fun _ => grants "B" 1799) (fun _ => failing 500).

Definition tokenless : World string :=
  client None 1000 (fun _ => grants "B" 1799) (fun _ => failing 500).

(** A client whose every resource request fails with the given status. *)
Definition failingWith (s : Z) : World string :=
  client (Some tokenA) 1000 (fun _ => grants "B" 1799)
         (fun _ => failing s).

(** A client that cannot reach the resource endpoints. *)
Definition offline : World string :=
  client (Some tokenA) 1000 (fun _ => grants "B" 1799)
         (fun _ => NetworkFault 1).

(** A 429 with 10 requests remaining and a retry-after 40 seconds ahead. *)
Definition tooManyRequests : Response (ResourcesResponse string) :=
  {| status := 429; statusText := "Too Many Requests";
     headers := {| X_RateLimit_Remaining := Some (HText (Num 10));
                   X_RateLimit_Limit := Some (HText (Num 6000));
                   X_RateLimit_RetryAfter := Some (HText (Num 1040)) |};
     body := None |}.

Definition throttled : World string :=
  client (Some tokenA) 1000 (fun _ => grants "B" 1799)
         (fun _ => Responds 0 tooManyRequests).

(** A 401 that arrives five seconds after a request sent one second
    before the token expires. *)
Definition unauthorized : Response (ResourcesResponse string) :=
  {| status := 401; statusText := "Unauthorized";
     headers := noHeaders; body := None |}.

Definition expiresInFlight : World string :=
  client (Some {| token := "A"; expiresAt := 1001 |}) 1000
         (fun _ => grants "B" 1799) (fun _ => Responds 5 unauthorized).

(** A scroll of two device identifiers, then the two device records. *)
Definition deviceListing : World string :=
  client (Some tokenA) 1000 (fun _ => grants "B" 1799)
         (fun n => match n with
                   | O => page ["id1"; "id2"] (Some 2%Z)
                   | _ => page ["device1"; "device2"] None
                   end).

(** A cursor as a scroll endpoint returns it, and a static query. *)
Definition scrollCursor : PaginationMeta :=
  {| limit := Some (PNum 100); offset := Some (PStr "scroll-token");
     after := None; total := Some 250%Z |}.

Definition policyQuery : QueryParams := [("id", PStr "policy-123")].



End Scenario.

(** * Properties *)

(** ** Traces *)

Lemma sleeps_app (a b : list Event) : sleeps (a ++ b) = sleeps a ++ sleeps b.
Proof.
  induction a as [|e a IH]; simpl; [reflexivity|].
  destruct e; simpl; rewrite IH; reflexivity.
Qed.


Section Properties.
Context {Resource : Type}.
Local Abbreviation W := (World Resource).

(** ** The attempt loop, unfolded once *)

Lemma makeAttempt_S {A} (fuel : nat)
    (attemptFunc : AttemptContext -> M Resource A)
    (handleError : Error -> AttemptContext -> M Resource AttemptContext)
    (options : AttemptOptions) (context : AttemptContext) :
  makeAttempt (S fuel) attemptFunc handleError options context
  = if aborted context then throw AttemptAborted
    else
      withTimeout options (attemptFunc (consumeAttempt context))
        (fun err =>
           context' <- handleError err (consumeAttempt context) ;;
           if aborted context' || (attemptsRemaining context' =? 0)%Z
           then throw err
           else
             awaitDelay (defaultCalculateDelay (nextAttempt context')
                                               options) ;;
             makeAttempt fuel attemptFunc handleError options
                         (nextAttempt context')).
Proof. reflexivity. Qed.

(** ** The timer of an attempt *)

Lemma timeoutSeconds_nonneg (o : AttemptOptions) : 0 <= timeoutSeconds o.
Proof.
  unfold timeoutSeconds. apply Qle_shift_div_l; [reflexivity|].
  rewrite Qmult_0_l. change 0 with (inject_Z 0). rewrite <- Zle_Qle.
  apply N2Z.is_nonneg.
Qed.

(** An attempt that settles in time finds the timer pending. *)
Lemma timerFiresFirst_within (o : AttemptOptions) (t t' : Q) :
  settlesInTime o (t' - t) -> timerFiresFirst o t t' = false.
Proof.
  intros [H0|Hlt]; unfold timerFiresFirst.
  - rewrite H0. reflexivity.
  - apply andb_false_intro2. unfold Qgt_bool.
    apply negb_false_iff, Qle_bool_iff. lra.
Qed.

Lemma timerFiresFirst_in_time (o : AttemptOptions) (t dt : Q) :
  settlesInTime o dt -> timerFiresFirst o t (t + dt) = false.
Proof.
  intros [H0|Hlt]; apply timerFiresFirst_within; [left; exact H0|].
  right. lra.
Qed.

(** So does an attempt that takes no time. *)
Lemma timerFiresFirst_at_once (o : AttemptOptions) (t : Q) :
  timerFiresFirst o t t = false.
Proof.
  unfold timerFiresFirst. apply andb_false_intro2. unfold Qgt_bool.
  apply negb_false_iff, Qle_bool_iff.
  pose proof (timeoutSeconds_nonneg o). lra.
Qed.


(** While the timer is pending the race is [m.catch(onError)]. *)
Lemma withTimeout_in_time {A} (options : AttemptOptions)
    (m : M Resource A) (h : Error -> M Resource A)
    (w : W) (r : Outcome A) (w1 : W) :
  m w = (r, w1) ->
  timerFiresFirst options (clock w) (clock w1) = false ->
  withTimeout options m h w = catch m h w.
Proof.
  intros Hm Ht. unfold withTimeout, catch. rewrite Hm, Ht.
  destruct r; reflexivity.
Qed.

Lemma withTimeout_settles {A} (options : AttemptOptions)
    (m : M Resource A) (h : Error -> M Resource A) (w : W) (dt : Q) :
  clock (snd (m w)) = clock w + dt ->
  settlesInTime options dt ->
  withTimeout options m h w = catch m h w.
Proof.
  intros Hclock Htime. destruct (m w) as [r w1] eqn:E.
  simpl in Hclock.
  apply (withTimeout_in_time options m h w r w1 E).
  rewrite Hclock. apply timerFiresFirst_in_time. exact Htime.
Qed.

(** The two attempt functions of the client settle when the reply to
    their request does. *)
Lemma authRequestAttempt_clock (c : AttemptContext) (w : W) :
  clock (snd (authRequestAttempt c w))
  = clock w + replyLatency (tokenServer w (tokenRequests w)).
Proof.
  unfold authRequestAttempt, bind, gets, fetch_token. cbv beta iota zeta.
  destruct (tokenServer w (tokenRequests w)) as [dt r|dt]; [|reflexivity].
  destruct (response_ok r); [|reflexivity].
  unfold json. destruct (body r); reflexivity.
Qed.

Lemma requestAttempt_clock (u : Url) (c : AttemptContext) (w : W)
    (t : OAuth2Token) :
  this_token w = Some t ->
  clock (snd (requestAttempt u c w))
  = clock w + replyLatency (apiServer w (apiRequests w)).
Proof.
  intro Ht. unfold requestAttempt, bind at 1, gets. cbv beta iota.
  rewrite Ht. unfold bind, fetch_api, modify. cbv beta iota zeta.
  destruct (apiServer w (apiRequests w)) as [dt r|dt]; [|reflexivity].
  destruct (response_ok r).
  - unfold json. destruct (body r); reflexivity.
  - destruct (status r =? 401)%Z; [reflexivity|].
    destruct (status r =? 403)%Z; reflexivity.
Qed.

(** While its reply arrives in time, an attempt of a resource request is
    raced to no effect. *)
Lemma requestAttempt_in_time (options : AttemptOptions) (u : Url)
    (c : AttemptContext)
    (h : Error -> M Resource (ResourcesResponse Resource))
    (w : W) (t : OAuth2Token) :
  this_token w = Some t ->
  settlesInTime options (replyLatency (apiServer w (apiRequests w))) ->
  withTimeout options (requestAttempt u c) h w
  = catch (requestAttempt u c) h w.
Proof.
  intros Ht Htime.
  exact (withTimeout_settles options _ h w _
           (requestAttempt_clock u c w t Ht) Htime).
Qed.

Lemma authRequestAttempt_in_time (options : AttemptOptions)
    (c : AttemptContext) (h : Error -> M Resource OAuth2TokenResponse)
    (w : W) :
  settlesInTime options (replyLatency (tokenServer w (tokenRequests w))) ->
  withTimeout options (authRequestAttempt c) h w
  = catch (authRequestAttempt c) h w.
Proof.
  intro Htime.
  exact (withTimeout_settles options _ h w _
           (authRequestAttempt_clock c w) Htime).
Qed.


(** ** Invariants of the world *)

Section Invariants.
Variable I : W -> Prop.
Hypothesis I_stable : Stable I.

Lemma preserves_ret {A} (a : A) : preserves I (ret a).
Proof. intros w r w' HI H. injection H as _ <-. exact HI. Qed.

Lemma preserves_throw {A} (e : Error) : preserves I (@throw Resource A e).
Proof. intros w r w' HI H. injection H as _ <-. exact HI. Qed.

Lemma preserves_outOfFuel {A} : preserves I (@outOfFuel Resource A).
Proof. intros w r w' HI H. injection H as _ <-. exact HI. Qed.

Lemma preserves_gets {A} (f : W -> A) : preserves I (gets f).
Proof. intros w r w' HI H. injection H as _ <-. exact HI. Qed.

Lemma preserves_bind {A B} (m : M Resource A) (k : A -> M Resource B) :
  preserves I m -> (forall a, preserves I (k a)) ->
  preserves I (bind m k).
Proof.
  intros Hm Hk w r w' HI H. unfold bind in H.
  destruct (m w) as [[a|e|] w1] eqn:E.
  - exact (Hk a w1 r w' (Hm _ _ _ HI E) H).
  - injection H as _ <-. exact (Hm _ _ _ HI E).
  - injection H as _ <-. exact (Hm _ _ _ HI E).
Qed.

Lemma preserves_catch {A} (m : M Resource A) (h : Error -> M Resource A) :
  preserves I m -> (forall e, preserves I (h e)) ->
  preserves I (catch m h).
Proof.
  intros Hm Hh w r w' HI H. unfold catch in H.
  destruct (m w) as [[a|e|] w1] eqn:E.
  - injection H as _ <-. exact (Hm _ _ _ HI E).
  - exact (Hh e w1 r w' (Hm _ _ _ HI E) H).
  - injection H as _ <-. exact (Hm _ _ _ HI E).
Qed.

Lemma preserves_withTimeout {A} (options : AttemptOptions)
    (m : M Resource A) (h : Error -> M Resource A) :
  preserves I m -> (forall e, preserves I (h e)) ->
  preserves I (withTimeout options m h).
Proof.
  intros Hm Hh w r w' HI H. unfold withTimeout in H.
  destruct (m w) as [o w1] eqn:E.
  pose proof (Hm _ _ _ HI E) as HI1.
  destruct (timerFiresFirst options (clock w) (clock w1)).
  - injection H as _ <-. apply (stable_advance I I_stable). exact HI1.
  - destruct o as [a|e|].
    + injection H as _ <-. exact HI1.
    + exact (Hh e w1 r w' HI1 H).
    + injection H as _ <-. exact HI1.
Qed.

Lemma preserves_log (r : LogRecord) : preserves I (log r).
Proof.
  intros w o w' HI H. injection H as _ <-.
  apply (stable_emit I I_stable). exact HI.
Qed.

Lemma preserves_sleep (ms : JsNumber) : preserves I (sleep ms).
Proof.
  intros w o w' HI H. injection H as _ <-.
  apply (stable_advance I I_stable), (stable_emit I I_stable). exact HI.
Qed.

Lemma preserves_awaitDelay (d : Z) : preserves I (awaitDelay d).
Proof.
  unfold awaitDelay. destruct (d =? 0)%Z.
  - apply preserves_ret.
  - apply preserves_sleep.
Qed.

Lemma preserves_fetch_token (c : OAuth2ClientCredentials) :
  preserves I (fetch_token c).
Proof.
  intros w o w' HI H. unfold fetch_token in H.
  assert (HI' : forall dt,
             I (advance dt (emit (EvTokenRequest c)
                                 (count_token_request w)))).
  { intro dt. apply (stable_advance I I_stable),
      (stable_emit I I_stable),
      (stable_count_token_request I I_stable). exact HI. }
  destruct (tokenServer w (tokenRequests w)) as [dt r|dt];
    injection H as _ <-; apply HI'.
Qed.

Lemma preserves_fetch_api (u : Url) (b : string) :
  preserves I (fetch_api u b).
Proof.
  intros w o w' HI H. unfold fetch_api in H.
  assert (HI' : forall dt,
             I (advance dt (emit (EvApiRequest u b)
                                 (count_api_request w)))).
  { intro dt. apply (stable_advance I I_stable),
      (stable_emit I I_stable),
      (stable_count_api_request I I_stable). exact HI. }
  destruct (apiServer w (apiRequests w)) as [dt r|dt];
    injection H as _ <-; apply HI'.
Qed.

Lemma preserves_json {B} (r : Response B) : preserves I (json r).
Proof.
  unfold json. destruct (body r).
  - apply preserves_ret.
  - apply preserves_throw.
Qed.

(** The attempt loop preserves what its two callbacks preserve. *)
Lemma preserves_makeAttempt {A}
    (attemptFunc : AttemptContext -> M Resource A)
    (handleError : Error -> AttemptContext -> M Resource AttemptContext)
    (options : AttemptOptions) :
  (forall c, preserves I (attemptFunc c)) ->
  (forall e c, preserves I (handleError e c)) ->
  forall fuel context,
    preserves I (makeAttempt fuel attemptFunc handleError options context).
Proof.
  intros Ha Hh. induction fuel as [|fuel IH]; intro context.
  - apply preserves_outOfFuel.
  - rewrite makeAttempt_S. destruct (aborted context).
    + apply preserves_throw.
    + apply preserves_withTimeout; [apply Ha|].
      intro err. apply preserves_bind; [apply Hh|].
      intro c. destruct (aborted c || (attemptsRemaining c =? 0)%Z).
      * apply preserves_throw.
      * apply preserves_bind; [apply preserves_awaitDelay|].
        intros _. apply IH.
Qed.

(** A value returned by the attempt loop was returned by an attempt,
    in the world the loop ends in. *)
Lemma makeAttempt_returns {A}
    (attemptFunc : AttemptContext -> M Resource A)
    (handleError : Error -> AttemptContext -> M Resource AttemptContext)
    (options : AttemptOptions) (Q : A -> W -> Prop) :
  (forall c, preserves I (attemptFunc c)) ->
  (forall e c, preserves I (handleError e c)) ->
  (forall c w a w', I w -> attemptFunc c w = (Ok a, w') -> Q a w') ->
  forall fuel context w a w',
    I w ->
    makeAttempt fuel attemptFunc handleError options context w
    = (Ok a, w') ->
    Q a w'.
Proof.
  intros Ha Hh HQ. induction fuel as [|fuel IH];
    intros context w a w' HI H.
  - discriminate.
  - rewrite makeAttempt_S in H. destruct (aborted context).
    + discriminate.
    + unfold withTimeout in H.
      destruct (attemptFunc (consumeAttempt context) w)
        as [[a0|e|] w1] eqn:E;
        destruct (timerFiresFirst options (clock w) (clock w1));
        try discriminate.
      * injection H as <- <-. exact (HQ _ _ _ _ HI E).
      * pose proof (Ha _ _ _ _ HI E) as HI1.
        unfold bind at 1 in H.
        destruct (handleError e (consumeAttempt context) w1)
          as [[c| |] w2] eqn:E2; try discriminate.
        pose proof (Hh _ _ _ _ _ HI1 E2) as HI2.
        destruct (aborted c || (attemptsRemaining c =? 0)%Z);
          [discriminate|].
        unfold bind at 1 in H.
        destruct (awaitDelay
                    (defaultCalculateDelay (nextAttempt c) options) w2)
          as [[[]| |] w3] eqn:E3; try discriminate.
        exact (IH _ _ _ _ (preserves_awaitDelay _ _ _ _ HI2 E3) H).
Qed.

Lemma preserves_retry {A} (fuel : nat)
    (attemptFunc : AttemptContext -> M Resource A)
    (handleError : Error -> AttemptContext -> M Resource AttemptContext)
    (options : AttemptOptions) :
  (forall c, preserves I (attemptFunc c)) ->
  (forall e c, preserves I (handleError e c)) ->
  preserves I (retry fuel attemptFunc handleError options).
Proof.
  intros Ha Hh. unfold retry.
  destruct (negb (Qle_bool 0 (factor options))).
  - apply preserves_throw.
  - apply preserves_makeAttempt; assumption.
Qed.

Lemma retry_returns {A} (fuel : nat)
    (attemptFunc : AttemptContext -> M Resource A)
    (handleError : Error -> AttemptContext -> M Resource AttemptContext)
    (options : AttemptOptions) (Q : A -> W -> Prop) :
  (forall c, preserves I (attemptFunc c)) ->
  (forall e c, preserves I (handleError e c)) ->
  (forall c w a w', I w -> attemptFunc c w = (Ok a, w') -> Q a w') ->
  forall w a w',
    I w -> retry fuel attemptFunc handleError options w = (Ok a, w') ->
    Q a w'.
Proof.
  intros Ha Hh HQ w a w' HI H. unfold retry in H.
  destruct (negb (Qle_bool 0 (factor options))); [discriminate|].
  exact (makeAttempt_returns _ _ _ Q Ha Hh HQ _ _ _ _ _ HI H).
Qed.

Lemma preserves_authRequestAttempt (c : AttemptContext) :
  preserves I (authRequestAttempt c).
Proof.
  unfold authRequestAttempt.
  apply preserves_bind; [apply preserves_gets|]. intro cr.
  apply preserves_bind; [apply preserves_fetch_token|]. intro r.
  destruct (response_ok r).
  - apply preserves_json.
  - apply preserves_throw.
Qed.

Lemma preserves_authHandleError (e : Error) (c : AttemptContext) :
  preserves I (authHandleError e c).
Proof.
  unfold authHandleError.
  destruct (error_fields e) as [f|].
  - destruct (err_status f =? 403)%Z.
    + apply preserves_throw.
    + apply preserves_bind; [apply preserves_log|].
      intros _. apply preserves_ret.
  - apply preserves_bind; [apply preserves_log|].
    intros _. apply preserves_ret.
Qed.

Lemma preserves_requestOAuth2Token (fuel : nat) :
  preserves I (requestOAuth2Token fuel).
Proof.
  unfold requestOAuth2Token.
  apply preserves_bind; [apply preserves_log|]. intros _.
  apply preserves_bind; [apply preserves_gets|]. intro o.
  apply preserves_bind.
  { apply preserves_retry.
    - apply preserves_authRequestAttempt.
    - apply preserves_authHandleError. }
  intro resp.
  apply preserves_bind; [apply preserves_gets|]. intro now.
  apply preserves_bind; [apply preserves_log|]. intros _.
  apply preserves_ret.
Qed.

Lemma preserves_set_token (t : option OAuth2Token) :
  preserves I (modify (set_token t)).
Proof.
  intros w o w' HI H. injection H as _ <-.
  apply (stable_set_token I I_stable). exact HI.
Qed.

Lemma preserves_authenticate (fuel : nat) :
  preserves I (authenticate fuel).
Proof.
  assert (Hrefresh : preserves I (refresh fuel)).
  { unfold refresh.
    apply preserves_bind; [apply preserves_requestOAuth2Token|].
    intro t. apply preserves_bind; [apply preserves_set_token|].
    intros _. apply preserves_ret. }
  unfold authenticate.
  apply preserves_bind; [apply preserves_gets|]. intros [t|].
  - apply preserves_bind.
    + unfold isValidToken. apply preserves_bind; [apply preserves_gets|].
      intro now. apply preserves_ret.
    + intros []; [apply preserves_ret | exact Hrefresh].
  - exact Hrefresh.
Qed.

Lemma preserves_getRateLimitState : preserves I getRateLimitState.
Proof.
  unfold getRateLimitState.
  apply preserves_bind; [apply preserves_gets|]. intros [st|].
  - apply preserves_ret.
  - apply preserves_throw.
Qed.

Lemma preserves_handle429Error : preserves I handle429Error.
Proof.
  unfold handle429Error.
  apply preserves_bind; [apply preserves_gets|]. intro now.
  apply preserves_bind; [apply preserves_getRateLimitState|]. intro st.
  apply preserves_bind; [apply preserves_gets|]. intro cfg.
  apply preserves_bind; [apply preserves_log|]. intros _.
  apply preserves_bind; [apply preserves_sleep|]. intros _.
  apply preserves_bind; [apply preserves_getRateLimitState|]. intro st'.
  destruct (needsCooldown st' cfg).
  - apply preserves_bind; [apply preserves_log|]. intros _.
    apply preserves_sleep.
  - apply preserves_ret.
Qed.

Lemma preserves_requestAttempt (u : Url) (c : AttemptContext) :
  preserves I (requestAttempt u c).
Proof.
  unfold requestAttempt.
  apply preserves_bind; [apply preserves_gets|]. intros [t|].
  - apply preserves_bind; [apply preserves_fetch_api|]. intro r.
    apply preserves_bind.
    { intros w o w' HI H. injection H as _ <-.
      apply (stable_set_rateLimitState I I_stable). exact HI. }
    intros _. destruct (response_ok r).
    + apply preserves_json.
    + destruct (status r =? 401)%Z; [apply preserves_throw|].
      destruct (status r =? 403)%Z; apply preserves_throw.
  - apply preserves_throw.
Qed.

Lemma preserves_requestHandleError (fuel : nat)
    (e : Error) (c : AttemptContext) :
  preserves I (requestHandleError fuel e c).
Proof.
  unfold requestHandleError.
  apply preserves_bind; [apply preserves_log|]. intros _.
  apply preserves_bind.
  { destruct (status_is e 401); [|apply preserves_ret].
    destruct (1 <? attemptNum c)%Z; [apply preserves_ret|].
    apply preserves_bind; [apply preserves_authenticate|].
    intros _. apply preserves_ret. }
  intro c'.
  apply preserves_bind.
  { destruct (status_is e 429);
      [apply preserves_handle429Error | apply preserves_ret]. }
  intros _.
  apply preserves_bind; [apply preserves_log|]. intros _.
  apply preserves_ret.
Qed.

Lemma preserves_executeAPIRequestWithRetries (fuel : nat) (u : Url) :
  preserves I (executeAPIRequestWithRetries fuel u).
Proof.
  unfold executeAPIRequestWithRetries.
  apply preserves_bind; [apply preserves_authenticate|]. intros _.
  apply preserves_bind; [apply preserves_gets|]. intro o.
  apply preserves_retry.
  - apply preserves_requestAttempt.
  - apply preserves_requestHandleError.
Qed.

Lemma preserves_logResponseErrors (r : ResourcesResponse Resource) :
  preserves I (logResponseErrors r).
Proof.
  unfold logResponseErrors. destruct (errors r) as [[|e errs]|].
  - apply preserves_ret.
  - apply preserves_log.
  - apply preserves_ret.
Qed.

Lemma preserves_paginateIteration (rfuel : nat)
    (callback : list Resource -> M Resource unit)
    (resourcePath : string) (query : option QueryParams)
    (seen : Z) (params : option PaginationMeta) :
  (forall l, preserves I (callback l)) ->
  preserves I (paginateIteration rfuel callback resourcePath query
                                 seen params).
Proof.
  intro Hcb. unfold paginateIteration.
  apply preserves_bind; [apply preserves_log|]. intros _.
  apply preserves_bind;
    [apply preserves_executeAPIRequestWithRetries|]. intro resp.
  apply preserves_bind; [apply preserves_logResponseErrors|]. intros _.
  apply preserves_bind; [apply Hcb|]. intros _.
  apply preserves_bind; [apply preserves_log|]. intros _.
  apply preserves_bind; [apply preserves_log|]. intros _.
  apply preserves_ret.
Qed.

(** With a bounded number of attempts left and that much fuel, the
    attempt loop ends, provided its callbacks end and [handleError] leaves
    [attemptsRemaining] alone. *)
Lemma makeAttempt_ends {A}
    (attemptFunc : AttemptContext -> M Resource A)
    (handleError : Error -> AttemptContext -> M Resource AttemptContext)
    (options : AttemptOptions) :
  (forall c, preserves I (attemptFunc c)) ->
  (forall e c, preserves I (handleError e c)) ->
  (forall c w, I w -> ends (attemptFunc c w)) ->
  (forall e c w, I w -> ends (handleError e c w)) ->
  (forall e c w c' w',
      handleError e c w = (Ok c', w') ->
      attemptsRemaining c' = attemptsRemaining c) ->
  forall fuel context w,
    I w ->
    (0 < attemptsRemaining context)%Z ->
    (attemptsRemaining context <= Z.of_nat fuel)%Z ->
    ends (makeAttempt fuel attemptFunc handleError options context w).
Proof.
  intros Ha Hh Ta Th Hrem. unfold ends.
  induction fuel as [|fuel IH]; intros context w HI Hpos Hle.
  - lia.
  - rewrite makeAttempt_S. destruct (aborted context); [discriminate|].
    unfold withTimeout.
    assert (Hc : attemptsRemaining (consumeAttempt context)
                 = (attemptsRemaining context - 1)%Z).
    { unfold consumeAttempt. simpl.
      destruct (0 <? attemptsRemaining context)%Z eqn:E; [reflexivity|].
      apply Z.ltb_ge in E. lia. }
    pose proof (Ta (consumeAttempt context) w HI) as Tatt.
    unfold ends in Tatt.
    destruct (attemptFunc (consumeAttempt context) w)
      as [[a|e|] w1] eqn:E;
      destruct (timerFiresFirst options (clock w) (clock w1));
      try discriminate; try contradiction.
    pose proof (Ha _ _ _ _ HI E) as HI1.
    unfold bind at 1.
    pose proof (Th e (consumeAttempt context) w1 HI1) as Thd.
    unfold ends in Thd.
    destruct (handleError e (consumeAttempt context) w1)
      as [[c| |] w2] eqn:E2; [|discriminate|contradiction].
    pose proof (Hh _ _ _ _ _ HI1 E2) as HI2.
    pose proof (Hrem _ _ _ _ _ E2) as Hc'.
    destruct (aborted c || (attemptsRemaining c =? 0)%Z) eqn:Eab;
      [discriminate|].
    apply orb_false_iff in Eab. destruct Eab as [_ Ez].
    apply Z.eqb_neq in Ez.
    unfold bind at 1.
    destruct (awaitDelay (defaultCalculateDelay (nextAttempt c) options) w2)
      as [[[]| |] w3] eqn:E3.
    + apply IH.
      * exact (preserves_awaitDelay _ _ _ _ HI2 E3).
      * simpl. lia.
      * simpl. lia.
    + discriminate.
    + unfold awaitDelay in E3.
      destruct (defaultCalculateDelay (nextAttempt c) options =? 0)%Z;
        discriminate.
Qed.

End Invariants.

Lemma servedBy_stable (w0 : W) : Stable (servedBy w0).
Proof.
  unfold servedBy.
  split; intros; simpl; intuition (auto with arith).
Qed.

Lemma servedBy_refl (w : W) : servedBy w w.
Proof. unfold servedBy. auto. Qed.

(** ** Enough fuel

    With [maxAttempts] positive and at least that much fuel, every call
    of the token exchange and of the retry engine ends: the outcome
    [OutOfFuel] does not occur. *)

Lemma hasOptions_stable (o : AttemptOptions) :
  Stable (@hasOptions Resource o).
Proof. unfold hasOptions. split; intros; simpl; assumption. Qed.

Lemma ends_bind {A B} (m : M Resource A) (k : A -> M Resource B) (w : W) :
  ends (m w) ->
  (forall a w', m w = (Ok a, w') -> ends (k a w')) ->
  ends (bind m k w).
Proof.
  unfold ends, bind. intros Hm Hk.
  destruct (m w) as [[a|e|] w'].
  - apply Hk. reflexivity.
  - discriminate.
  - exfalso. apply Hm. reflexivity.
Qed.

Lemma authRequestAttempt_ends (c : AttemptContext) (w : W) :
  ends (authRequestAttempt c w).
Proof.
  unfold ends, authRequestAttempt, bind, gets, fetch_token.
  cbv beta iota zeta.
  destruct (tokenServer w (tokenRequests w)) as [dt r|dt]; [|discriminate].
  destruct (response_ok r); [|discriminate].
  unfold json. destruct (body r); discriminate.
Qed.

Lemma authHandleError_ends (e : Error) (c : AttemptContext) (w : W) :
  ends (authHandleError e c w).
Proof.
  unfold ends, authHandleError.
  destruct (error_fields e) as [f|]; [destruct (err_status f =? 403)%Z|];
    discriminate.
Qed.

Lemma authHandleError_attemptsRemaining (e : Error) (c : AttemptContext)
    (w : W) (c' : AttemptContext) (w' : W) :
  authHandleError e c w = (Ok c', w') ->
  attemptsRemaining c' = attemptsRemaining c.
Proof.
  unfold authHandleError.
  destruct (error_fields e) as [f|];
    [destruct (err_status f =? 403)%Z; [discriminate|]|];
    unfold bind, log, modify, ret; cbv beta iota;
    intro H; injection H as <- _;
    destruct (status_is e 400); reflexivity.
Qed.

Lemma retry_ends {A} (fuel : nat)
    (attemptFunc : AttemptContext -> M Resource A)
    (handleError : Error -> AttemptContext -> M Resource AttemptContext)
    (options : AttemptOptions) (I : W -> Prop) :
  Stable I ->
  (forall c, preserves I (attemptFunc c)) ->
  (forall e c, preserves I (handleError e c)) ->
  (forall c w, I w -> ends (attemptFunc c w)) ->
  (forall e c w, I w -> ends (handleError e c w)) ->
  (forall e c w c' w',
      handleError e c w = (Ok c', w') ->
      attemptsRemaining c' = attemptsRemaining c) ->
  maxAttempts options <> 0%N ->
  (N.to_nat (maxAttempts options) <= fuel)%nat ->
  forall w, I w -> ends (retry fuel attemptFunc handleError options w).
Proof.
  intros HS Ha Hh Ta Th Hrem Hmax Hfuel w HI. unfold retry.
  destruct (negb (Qle_bool 0 (factor options))); [discriminate|].
  apply (makeAttempt_ends I HS _ _ _ Ha Hh Ta Th Hrem); [exact HI| |];
    unfold initialContext; simpl;
    destruct (maxAttempts options =? 0)%N eqn:E;
    try (apply N.eqb_eq in E; contradiction); lia.
Qed.

Lemma requestOAuth2Token_ends (fuel : nat) (w : W) :
  maxAttempts (this_attemptOptions w) <> 0%N ->
  (N.to_nat (maxAttempts (this_attemptOptions w)) <= fuel)%nat ->
  ends (requestOAuth2Token fuel w).
Proof.
  intros Hmax Hfuel. unfold requestOAuth2Token.
  apply ends_bind; [discriminate|]. intros [] w0 H0.
  injection H0 as <-.
  apply ends_bind; [discriminate|]. intros o w1 H1.
  injection H1 as <- <-.
  apply ends_bind.
  - apply (retry_ends fuel _ _ _ (fun _ => True)).
    + split; trivial.
    + intros c w1 r w1' _ _. exact Logic.I.
    + intros e c w1 r w1' _ _. exact Logic.I.
    + intros c w1 _. apply authRequestAttempt_ends.
    + intros e c w1 _. apply authHandleError_ends.
    + apply authHandleError_attemptsRemaining.
    + exact Hmax.
    + exact Hfuel.
    + exact Logic.I.
  - intros resp w2 _. discriminate.
Qed.

Lemma authenticate_ends (fuel : nat) (w : W) :
  maxAttempts (this_attemptOptions w) <> 0%N ->
  (N.to_nat (maxAttempts (this_attemptOptions w)) <= fuel)%nat ->
  ends (authenticate fuel w).
Proof.
  intros Hmax Hfuel.
  assert (Hrefresh : ends (refresh fuel w)).
  { unfold refresh. apply ends_bind.
    - apply requestOAuth2Token_ends; assumption.
    - intros t w' _. discriminate. }
  unfold authenticate. apply ends_bind; [discriminate|].
  intros held w' H. injection H as <- <-.
  destruct (this_token w) as [t|]; [|exact Hrefresh].
  apply ends_bind; [discriminate|].
  intros valid w' H. injection H as <- <-.
  destruct (Qgt_bool (expiresAt t) (clock w)); [discriminate|exact Hrefresh].
Qed.

Lemma handle429Error_ends (w : W) : ends (handle429Error w).
Proof.
  unfold ends.
  cbv beta iota zeta
      delta [handle429Error bind getUnixTimeNow getRateLimitState gets].
  destruct (this_rateLimitState w) as [st|] eqn:Hst; [|discriminate].
  simpl. rewrite Hst. unfold ret at 1.
  destruct (needsCooldown st (this_rateLimitConfig w)); discriminate.
Qed.

Lemma requestAttempt_ends (u : Url) (c : AttemptContext) (w : W) :
  ends (requestAttempt u c w).
Proof.
  unfold ends, requestAttempt, bind at 1, gets. cbv beta iota.
  destruct (this_token w) as [t|]; [|discriminate].
  unfold bind, fetch_api, modify. cbv beta iota zeta.
  destruct (apiServer w (apiRequests w)) as [dt r|dt]; [|discriminate].
  destruct (response_ok r).
  - unfold json. destruct (body r); discriminate.
  - destruct (status r =? 401)%Z; [discriminate|].
    destruct (status r =? 403)%Z; discriminate.
Qed.

Lemma requestHandleError_ends (fuel : nat) (e : Error) (c : AttemptContext)
    (w : W) :
  maxAttempts (this_attemptOptions w) <> 0%N ->
  (N.to_nat (maxAttempts (this_attemptOptions w)) <= fuel)%nat ->
  ends (requestHandleError fuel e c w).
Proof.
  intros Hmax Hfuel. unfold requestHandleError.
  apply ends_bind; [discriminate|]. intros [] w0 H0. injection H0 as <-.
  apply ends_bind.
  { destruct (status_is e 401); [|discriminate].
    destruct (1 <? attemptNum c)%Z; [discriminate|].
    apply ends_bind.
    - apply authenticate_ends; assumption.
    - intros t w' _. discriminate. }
  intros c' w1 _.
  apply ends_bind.
  { destruct (status_is e 429);
      [apply handle429Error_ends | discriminate]. }
  intros [] w2 _.
  apply ends_bind; [discriminate|]. intros [] w3 _. discriminate.
Qed.

Lemma requestHandleError_attemptsRemaining (fuel : nat) (e : Error)
    (c : AttemptContext) (w : W) (c' : AttemptContext) (w' : W) :
  requestHandleError fuel e c w = (Ok c', w') ->
  attemptsRemaining c' = attemptsRemaining c.
Proof.
  unfold requestHandleError.
  unfold bind at 1, log at 1, modify. cbv beta iota.
  unfold bind at 1.
  match goal with
  | |- context [match ?m ?w0 with _ => _ end] =>
    destruct (m w0) as [[c1| |] w1] eqn:E1; try discriminate
  end.
  assert (Hc1 : attemptsRemaining c1 = attemptsRemaining c).
  { destruct (status_is e 401).
    - destruct (1 <? attemptNum c)%Z.
      + injection E1 as <- _. reflexivity.
      + unfold bind in E1.
        destruct (authenticate fuel _) as [[t| |] w2];
          try discriminate.
        injection E1 as <- _. reflexivity.
    - injection E1 as <- _. reflexivity. }
  unfold bind at 1.
  match goal with
  | |- context [match ?m ?w0 with _ => _ end] =>
    destruct (m w0) as [[[]| |] w2]; try discriminate
  end.
  unfold bind, log, modify, ret. cbv beta iota.
  intro H. injection H as <- _.
  destruct (status_is e 403); simpl; exact Hc1.
Qed.

(** With [maxAttempts] positive and that much fuel, a resource request
    returns a page or throws. *)
Lemma executeAPIRequestWithRetries_ends (fuel : nat) (u : Url) (w : W) :
  maxAttempts (this_attemptOptions w) <> 0%N ->
  (N.to_nat (maxAttempts (this_attemptOptions w)) <= fuel)%nat ->
  ends (executeAPIRequestWithRetries fuel u w).
Proof.
  intros Hmax Hfuel. unfold executeAPIRequestWithRetries.
  set (o := this_attemptOptions w).
  assert (HS : Stable (@hasOptions Resource o)) by apply hasOptions_stable.
  apply ends_bind; [apply authenticate_ends; assumption|].
  intros t w1 Hauth.
  pose proof (preserves_authenticate _ HS fuel w _ w1 eq_refl Hauth) as HI1.
  apply ends_bind; [discriminate|].
  intros o' w2 H. injection H as <- <-.
  rewrite HI1.
  apply (retry_ends fuel _ _ _ (hasOptions o) HS).
  - intro c. apply preserves_requestAttempt, HS.
  - intros e c. apply preserves_requestHandleError, HS.
  - intros c w2 _. apply requestAttempt_ends.
  - intros e c w2 HI2. unfold hasOptions in HI2.
    apply requestHandleError_ends; rewrite HI2; assumption.
  - apply requestHandleError_attemptsRemaining.
  - exact Hmax.
  - exact Hfuel.
  - exact HI1.
Qed.

(** ** The handlers *)

(** An error that is neither a 400 nor a 403 leaves the context of the
    token exchange as it is and is logged as recoverable. *)
Lemma authHandleError_recoverable (err : Error) (c : AttemptContext) (w : W) :
  status_is err 400 = false ->
  status_is err 403 = false ->
  authHandleError err c w
  = (Ok c, emit (EvLog (LogAuthRecoverable c err)) w).
Proof.
  intros H400 H403. unfold authHandleError. rewrite H400.
  unfold status_is, error_status in H403.
  destruct (error_fields err) as [e|]; simpl in H403.
  - rewrite H403. reflexivity.
  - reflexivity.
Qed.

(** What the handler of a resource request does with a 401: it sets
    [aborted] when [attemptNum > 1], that is from the third attempt on;
    before that it calls [authenticate], which leaves a token that has
    not expired where it is. *)
Lemma requestHandleError_401 (fuel : nat) (e : ProviderError)
    (c : AttemptContext) (w : W) (t : OAuth2Token) :
  err_status e = 401%Z ->
  this_token w = Some t ->
  clock w < expiresAt t ->
  let err := IntegrationProviderAuthenticationError e in
  let w1 := emit (EvLog (LogHandleError err c)) w in
  requestHandleError fuel err c w
  = if (1 <? attemptNum c)%Z
    then (Ok (abort c),
          emit (EvLog (LogRequestRecoverable (abort c) err)) w1)
    else (Ok c, emit (EvLog (LogRequestRecoverable c err)) w1).
Proof.
  intros He Ht Hvalid err w1.
  unfold requestHandleError.
  unfold bind at 1, log at 1, modify. cbv beta iota. fold w1.
  assert (H401 : status_is err 401 = true)
    by (unfold status_is; simpl; rewrite He; reflexivity).
  assert (H403 : status_is err 403 = false)
    by (unfold status_is; simpl; rewrite He; reflexivity).
  assert (H429 : status_is err 429 = false)
    by (unfold status_is; simpl; rewrite He; reflexivity).
  rewrite H401, H403, H429.
  destruct (1 <? attemptNum c)%Z.
  - reflexivity.
  - unfold bind at 1, bind at 1, authenticate, bind at 1, gets at 1.
    cbv beta iota.
    replace (this_token w1) with (Some t) by (symmetry; exact Ht).
    unfold bind at 1, isValidToken, bind at 1, getUnixTimeNow, gets, ret.
    cbv beta iota. unfold Qgt_bool.
    replace (clock w1) with (clock w) by reflexivity.
    destruct (Qle_bool (expiresAt t) (clock w)) eqn:E.
    + apply Qle_bool_iff in E. lra.
    + reflexivity.
Qed.

(** ** C9: a 403 on a resource request *)

(** C9.  In any attempt of a resource request (whatever the attempt
    number and the attempts remaining), a 403 reply that arrives before
    the timer of the attempt fires ends the retry at once, at the instant
    the reply arrived: the error thrown is the
    [IntegrationProviderAuthorizationError] of that reply, exactly one
    request was sent, no token was requested and no timer was awaited. *)
Theorem resource_403_aborts_immediately :
  forall (fuel hfuel : nat) (url : Url) (options : AttemptOptions)
         (context : AttemptContext) (w : W) (t : OAuth2Token)
         (dt : Q) (r : Response (ResourcesResponse Resource)),
    aborted context = false ->
    this_token w = Some t ->
    apiServer w (apiRequests w) = Responds dt r ->
    status r = 403%Z ->
    settlesInTime options dt ->
    exists w',
      makeAttempt (S fuel) (requestAttempt url) (requestHandleError hfuel)
                  options context w
      = (Throw (IntegrationProviderAuthorizationError
                  {| err_status := 403;
                     err_statusText := statusText r;
                     err_endpoint := ResourceEndpoint url |}), w')
      /\ apiRequests w' = S (apiRequests w)
      /\ tokenRequests w' = tokenRequests w
      /\ sleeps (trace w') = sleeps (trace w)
      /\ this_token w' = this_token w
      /\ clock w' = clock w + dt.
Proof.
  intros fuel hfuel url options context w t dt r Hab Htok Hreply Hst Htime.
  rewrite makeAttempt_S, Hab.
  assert (Hatt :
            requestAttempt url (consumeAttempt context) w
            = (Throw (IntegrationProviderAuthorizationError
                        {| err_status := status r;
                           err_statusText := statusText r;
                           err_endpoint := ResourceEndpoint url |}),
               set_rateLimitState
                 (Some (rateLimitState_of_headers (headers r)))
                 (advance dt (emit (EvApiRequest url (token t))
                                   (count_api_request w))))).
  { unfold requestAttempt, bind, gets. rewrite Htok.
    unfold fetch_api. rewrite Hreply. simpl.
    unfold response_ok. rewrite Hst. reflexivity. }
  rewrite (withTimeout_in_time _ _ _ _ _ _ Hatt
             (timerFiresFirst_in_time _ _ _ Htime)).
  unfold catch. rewrite Hatt, Hst.
  eexists. split; [reflexivity|].
  simpl. rewrite !sleeps_app. simpl. rewrite !app_nil_r.
  repeat split; assumption.
Qed.

(** ** C8: failures of the token exchange *)

(** C8.  In any attempt of the token exchange whose reply arrives before
    the timer of the attempt fires: a 400 reply ends the retry at once,
    at the instant it arrived, with the error of that reply, one request
    sent and no timer awaited; a 403 reply ends it at once with an
    [IntegrationProviderAuthenticationError], likewise; a reply with
    another non-success status, or a network fault, makes the attempt
    throw an error that is neither, and every such error is handled by
    the generic policy: it is rethrown when no attempt remains, and
    otherwise the policy's delay is awaited and the next attempt made. *)
Theorem token_exchange_failure_classification :
  forall (fuel : nat) (options : AttemptOptions)
         (context : AttemptContext) (w : W),
    aborted context = false ->
    (forall dt r,
        tokenServer w (tokenRequests w) = Responds dt r ->
        status r = 400%Z ->
        settlesInTime options dt ->
        exists w',
          makeAttempt (S fuel) authRequestAttempt authHandleError
                      options context w
          = (Throw (IntegrationProviderAPIError
                      {| err_status := 400;
                         err_statusText := statusText r;
                         err_endpoint := TokenEndpoint |}), w')
          /\ tokenRequests w' = S (tokenRequests w)
          /\ sleeps (trace w') = sleeps (trace w)
          /\ clock w' = clock w + dt)
    /\ (forall dt r,
        tokenServer w (tokenRequests w) = Responds dt r ->
        status r = 403%Z ->
        settlesInTime options dt ->
        exists w',
          makeAttempt (S fuel) authRequestAttempt authHandleError
                      options context w
          = (Throw (IntegrationProviderAuthenticationError
                      {| err_status := 403;
                         err_statusText := statusText r;
                         err_endpoint := TokenEndpoint |}), w')
          /\ tokenRequests w' = S (tokenRequests w)
          /\ sleeps (trace w') = sleeps (trace w)
          /\ clock w' = clock w + dt)
    /\ (forall dt r,
        tokenServer w (tokenRequests w) = Responds dt r ->
        response_ok r = false ->
        status r <> 400%Z -> status r <> 403%Z ->
        exists err w1,
          authRequestAttempt (consumeAttempt context) w = (Throw err, w1)
          /\ error_status err = Some (status r)
          /\ status_is err 400 = false /\ status_is err 403 = false)
    /\ (forall dt,
        tokenServer w (tokenRequests w) = NetworkFault dt ->
        exists w1,
          authRequestAttempt (consumeAttempt context) w
          = (Throw FetchError, w1)
          /\ status_is FetchError 400 = false
          /\ status_is FetchError 403 = false)
    /\ (forall err w1,
        authRequestAttempt (consumeAttempt context) w = (Throw err, w1) ->
        status_is err 400 = false ->
        status_is err 403 = false ->
        settlesInTime options (clock w1 - clock w) ->
        let context1 := consumeAttempt context in
        let w2 := emit (EvLog (LogAuthRecoverable context1 err)) w1 in
        makeAttempt (S fuel) authRequestAttempt authHandleError
                    options context w
        = if (attemptsRemaining context1 =? 0)%Z
          then (Throw err, w2)
          else (awaitDelay
                  (defaultCalculateDelay (nextAttempt context1) options) ;;
                makeAttempt fuel authRequestAttempt authHandleError
                            options (nextAttempt context1)) w2).
Proof.
  intros fuel options context w Hab.
  assert (Hfails : forall dt r,
             tokenServer w (tokenRequests w) = Responds dt r ->
             response_ok r = false ->
             authRequestAttempt (consumeAttempt context) w
             = (Throw (IntegrationProviderAPIError
                         {| err_status := status r;
                            err_statusText := statusText r;
                            err_endpoint := TokenEndpoint |}),
                advance dt (emit (EvTokenRequest (this_credentials w))
                                 (count_token_request w)))).
  { intros dt r Hreply Hok.
    unfold authRequestAttempt, bind, gets, fetch_token.
    rewrite Hreply. cbv beta iota zeta. rewrite Hok. reflexivity. }
  repeat split.
  - intros dt r Hreply Hst Htime.
    assert (Hok : response_ok r = false)
      by (unfold response_ok; rewrite Hst; reflexivity).
    rewrite makeAttempt_S, Hab.
    rewrite (withTimeout_in_time _ _ _ _ _ _ (Hfails dt r Hreply Hok)
               (timerFiresFirst_in_time _ _ _ Htime)).
    unfold catch. rewrite (Hfails dt r Hreply Hok), Hst.
    eexists. split; [reflexivity|].
    simpl. rewrite !sleeps_app. simpl. rewrite !app_nil_r.
    repeat split; reflexivity.
  - intros dt r Hreply Hst Htime.
    assert (Hok : response_ok r = false)
      by (unfold response_ok; rewrite Hst; reflexivity).
    rewrite makeAttempt_S, Hab.
    rewrite (withTimeout_in_time _ _ _ _ _ _ (Hfails dt r Hreply Hok)
               (timerFiresFirst_in_time _ _ _ Htime)).
    unfold catch. rewrite (Hfails dt r Hreply Hok), Hst.
    eexists. split; [reflexivity|].
    simpl. rewrite !sleeps_app. simpl. rewrite !app_nil_r.
    repeat split; reflexivity.
  - intros dt r Hreply Hok H400 H403.
    unfold authRequestAttempt, bind, gets, fetch_token.
    rewrite Hreply. simpl. rewrite Hok.
    eexists. eexists. split; [reflexivity|].
    unfold status_is. simpl.
    repeat split; apply Z.eqb_neq; assumption.
  - intros dt Hreply.
    unfold authRequestAttempt, bind, gets, fetch_token.
    rewrite Hreply. simpl.
    eexists. repeat split.
  - intros err w1 Hattempt H400 H403 Htime context1 w2.
    rewrite makeAttempt_S, Hab.
    rewrite (withTimeout_in_time _ _ _ _ _ _ Hattempt
               (timerFiresFirst_within _ _ _ Htime)).
    unfold catch. rewrite Hattempt. fold context1.
    unfold bind at 1.
    rewrite (authHandleError_recoverable err context1 w1 H400 H403).
    fold w2.
    replace (aborted context1) with false
      by (unfold context1; simpl; symmetry; exact Hab).
    cbv beta iota. rewrite orb_false_l.
    destruct (attemptsRemaining context1 =? 0)%Z; reflexivity.
Qed.

(** ** C2, C3: the rate-limit wait *)

Lemma timer_elapsed_seconds (x : Q) :
  timer_elapsed (js_mul (Num x) (Num 1000)) / 1000 == Qmax 0 x.
Proof.
  simpl. destruct (Qlt_le_dec x 0) as [Hneg|Hpos].
  - rewrite (Q.max_l 0 (x * 1000)) by lra.
    rewrite (Q.max_l 0 x) by lra. reflexivity.
  - rewrite (Q.max_r 0 (x * 1000)) by lra.
    rewrite (Q.max_r 0 x) by lra. field.
Qed.

(** The cooldown is taken exactly when the remaining quota is a number
    other than zero that does not exceed the reserve. *)
Lemma needsCooldown_iff (st : RateLimitState) (cfg : RateLimitConfig) :
  needsCooldown st cfg = true
  <-> exists q, limitRemaining st = Num q
                /\ ~ q == 0 /\ q <= reserveLimit cfg.
Proof.
  unfold needsCooldown. destruct (limitRemaining st) as [|q]; simpl.
  - split; [discriminate|]. intros (q & Hq & _). discriminate.
  - rewrite andb_true_iff, negb_true_iff, Qle_bool_iff.
    split.
    + intros [Hnz Hle]. exists q. repeat split; [|exact Hle].
      intro Hz. apply Qeq_bool_iff in Hz. congruence.
    + intros (q' & Hq & Hnz & Hle). injection Hq as <-.
      split; [|exact Hle].
      destruct (Qeq_bool q 0) eqn:E; [|reflexivity].
      apply Qeq_bool_iff in E. contradiction.
Qed.

(** What [handle429Error] does, for any state it finds. *)
Lemma handle429Error_run (w : W) (st : RateLimitState) :
  this_rateLimitState w = Some st ->
  let cfg := this_rateLimitConfig w in
  let ms := js_mul (timeToSleepInSeconds st (clock w)) (Num 1000) in
  exists w',
    handle429Error w = (Ok tt, w')
    /\ sleeps (trace w')
       = sleeps (trace w)
         ++ ms :: (if needsCooldown st cfg
                   then [Num (cooldownPeriod cfg)] else []).
Proof.
  intros Hst cfg ms.
  cbv beta iota zeta
      delta [handle429Error bind getUnixTimeNow getRateLimitState gets].
  rewrite Hst. simpl. rewrite Hst. fold cfg. unfold ret at 1.
  destruct (needsCooldown st cfg) eqn:Hcd.
  - eexists. split; [reflexivity|].
    simpl. rewrite !sleeps_app. simpl.
    rewrite <- !app_assoc. reflexivity.
  - eexists. split; [reflexivity|].
    simpl. rewrite !sleeps_app. simpl.
    rewrite <- !app_assoc. reflexivity.
Qed.

(** C2 (as the code behaves at zero).  When the remaining quota last
    observed is exactly 0, which does not exceed any non-negative
    reserve, [handle429Error] awaits the initial timer only: the
    cooldown period is not awaited. *)
Theorem handle429Error_no_cooldown_at_zero :
  forall (w : W) (st : RateLimitState) (q : Q),
    this_rateLimitState w = Some st ->
    limitRemaining st = Num q ->
    q == 0 ->
    q <= reserveLimit (this_rateLimitConfig w) ->
    exists w',
      handle429Error w = (Ok tt, w')
      /\ sleeps (trace w')
         = sleeps (trace w)
           ++ [js_mul (timeToSleepInSeconds st (clock w)) (Num 1000)].
Proof.
  intros w st q Hst Hq Hz _.
  destruct (handle429Error_run w st Hst) as (w' & Hrun & Hsl).
  exists w'. split; [exact Hrun|].
  rewrite Hsl.
  assert (Hno : needsCooldown st (this_rateLimitConfig w) = false).
  { unfold needsCooldown. rewrite Hq. simpl.
    apply Qeq_bool_iff in Hz. rewrite Hz. reflexivity. }
  rewrite Hno. reflexivity.
Qed.

(** How long [handle429Error] suspends the client. *)
Lemma handle429Error_clock (w : W) (st : RateLimitState) :
  this_rateLimitState w = Some st ->
  let cfg := this_rateLimitConfig w in
  let ms := js_mul (timeToSleepInSeconds st (clock w)) (Num 1000) in
  clock (snd (handle429Error w))
  == clock w + timer_elapsed ms / 1000
     + (if needsCooldown st cfg
        then Qmax 0 (cooldownPeriod cfg) / 1000 else 0).
Proof.
  intros Hst cfg ms.
  cbv beta iota zeta
      delta [handle429Error bind getUnixTimeNow getRateLimitState gets].
  rewrite Hst. simpl. rewrite Hst. fold cfg. unfold ret at 1.
  destruct (needsCooldown st cfg) eqn:Hcd; simpl.
  - reflexivity.
  - symmetry. apply Qplus_0_r.
Qed.

(** C3.  [handle429Error] returns after having suspended the client:
    with a numeric [retryAfter] in the state for [retryAfter + 60 - now]
    seconds, or not at all when that is negative; without a [retryAfter]
    (the header was missing or empty) not at all; and after that for the
    cooldown when it applies.  The clock on return is the clock on entry
    plus these two waits, and the timers awaited are these two and no
    other; the number handed to the first timer is
    [(retryAfter + 60 - now) * 1000].  The code tests [retryAfter] for
    truthiness, so a [retryAfter] of exactly 0 gives no wait: that is
    what the formula gives too, unless the clock reads less than 60
    seconds past the epoch, and the statement covers that case as it
    is. *)
Theorem handle429Error_initial_sleep :
  forall (w : W) (st : RateLimitState),
    this_rateLimitState w = Some st ->
    let cfg := this_rateLimitConfig w in
    exists (w' : W) (ms : JsNumber) (rest : list JsNumber) (seconds : Q),
      handle429Error w = (Ok tt, w')
      /\ sleeps (trace w') = sleeps (trace w) ++ ms :: rest
      /\ rest = (if needsCooldown st cfg
                 then [Num (cooldownPeriod cfg)] else [])
      /\ clock w' == clock w + seconds
                     + (if needsCooldown st cfg
                        then Qmax 0 (cooldownPeriod cfg) / 1000 else 0)
      /\ (forall r,
             retryAfter st = RA_number (Num r) ->
             (seconds == Qmax 0 (r + 60 - clock w)
              /\ (~ r == 0 -> ms = Num ((r + 60 - clock w) * 1000)))
             \/ (r == 0 /\ clock w < 60 /\ seconds == 0))
      /\ (retryAfter st = RA_null \/ retryAfter st = RA_empty ->
          seconds == 0).
Proof.
  intros w st Hst cfg.
  destruct (handle429Error_run w st Hst) as (w' & Hrun & Hsl).
  pose proof (handle429Error_clock w st Hst) as Hclock.
  rewrite Hrun in Hclock. simpl snd in Hclock.
  exists w'. eexists. eexists.
  exists (timer_elapsed
            (js_mul (timeToSleepInSeconds st (clock w)) (Num 1000)) / 1000).
  split; [exact Hrun|]. split; [exact Hsl|]. split; [reflexivity|].
  split; [exact Hclock|].
  unfold timeToSleepInSeconds. split.
  - intros r Hr. rewrite Hr. simpl.
    destruct (Qeq_bool r 0) eqn:E; simpl.
    + apply Qeq_bool_iff in E.
      assert (Hz : Qmax 0 (0 * 1000) / 1000 == 0).
      { rewrite (Q.max_l 0 (0 * 1000)) by lra. reflexivity. }
      destruct (Qlt_le_dec (clock w) 60) as [Hearly|Hlate].
      * right. repeat split; assumption.
      * left. split; [|intro Hnz; contradiction].
        rewrite Hz.
        rewrite (Q.max_l 0 (r + 60 - clock w)) by lra. reflexivity.
    + left. split; [apply timer_elapsed_seconds|].
      intros _. reflexivity.
  - intros [Hr|Hr]; rewrite Hr; simpl;
      rewrite (Q.max_l 0 (0 * 1000)) by lra; reflexivity.
Qed.

(** ** C6, C7: the token lifecycle *)

Lemma authRequestAttempt_returns (c : AttemptContext) (w w' : W)
    (a : OAuth2TokenResponse) :
  authRequestAttempt c w = (Ok a, w') ->
  tokenRequests w' = S (tokenRequests w)
  /\ exists dt r,
      tokenServer w (tokenRequests w) = Responds dt r /\ body r = Some a.
Proof.
  unfold authRequestAttempt, bind, gets, fetch_token. cbv beta iota zeta.
  destruct (tokenServer w (tokenRequests w)) as [dt r|dt]; [|discriminate].
  destruct (response_ok r); [|discriminate].
  unfold json. destruct (body r) as [b|] eqn:Hb; [|discriminate].
  intro H. injection H as <- <-.
  split; [reflexivity|]. exists dt, r. split; [reflexivity|exact Hb].
Qed.

(** A token returned by [requestOAuth2Token] was built from a reply of
    the token endpoint requested during the call, and expires
    [expires_in] seconds after the moment it is returned. *)
Lemma requestOAuth2Token_returns (fuel : nat) (w w' : W) (t : OAuth2Token) :
  requestOAuth2Token fuel w = (Ok t, w') ->
  (tokenRequests w < tokenRequests w')%nat
  /\ exists n dt r b,
      tokenServer w n = Responds dt r
      /\ body r = Some b
      /\ token t = access_token b
      /\ expiresAt t = clock w' + expires_in b.
Proof.
  unfold requestOAuth2Token.
  unfold bind at 1. unfold log at 1, modify. cbv beta iota.
  unfold bind at 1. unfold gets at 1. cbv beta iota.
  unfold bind at 1.
  set (w0 := emit (EvLog LogFetchingToken) w).
  destruct (retry fuel authRequestAttempt authHandleError
                  (this_attemptOptions w0) w0)
    as [[resp| |] w2] eqn:E; try discriminate.
  unfold bind, getUnixTimeNow, gets, log, modify, ret. cbv beta iota.
  intro H. injection H as <- <-.
  pose proof (retry_returns (servedBy w0) (servedBy_stable w0) fuel
                authRequestAttempt authHandleError (this_attemptOptions w0)
                (fun a w1 =>
                   (tokenRequests w0 < tokenRequests w1)%nat
                   /\ exists n dt r,
                       tokenServer w0 n = Responds dt r /\ body r = Some a))
    as Hret.
  destruct (Hret (preserves_authRequestAttempt _ (servedBy_stable w0))
                 (preserves_authHandleError _ (servedBy_stable w0)))
    with (w := w0) (a := resp) (w' := w2)
    as (Hlt & n & dt & r & Hn & Hb).
  - intros c w1 a w1' (Hts & _ & Hle & _) Hatt.
    destruct (authRequestAttempt_returns _ _ _ _ Hatt)
      as (Hcount & dt & r & Hr & Hb).
    split; [lia|]. exists (tokenRequests w1), dt, r.
    rewrite <- Hts. split; assumption.
  - apply servedBy_refl.
  - exact E.
  - split; [exact Hlt|].
    exists n, dt, r, resp. repeat split; assumption.
Qed.

(** C6.  [authenticate]: when no token is held, or the held token has
    [expiresAt <= now], the call is a credential exchange whose result
    is stored and returned (a token it returns is held afterwards and
    was built from a reply to a request sent during the call); when the
    held token has [expiresAt > now] it is returned and the world is
    unchanged, so nothing was sent.  A token that expired one second ago
    takes the first path, one that expires in one second the second.
    With [maxAttempts] positive and at least that much fuel, the call
    returns or throws. *)
Theorem authenticate_reuses_only_unexpired_token :
  forall (fuel : nat) (w : W),
    ((this_token w = None
      \/ exists t, this_token w = Some t /\ expiresAt t <= clock w) ->
     authenticate fuel w = refresh fuel w
     /\ forall t' w',
         authenticate fuel w = (Ok t', w') ->
         this_token w' = Some t'
         /\ (tokenRequests w < tokenRequests w')%nat
         /\ exists n dt r b,
             tokenServer w n = Responds dt r
             /\ body r = Some b
             /\ token t' = access_token b
             /\ expiresAt t' = clock w' + expires_in b)
    /\ (forall t,
          this_token w = Some t -> clock w < expiresAt t ->
          authenticate fuel w = (Ok t, w))
    /\ (forall t,
          this_token w = Some t -> expiresAt t == clock w - 1 ->
          authenticate fuel w = refresh fuel w)
    /\ (forall t,
          this_token w = Some t -> expiresAt t == clock w + 1 ->
          authenticate fuel w = (Ok t, w))
    /\ (maxAttempts (this_attemptOptions w) <> 0%N ->
        (N.to_nat (maxAttempts (this_attemptOptions w)) <= fuel)%nat ->
        ends (authenticate fuel w)).
Proof.
  intros fuel w.
  assert (Hexpired : forall t,
             this_token w = Some t -> expiresAt t <= clock w ->
             authenticate fuel w = refresh fuel w).
  { intros t Ht Hle. unfold authenticate, bind at 1, gets at 1.
    rewrite Ht. unfold bind at 1, isValidToken, bind at 1, getUnixTimeNow.
    unfold gets, ret. cbv beta iota.
    apply Qle_bool_iff in Hle. unfold Qgt_bool. rewrite Hle.
    reflexivity. }
  assert (Hvalid : forall t,
             this_token w = Some t -> clock w < expiresAt t ->
             authenticate fuel w = (Ok t, w)).
  { intros t Ht Hlt. unfold authenticate, bind at 1, gets at 1.
    rewrite Ht. unfold bind at 1, isValidToken, bind at 1, getUnixTimeNow.
    unfold gets, ret. cbv beta iota.
    unfold Qgt_bool.
    destruct (Qle_bool (expiresAt t) (clock w)) eqn:E.
    - apply Qle_bool_iff in E. lra.
    - reflexivity. }
  assert (Hfresh : (this_token w = None
                    \/ exists t, this_token w = Some t
                                 /\ expiresAt t <= clock w) ->
                   authenticate fuel w = refresh fuel w).
  { intros [Hnone|(t & Ht & Hle)].
    - unfold authenticate, bind at 1, gets at 1. rewrite Hnone.
      reflexivity.
    - exact (Hexpired t Ht Hle). }
  split; [|split; [exact Hvalid|split; [|split]]].
  4: { intros Hmax Hfuel. apply authenticate_ends; assumption. }
  - intro Hcase. split; [exact (Hfresh Hcase)|].
    intros t' w'. rewrite (Hfresh Hcase).
    unfold refresh, bind at 1.
    destruct (requestOAuth2Token fuel w) as [[t1| |] w1] eqn:E;
      try discriminate.
    unfold bind, modify, ret. cbv beta iota.
    intro H. injection H as <- <-.
    destruct (requestOAuth2Token_returns _ _ _ _ E)
      as (Hlt & n & dt & r & b & Hn & Hb & Htok & Hexp).
    split; [reflexivity|]. split; [exact Hlt|].
    exists n, dt, r, b. repeat split; assumption.
  - intros t Ht Heq. apply (Hexpired t Ht). lra.
  - intros t Ht Heq. apply (Hvalid t Ht). lra.
Qed.

(** C7.  If every token the endpoint grants has a positive
    [expires_in], a token returned by [authenticate] expires strictly
    after the moment it is returned. *)
Theorem authenticate_returns_unexpired_token :
  forall (fuel : nat) (w w' : W) (t : OAuth2Token),
    (forall n dt r b,
        tokenServer w n = Responds dt r -> body r = Some b ->
        0 < expires_in b) ->
    authenticate fuel w = (Ok t, w') ->
    clock w' < expiresAt t.
Proof.
  intros fuel w w' t Hpos.
  assert (Hrefresh : refresh fuel w = (Ok t, w') -> clock w' < expiresAt t).
  { unfold refresh, bind at 1.
    destruct (requestOAuth2Token fuel w) as [[t1| |] w1] eqn:E;
      try discriminate.
    unfold bind, modify, ret. cbv beta iota.
    intro H. injection H as <- <-.
    destruct (requestOAuth2Token_returns _ _ _ _ E)
      as (_ & n & dt & r & b & Hn & Hb & _ & Hexp).
    simpl. rewrite Hexp. pose proof (Hpos n dt r b Hn Hb). lra. }
  unfold authenticate, bind at 1, gets at 1. cbv beta iota.
  destruct (this_token w) as [t0|] eqn:Ht; [|exact Hrefresh].
  unfold bind at 1, isValidToken, bind at 1, getUnixTimeNow.
  unfold gets, ret. cbv beta iota.
  unfold Qgt_bool.
  destruct (Qle_bool (expiresAt t0) (clock w)) eqn:E; simpl.
  - exact Hrefresh.
  - intro H. injection H as <- <-.
    destruct (Qlt_le_dec (clock w) (expiresAt t0)) as [Hlt|Hle];
      [exact Hlt|].
    apply Qle_bool_iff in Hle. congruence.
Qed.

(** ** C4, C5, C10: the pagination loop *)

Lemma sameApiServer_stable (w0 : W) : Stable (sameApiServer w0).
Proof. unfold sameApiServer. split; intros; simpl; assumption. Qed.

Lemma requestAttempt_returns (u : Url) (c : AttemptContext) (w w' : W)
    (a : ResourcesResponse Resource) :
  requestAttempt u c w = (Ok a, w') ->
  exists dt r,
    apiServer w (apiRequests w) = Responds dt r /\ body r = Some a.
Proof.
  unfold requestAttempt, bind at 1, gets. cbv beta iota.
  destruct (this_token w) as [t|]; [|discriminate].
  unfold bind, fetch_api, modify. cbv beta iota zeta.
  destruct (apiServer w (apiRequests w)) as [dt r|dt]; [|discriminate].
  destruct (response_ok r).
  - unfold json. destruct (body r) as [b|] eqn:Hb; [|discriminate].
    intro H. injection H as <- _.
    exists dt, r. split; [reflexivity|exact Hb].
  - destruct (status r =? 401)%Z; [discriminate|].
    destruct (status r =? 403)%Z; discriminate.
Qed.

(** A page returned by the retry engine is the body of a reply of the
    server. *)
Lemma executeAPIRequestWithRetries_returns (rfuel : nat) (u : Url)
    (w w' : W) (resp : ResourcesResponse Resource) :
  executeAPIRequestWithRetries rfuel u w = (Ok resp, w') ->
  exists n dt r, apiServer w n = Responds dt r /\ body r = Some resp.
Proof.
  unfold executeAPIRequestWithRetries, bind at 1.
  destruct (authenticate rfuel w) as [[t| |] w1] eqn:Eauth;
    try discriminate.
  unfold bind, gets. cbv beta iota.
  intro H.
  pose proof (preserves_authenticate _ (sameApiServer_stable w) rfuel
                w _ w1 eq_refl Eauth) as HI1.
  apply (retry_returns (sameApiServer w) (sameApiServer_stable w) rfuel
           (requestAttempt u) (requestHandleError rfuel)
           (this_attemptOptions w1)
           (fun a _ => exists n dt r,
                apiServer w n = Responds dt r /\ body r = Some a))
    with (w := w1) (w' := w').
  - intro c. apply preserves_requestAttempt, sameApiServer_stable.
  - intros e c. apply preserves_requestHandleError, sameApiServer_stable.
  - intros c w2 a w2' Hsame Hatt.
    destruct (requestAttempt_returns _ _ _ _ _ Hatt) as (dt & r & Hr & Hb).
    exists (apiRequests w2), dt, r. rewrite <- Hsame.
    split; assumption.
  - exact HI1.
  - exact H.
Qed.

(** What an iteration that returns has done. *)
Lemma paginateIteration_inv (rfuel : nat)
    (callback : list Resource -> M Resource unit)
    (resourcePath : string) (query : option QueryParams)
    (seen : Z) (params : option PaginationMeta)
    (w w' : W) (st : PaginationLoop) :
  paginateIteration rfuel callback resourcePath query seen params w
  = (Ok st, w') ->
  let url := pageUrl resourcePath query params in
  exists resp w1 w2,
    executeAPIRequestWithRetries rfuel url
      (emit (EvLog (LogRequestUrl url params)) w) = (Ok resp, w1)
    /\ (logResponseErrors resp ;; callback (resources resp)) w1
       = (Ok tt, w2)
    /\ loop_seen st
       = (seen + Z.of_nat (List.length (resources resp)))%Z
    /\ loop_paginationParams st = Some (meta_pagination resp)
    /\ loop_finished st
       = ((loop_seen st =? 0)%Z
          || seen_ge_total (loop_seen st) (total (meta_pagination resp)))
    /\ w' = emit (EvLog (LogPaginationState
                           (loop_seen st) (total (meta_pagination resp))
                           (loop_finished st)))
                 (emit (EvLog (LogPaginationResponse
                                 (meta_pagination resp)
                                 (Z.of_nat (List.length (resources resp)))))
                       w2).
Proof.
  intros H url. unfold paginateIteration in H. fold url in H.
  unfold bind at 1, log at 1, modify in H. cbv beta iota in H.
  unfold bind at 1 in H.
  destruct (executeAPIRequestWithRetries rfuel url
              (emit (EvLog (LogRequestUrl url params)) w))
    as [[resp| |] w1] eqn:E; try discriminate.
  exists resp, w1.
  unfold bind at 1 in H. unfold bind at 1.
  destruct (logResponseErrors resp w1) as [[[]| |] w1'] eqn:E1;
    try discriminate.
  unfold bind at 1 in H.
  destruct (callback (resources resp) w1') as [[[]| |] w2] eqn:E2;
    try discriminate.
  exists w2.
  unfold bind, log, modify, ret in H. cbv beta iota in H.
  injection H as <- <-. simpl.
  repeat split; reflexivity.
Qed.

Lemma paginateLoop_S (fuel rfuel : nat)
    (callback : list Resource -> M Resource unit)
    (resourcePath : string) (query : option QueryParams)
    (seen : Z) (params : option PaginationMeta) :
  paginateLoop (S fuel) rfuel callback resourcePath query seen params
  = (st <- paginateIteration rfuel callback resourcePath query
                             seen params ;;
     if loop_finished st then ret tt
     else paginateLoop fuel rfuel callback resourcePath query
                       (loop_seen st) (loop_paginationParams st)).
Proof. reflexivity. Qed.

(** After an iteration that returned, the loop either stops or goes on
    from the state the iteration left. *)
Lemma paginateLoop_after_iteration (fuel rfuel : nat)
    (callback : list Resource -> M Resource unit)
    (resourcePath : string) (query : option QueryParams)
    (seen : Z) (params : option PaginationMeta)
    (w w' : W) (st : PaginationLoop) :
  paginateIteration rfuel callback resourcePath query seen params w
  = (Ok st, w') ->
  paginateLoop (S fuel) rfuel callback resourcePath query seen params w
  = if loop_finished st then (Ok tt, w')
    else paginateLoop fuel rfuel callback resourcePath query
                      (loop_seen st) (loop_paginationParams st) w'.
Proof.
  intro H. rewrite paginateLoop_S. unfold bind. rewrite H.
  destruct (loop_finished st); reflexivity.
Qed.

(** The termination test, read as a proposition. *)
Lemma finished_iff (seen : Z) (tot : option Z) :
  ((seen =? 0)%Z || seen_ge_total seen tot) = true
  <-> seen = 0%Z \/ exists t, tot = Some t /\ (t <= seen)%Z.
Proof.
  rewrite orb_true_iff, Z.eqb_eq. unfold seen_ge_total.
  destruct tot as [t|].
  - rewrite Z.leb_le. split.
    + intros [H|H]; [left; exact H | right; exists t; auto].
    + intros [H|(t' & Ht & Hle)]; [left; exact H|].
      injection Ht as <-. right. exact Hle.
  - split.
    + intros [H|H]; [left; exact H | discriminate].
    + intros [H|(t' & Ht & _)]; [left; exact H | discriminate].
Qed.

Lemma paginateIteration_seen (rfuel : nat)
    (callback : list Resource -> M Resource unit)
    (resourcePath : string) (query : option QueryParams)
    (seen : Z) (params : option PaginationMeta)
    (w w' : W) (st : PaginationLoop) :
  paginateIteration rfuel callback resourcePath query seen params w
  = (Ok st, w') ->
  (seen <= loop_seen st)%Z.
Proof.
  intro H.
  destruct (paginateIteration_inv _ _ _ _ _ _ _ _ _ H)
    as (resp & w1 & w2 & _ & _ & Hseen & _).
  rewrite Hseen. lia.
Qed.

Lemma LoopReaches_seen_pos (rfuel : nat)
    (callback : list Resource -> M Resource unit)
    (resourcePath : string) (query : option QueryParams)
    (seen : Z) (params : option PaginationMeta) (w : W)
    (seen' : Z) (params' : option PaginationMeta) (w' : W) :
  LoopReaches rfuel callback resourcePath query seen params w
              seen' params' w' ->
  (0 < seen)%Z -> (0 < seen')%Z.
Proof.
  induction 1 as [|seen params w st w1 seen' params' w' Hit Hfin _ IH];
    intro Hpos.
  - exact Hpos.
  - apply IH. pose proof (paginateIteration_seen _ _ _ _ _ _ _ _ _ Hit).
    lia.
Qed.

(** A run that returns ended in an iteration, reached from the head of
    the loop, that set [finished]. *)
Lemma paginateLoop_returns (rfuel : nat)
    (callback : list Resource -> M Resource unit)
    (resourcePath : string) (query : option QueryParams) :
  forall (fuel : nat) (seen : Z) (params : option PaginationMeta)
         (w w' : W),
    paginateLoop fuel rfuel callback resourcePath query seen params w
    = (Ok tt, w') ->
    exists seen' params' wk st,
      LoopReaches rfuel callback resourcePath query seen params w
                  seen' params' wk
      /\ paginateIteration rfuel callback resourcePath query
                           seen' params' wk = (Ok st, w')
      /\ loop_finished st = true.
Proof.
  induction fuel as [|fuel IH]; intros seen params w w' H.
  - discriminate.
  - rewrite paginateLoop_S in H. unfold bind in H.
    destruct (paginateIteration rfuel callback resourcePath query
                                seen params w)
      as [[st| |] w1] eqn:Hit; try discriminate.
    destruct (loop_finished st) eqn:Hfin.
    + injection H as <-.
      exists seen, params, w, st.
      split; [apply reaches_here|]. split; assumption.
    + destruct (IH _ _ _ _ H) as (s' & p' & wk & st' & Hr & Hit' & Hfin').
      exists s', p', wk, st'. split; [|split; assumption].
      eapply reaches_next; eassumption.
Qed.

(** In a run whose first page is not empty, [seen] is positive after
    every iteration. *)
Lemma seen_pos_after_first_page (rfuel : nat)
    (callback : list Resource -> M Resource unit)
    (resourcePath : string) (query : option QueryParams)
    (w w0 : W) (st0 : PaginationLoop) :
  paginateIteration rfuel callback resourcePath query 0%Z None w
  = (Ok st0, w0) ->
  (0 < loop_seen st0)%Z ->
  forall seen params wk st w',
    LoopReaches rfuel callback resourcePath query 0%Z None w
                seen params wk ->
    paginateIteration rfuel callback resourcePath query seen params wk
    = (Ok st, w') ->
    (0 < loop_seen st)%Z.
Proof.
  intros H0 Hpos seen params wk st w' Hreach Hit.
  inversion Hreach as [|s p w_ st1 w1 s' p' w'' Hit1 Hfin1 Hrest]; subst.
  - rewrite H0 in Hit. injection Hit as <- _. exact Hpos.
  - rewrite H0 in Hit1. injection Hit1 as <- <-.
    pose proof (LoopReaches_seen_pos _ _ _ _ _ _ _ _ _ _ Hrest Hpos).
    pose proof (paginateIteration_seen _ _ _ _ _ _ _ _ _ Hit). lia.
Qed.

(** C4 (amended).  Each iteration that returns adds the number of items
    of its page to [seen]: [seen] never decreases, it strictly increases
    when the page is not empty, and it is unchanged when the page is
    empty, in which case the loop stops exactly when [seen == 0] or
    [seen >= total].  The loop then stops or goes on from the new
    [seen]. *)
Theorem seen_grows_by_page_length :
  forall (fuel rfuel : nat) (callback : list Resource -> M Resource unit)
         (resourcePath : string) (query : option QueryParams)
         (seen : Z) (params : option PaginationMeta)
         (w w' : W) (st : PaginationLoop),
    paginateIteration rfuel callback resourcePath query seen params w
    = (Ok st, w') ->
    exists resp w1,
      executeAPIRequestWithRetries rfuel
        (pageUrl resourcePath query params)
        (emit (EvLog (LogRequestUrl (pageUrl resourcePath query params)
                                    params)) w)
      = (Ok resp, w1)
      /\ loop_seen st = (seen + Z.of_nat (List.length (resources resp)))%Z
      /\ (seen <= loop_seen st)%Z
      /\ (resources resp <> [] -> (seen < loop_seen st)%Z)
      /\ (resources resp = [] ->
          loop_seen st = seen
          /\ (loop_finished st = true
              <-> seen = 0%Z
                  \/ exists t, total (meta_pagination resp) = Some t
                               /\ (t <= seen)%Z))
      /\ paginateLoop (S fuel) rfuel callback resourcePath query
                      seen params w
         = if loop_finished st then (Ok tt, w')
           else paginateLoop fuel rfuel callback resourcePath query
                             (loop_seen st) (loop_paginationParams st) w'.
Proof.
  intros fuel rfuel callback resourcePath query seen params w w' st H.
  destruct (paginateIteration_inv _ _ _ _ _ _ _ _ _ H)
    as (resp & w1 & w2 & Hexec & _ & Hseen & _ & Hfin & _).
  exists resp, w1. split; [exact Hexec|]. split; [exact Hseen|].
  split; [lia|]. split; [|split].
  - intro Hne. destruct (resources resp); [contradiction|].
    rewrite Hseen. simpl List.length. lia.
  - intro Hnil.
    assert (Hsame : loop_seen st = seen).
    { rewrite Hseen, Hnil. simpl. lia. }
    split; [exact Hsame|].
    rewrite Hfin, Hsame. apply finished_iff.
  - apply paginateLoop_after_iteration. exact H.
Qed.

(** C5.  If the first request of a run returns a page without items
    (and the page handler returns), the run returns after that
    iteration whatever total the page reports: the world it ends in is
    the one the handler left, plus the two records logged after the
    page.  In every iteration that returns, [finished] is set exactly
    when [seen == 0] or [seen >= total] afterwards, and the loop stops
    exactly when [finished] is set. *)
Theorem empty_first_page_ends_run :
  forall (rfuel : nat) (callback : list Resource -> M Resource unit)
         (resourcePath : string) (query : option QueryParams),
    (forall (fuel : nat) (w w1 w2 : W) (resp : ResourcesResponse Resource),
        executeAPIRequestWithRetries rfuel
          (pageUrl resourcePath query None)
          (emit (EvLog (LogRequestUrl (pageUrl resourcePath query None)
                                      None)) w)
        = (Ok resp, w1) ->
        resources resp = [] ->
        (logResponseErrors resp ;; callback []) w1 = (Ok tt, w2) ->
        exists w',
          paginateResources (S fuel) rfuel callback resourcePath query w
          = (Ok tt, w')
          /\ apiRequests w' = apiRequests w2
          /\ tokenRequests w' = tokenRequests w2
          /\ trace w'
             = trace w2
               ++ [EvLog (LogPaginationResponse (meta_pagination resp) 0);
                   EvLog (LogPaginationState
                            0 (total (meta_pagination resp)) true)])
    /\ (forall (fuel : nat) (seen : Z) (params : option PaginationMeta)
               (w w' : W) (st : PaginationLoop),
           paginateIteration rfuel callback resourcePath query
                             seen params w = (Ok st, w') ->
           exists meta,
             loop_paginationParams st = Some meta
             /\ (loop_finished st = true
                 <-> loop_seen st = 0%Z
                     \/ exists t, total meta = Some t
                                  /\ (t <= loop_seen st)%Z)
             /\ (loop_finished st = true ->
                 paginateLoop (S fuel) rfuel callback resourcePath query
                              seen params w = (Ok tt, w'))
             /\ (loop_finished st = false ->
                 paginateLoop (S fuel) rfuel callback resourcePath query
                              seen params w
                 = paginateLoop fuel rfuel callback resourcePath query
                                (loop_seen st) (loop_paginationParams st)
                                w')).
Proof.
  intros rfuel callback resourcePath query. split.
  - intros fuel w w1 w2 resp Hexec Hnil Hcb.
    unfold paginateResources. rewrite paginateLoop_S.
    unfold bind at 1, paginateIteration.
    unfold bind at 1, log at 1, modify. cbv beta iota.
    unfold bind at 1. rewrite Hexec.
    unfold bind at 1 in Hcb. unfold bind at 1.
    destruct (logResponseErrors resp w1) as [[[]| |] w1'];
      try discriminate.
    unfold bind at 1. rewrite Hnil. rewrite Hcb.
    unfold bind, log, modify, ret. simpl.
    eexists. split; [reflexivity|]. simpl.
    rewrite <- app_assoc. repeat split.
  - intros fuel seen params w w' st H.
    destruct (paginateIteration_inv _ _ _ _ _ _ _ _ _ H)
      as (resp & w1 & w2 & _ & _ & _ & Hparams & Hfin & _).
    exists (meta_pagination resp). split; [exact Hparams|].
    split; [rewrite Hfin; apply finished_iff|].
    pose proof (paginateLoop_after_iteration fuel _ _ _ _ _ _ _ _ _ H)
      as Hloop.
    split; intro Hf; rewrite Hf in Hloop; exact Hloop.
Qed.

(** An iteration against a server that never reports a total leaves
    [finished] unset once [seen] is positive. *)
Lemma paginateIteration_without_total (rfuel : nat)
    (callback : list Resource -> M Resource unit)
    (resourcePath : string) (query : option QueryParams)
    (w0 : W) :
  (forall n dt r b,
      apiServer w0 n = Responds dt r -> body r = Some b ->
      total (meta_pagination b) = None) ->
  (forall l w1 o w2, callback l w1 = (o, w2) ->
                     apiServer w2 = apiServer w1) ->
  forall seen params w st w',
    sameApiServer w0 w ->
    paginateIteration rfuel callback resourcePath query seen params w
    = (Ok st, w') ->
    sameApiServer w0 w'
    /\ ((0 < loop_seen st)%Z -> loop_finished st = false).
Proof.
  intros Htot Hcb seen params w st w' Hsame Hit.
  split.
  - apply (preserves_paginateIteration _ (sameApiServer_stable w0) rfuel
             callback resourcePath query seen params) with (1 := fun l =>
             fun w1 o w2 (HI : sameApiServer w0 w1) Hc =>
               eq_trans (Hcb l w1 o w2 Hc) HI)
      in Hit; assumption.
  - destruct (paginateIteration_inv _ _ _ _ _ _ _ _ _ Hit)
      as (resp & w1 & w2 & Hexec & _ & _ & _ & Hfin & _).
    destruct (executeAPIRequestWithRetries_returns _ _ _ _ _ Hexec)
      as (n & dt & r & Hn & Hb).
    simpl in Hn. unfold sameApiServer in Hsame. rewrite Hsame in Hn.
    rewrite (Htot n dt r resp Hn Hb) in Hfin.
    intro Hpos. rewrite Hfin. simpl. rewrite orb_false_r.
    apply Z.eqb_neq. lia.
Qed.

Lemma paginateLoop_without_total (rfuel : nat)
    (callback : list Resource -> M Resource unit)
    (resourcePath : string) (query : option QueryParams)
    (w0 : W) :
  (forall n dt r b,
      apiServer w0 n = Responds dt r -> body r = Some b ->
      total (meta_pagination b) = None) ->
  (forall l w1 o w2, callback l w1 = (o, w2) ->
                     apiServer w2 = apiServer w1) ->
  forall fuel seen params w,
    sameApiServer w0 w ->
    (0 < seen)%Z ->
    fst (paginateLoop fuel rfuel callback resourcePath query
                      seen params w) <> Ok tt.
Proof.
  intros Htot Hcb.
  induction fuel as [|fuel IH]; intros seen params w Hsame Hpos.
  - discriminate.
  - rewrite paginateLoop_S. unfold bind.
    destruct (paginateIteration rfuel callback resourcePath query
                                seen params w)
      as [[st| |] w1] eqn:Hit; try discriminate.
    destruct (paginateIteration_without_total _ _ _ _ _ Htot Hcb
                _ _ _ _ _ Hsame Hit) as (Hsame1 & Hnot).
    pose proof (paginateIteration_seen _ _ _ _ _ _ _ _ _ Hit) as Hle.
    rewrite Hnot by lia.
    apply IH; [exact Hsame1 | lia].
Qed.

(** C10 (amended).  In a run whose first page is not empty:
    (1) if the run returns, it does so after an iteration whose page
    reports a numeric total with [seen >= total];
    (2) an iteration whose page reports no total leaves [finished]
    unset, and the loop goes on to the next request;
    (3) if no page the server sends reports a total, the run never
    returns, whatever the fuel. *)
Theorem pagination_stops_only_on_reported_total :
  forall (rfuel : nat) (callback : list Resource -> M Resource unit)
         (resourcePath : string) (query : option QueryParams)
         (w w0 : W) (st0 : PaginationLoop),
    paginateIteration rfuel callback resourcePath query 0%Z None w
    = (Ok st0, w0) ->
    (0 < loop_seen st0)%Z ->
    (forall fuel w',
        paginateResources fuel rfuel callback resourcePath query w
        = (Ok tt, w') ->
        exists seen params wk st meta t,
          LoopReaches rfuel callback resourcePath query 0%Z None w
                      seen params wk
          /\ paginateIteration rfuel callback resourcePath query
                               seen params wk = (Ok st, w')
          /\ loop_finished st = true
          /\ loop_paginationParams st = Some meta
          /\ total meta = Some t
          /\ (t <= loop_seen st)%Z)
    /\ (forall seen params wk st w' meta,
           LoopReaches rfuel callback resourcePath query 0%Z None w
                       seen params wk ->
           paginateIteration rfuel callback resourcePath query
                             seen params wk = (Ok st, w') ->
           loop_paginationParams st = Some meta ->
           total meta = None ->
           loop_finished st = false
           /\ forall fuel,
               paginateLoop (S fuel) rfuel callback resourcePath query
                            seen params wk
               = paginateLoop fuel rfuel callback resourcePath query
                              (loop_seen st) (loop_paginationParams st) w')
    /\ ((forall n dt r b,
            apiServer w n = Responds dt r -> body r = Some b ->
            total (meta_pagination b) = None) ->
        (forall l w1 o w2, callback l w1 = (o, w2) ->
                           apiServer w2 = apiServer w1) ->
        forall fuel,
          fst (paginateResources fuel rfuel callback resourcePath query w)
          <> Ok tt).
Proof.
  intros rfuel callback resourcePath query w w0 st0 H0 Hpos0.
  pose proof (seen_pos_after_first_page _ _ _ _ _ _ _ H0 Hpos0) as Hpos.
  split; [|split].
  - intros fuel w' Hrun.
    destruct (paginateLoop_returns _ _ _ _ _ _ _ _ _ Hrun)
      as (seen & params & wk & st & Hreach & Hit & Hfin).
    pose proof (Hpos _ _ _ _ _ Hreach Hit) as Hst.
    destruct (paginateIteration_inv _ _ _ _ _ _ _ _ _ Hit)
      as (resp & w1 & w2 & _ & _ & _ & Hparams & Hfin' & _).
    rewrite Hfin in Hfin'. symmetry in Hfin'.
    apply finished_iff in Hfin'.
    destruct Hfin' as [Hz|(t & Ht & Hle)]; [lia|].
    exists seen, params, wk, st, (meta_pagination resp), t.
    repeat split; assumption.
  - intros seen params wk st w' meta Hreach Hit Hparams Hnone.
    pose proof (Hpos _ _ _ _ _ Hreach Hit) as Hst.
    destruct (paginateIteration_inv _ _ _ _ _ _ _ _ _ Hit)
      as (resp & w1 & w2 & _ & _ & _ & Hparams' & Hfin & _).
    rewrite Hparams' in Hparams. injection Hparams as Hmeta.
    rewrite Hmeta, Hnone in Hfin. simpl in Hfin. rewrite orb_false_r in Hfin.
    assert (Hf : loop_finished st = false).
    { rewrite Hfin. apply Z.eqb_neq. lia. }
    split; [exact Hf|].
    intro fuel.
    rewrite (paginateLoop_after_iteration fuel _ _ _ _ _ _ _ _ _ Hit).
    rewrite Hf. reflexivity.
  - intros Htot Hcb fuel. unfold paginateResources.
    destruct fuel as [|fuel]; [discriminate|].
    rewrite (paginateLoop_after_iteration fuel _ _ _ _ _ _ _ _ _ H0).
    destruct (paginateIteration_without_total _ _ _ _ _ Htot Hcb
                _ _ _ _ _ (eq_refl : sameApiServer w w) H0)
      as (Hsame & Hnot).
    rewrite (Hnot Hpos0).
    apply (paginateLoop_without_total _ _ _ _ _ Htot Hcb);
      assumption.
Qed.

End Properties.

(** * The statements on concrete runs *)

Local Open Scope string_scope.

(** ** C1: repeated 401 *)

(** C1 (what the code does).  A client holding a token that has not
    expired, whose every request the server answers with 401, sends three
    requests, all bearing the same token, and requests no token: the 401
    of the first attempt exchanges nothing, the 401 of the second attempt
    is followed by a third attempt, and only the 401 of the third attempt
    ends the retry with an [IntegrationProviderAuthenticationError]. *)
Theorem repeated_401_retried_twice_with_unchanged_token :
  let r := executeAPIRequestWithRetries 5 Scenario.devicesUrl
                                        Scenario.rejected in
  fst r = Throw (IntegrationProviderAuthenticationError
                   {| err_status := 401; err_statusText := "";
                      err_endpoint := ResourceEndpoint Scenario.devicesUrl |})
  /\ bearers (trace (snd r)) = ["A"; "A"; "A"]
  /\ apiRequests (snd r) = 3%nat
  /\ tokenRequests (snd r) = 0%nat
  /\ this_token (snd r) = Some Scenario.tokenA
  /\ sleeps (trace (snd r)) = [Num 30000; Num 60000].
Proof. vm_compute. repeat split. Qed.

(** ** C4: a page that adds nothing *)

(** After a first page of one item out of five, an empty page leaves
    [seen] at 1 and [finished] unset: [seen] did not increase and the loop
    did not stop, and the same happens on the next page.  So it is not the
    case that every iteration increases [seen] or sets [finished]. *)
Lemma empty_page_neither_grows_seen_nor_stops :
  (let r := paginateResources 3 5 Scenario.ignore "/devices" None
                              Scenario.stalls in
   fst r = OutOfFuel
   /\ apiRequests (snd r) = 3%nat
   /\ paginationStates (trace (snd r))
      = [(1%Z, Some 5%Z, false); (1%Z, Some 5%Z, false);
         (1%Z, Some 5%Z, false)])
  /\ ~ (forall (rfuel : nat) (callback : list string -> M string unit)
               (resourcePath : string) (query : option QueryParams)
               (seen : Z) (params : option PaginationMeta)
               (w w' : World string) (st : PaginationLoop),
          paginateIteration rfuel callback resourcePath query seen params w
          = (Ok st, w') ->
          (seen < loop_seen st)%Z \/ loop_finished st = true).
Proof.
  split; [vm_compute; repeat split|].
  intro H.
  set (meta := {| limit := None; offset := None; after := None;
                  total := Some 5%Z |}).
  set (w1 := snd (paginateIteration 5 Scenario.ignore "/devices" None
                                    0%Z None Scenario.stalls)).
  set (second := paginateIteration 5 Scenario.ignore "/devices" None
                                   1%Z (Some meta) w1).
  destruct (H 5%nat Scenario.ignore "/devices" None 1%Z (Some meta) w1
              (snd second)
              {| loop_seen := 1; loop_paginationParams := Some meta;
                 loop_finished := false |})
    as [Hlt|Hfin].
  - vm_compute. reflexivity.
  - simpl in Hlt. lia.
  - discriminate.
Qed.

(** ** C10: a total omitted once *)

(** A first page that reports no total does not keep the test false
    afterwards: the second page reports a total of 2 with [seen = 2] and
    the run returns after two requests.  So it is not the case that a run
    never returns once a non-empty page has come without a total. *)
Lemma total_omitted_once_still_terminates :
  (let r := paginateResources 5 5 Scenario.ignore "/devices" None
                              Scenario.totalOmittedOnce in
   fst r = Ok tt
   /\ apiRequests (snd r) = 2%nat
   /\ paginationStates (trace (snd r))
      = [(1%Z, None, false); (2%Z, Some 2%Z, true)])
  /\ ~ (forall (fuel rfuel : nat) (callback : list string -> M string unit)
               (resourcePath : string) (query : option QueryParams)
               (w w0 : World string) (st0 : PaginationLoop)
               (meta : PaginationMeta),
          paginateIteration rfuel callback resourcePath query 0%Z None w
          = (Ok st0, w0) ->
          (0 < loop_seen st0)%Z ->
          loop_paginationParams st0 = Some meta ->
          total meta = None ->
          fst (paginateResources fuel rfuel callback resourcePath query w)
          <> Ok tt).
Proof.
  split; [vm_compute; repeat split|].
  intro H.
  set (meta := {| limit := None; offset := None; after := None;
                  total := None |}).
  set (first := paginateIteration 5 Scenario.ignore "/devices" None
                                  0%Z None Scenario.totalOmittedOnce).
  apply (H 5%nat 5%nat Scenario.ignore "/devices" None
           Scenario.totalOmittedOnce (snd first)
           {| loop_seen := 1; loop_paginationParams := Some meta;
              loop_finished := false |} meta).
  - vm_compute. reflexivity.
  - simpl. lia.
  - reflexivity.
  - reflexivity.
  - vm_compute. reflexivity.
Qed.

(** ** The general statements at concrete inputs *)

(** C2 at [X-RateLimit-Remaining: 0]. *)
Lemma handle429Error_no_cooldown_at_zero_witness :
  exists w',
    handle429Error (Scenario.rateLimited Scenario.exhausted) = (Ok tt, w')
    /\ sleeps (trace w')
       = (sleeps (trace (Scenario.rateLimited Scenario.exhausted))
          ++ [js_mul (timeToSleepInSeconds
                        Scenario.exhausted
                        (clock (Scenario.rateLimited Scenario.exhausted)))
                     (Num 1000)])%list.
Proof.
  apply (handle429Error_no_cooldown_at_zero
           (Scenario.rateLimited Scenario.exhausted) Scenario.exhausted 0).
  - reflexivity.
  - reflexivity.
  - reflexivity.
  - vm_compute. discriminate.
Defined.

(** C3 with a retry-after 40 seconds ahead and 10 requests remaining:
    a wait of 100 seconds, then the cooldown of one second. *)
Lemma handle429Error_initial_sleep_witness :
  exists (w' : World string),
    handle429Error (Scenario.rateLimited Scenario.retryLater) = (Ok tt, w')
    /\ sleeps (trace w') = [Num ((1040 + 60 - 1000) * 1000); Num 1000]
    /\ clock w' == 1000 + 100 + 1.
Proof.
  destruct (handle429Error_initial_sleep
              (Scenario.rateLimited Scenario.retryLater)
              Scenario.retryLater eq_refl)
    as (w' & ms & rest & seconds & Hrun & Hsl & Hrest & Hclock & Hnum & _).
  destruct (Hnum 1040 eq_refl) as [[Hsec Hms]|[Hz _]];
    [|vm_compute in Hz; discriminate].
  exists w'. split; [exact Hrun|]. split.
  - rewrite Hsl, Hrest, Hms.
    + reflexivity.
    + intro Hz. vm_compute in Hz. discriminate.
  - rewrite Hclock, Hsec. vm_compute. reflexivity.
Defined.

(** C6 without a token, with a token expired one second ago and with a
    token valid for one more second. *)
Lemma authenticate_reuses_only_unexpired_token_witness :
  authenticate 5 Scenario.tokenless = refresh 5 Scenario.tokenless
  /\ authenticate 5 Scenario.expiredBy1 = refresh 5 Scenario.expiredBy1
  /\ this_token (snd (authenticate 5 Scenario.expiredBy1))
     = Some {| token := "B"; expiresAt := 1000 + 1799 |}
  /\ (tokenRequests Scenario.expiredBy1
      < tokenRequests (snd (authenticate 5 Scenario.expiredBy1)))%nat
  /\ authenticate 5 Scenario.validFor1
     = (Ok {| token := "A"; expiresAt := 1001 |}, Scenario.validFor1)
  /\ ends (authenticate 5 Scenario.tokenless).
Proof.
  split; [|split; [|split; [|split; [|split]]]].
  - destruct (authenticate_reuses_only_unexpired_token 5 Scenario.tokenless)
      as (Hfresh & _).
    apply Hfresh. left. reflexivity.
  - destruct (authenticate_reuses_only_unexpired_token 5 Scenario.expiredBy1)
      as (_ & _ & Hpast & _).
    apply (Hpast {| token := "A"; expiresAt := 999 |}).
    + reflexivity.
    + vm_compute. reflexivity.
  - destruct (authenticate_reuses_only_unexpired_token 5 Scenario.expiredBy1)
      as (Hfresh & _).
    destruct Hfresh as (_ & Hret).
    + right. exists {| token := "A"; expiresAt := 999 |}.
      split; [reflexivity | vm_compute; discriminate].
    + apply (Hret {| token := "B"; expiresAt := 1000 + 1799 |}).
      vm_compute. reflexivity.
  - destruct (authenticate_reuses_only_unexpired_token 5 Scenario.expiredBy1)
      as (Hfresh & _).
    destruct Hfresh as (_ & Hret).
    + right. exists {| token := "A"; expiresAt := 999 |}.
      split; [reflexivity | vm_compute; discriminate].
    + apply (Hret {| token := "B"; expiresAt := 1000 + 1799 |}).
      vm_compute. reflexivity.
  - destruct (authenticate_reuses_only_unexpired_token 5 Scenario.validFor1)
      as (_ & _ & _ & Hfuture & _).
    apply (Hfuture {| token := "A"; expiresAt := 1001 |}).
    + reflexivity.
    + vm_compute. reflexivity.
  - destruct (authenticate_reuses_only_unexpired_token 5 Scenario.tokenless)
      as (_ & _ & _ & _ & Hends).
    apply Hends.
    + vm_compute. discriminate.
    + vm_compute. lia.
Defined.

(** C7 on a first exchange granting 1799 seconds at time 1000. *)
Lemma authenticate_returns_unexpired_token_witness :
  clock (snd (authenticate 5 Scenario.tokenless))
  < expiresAt {| token := "B"; expiresAt := 1000 + 1799 |}.
Proof.
  apply (authenticate_returns_unexpired_token
           5 Scenario.tokenless (snd (authenticate 5 Scenario.tokenless))).
  - intros n dt r b Hr Hb. injection Hr as _ <-. injection Hb as <-.
    vm_compute. reflexivity.
  - vm_compute. reflexivity.
Defined.

(** C9 on a first attempt answered with 403. *)
Lemma resource_403_aborts_immediately_witness :
  exists w',
    makeAttempt 5 (requestAttempt Scenario.devicesUrl)
                (requestHandleError 5) DEFAULT_ATTEMPT_OPTIONS
                (initialContext DEFAULT_ATTEMPT_OPTIONS) Scenario.forbidden
    = (Throw (IntegrationProviderAuthorizationError
                {| err_status := 403; err_statusText := "";
                   err_endpoint := ResourceEndpoint Scenario.devicesUrl |}),
       w')
    /\ apiRequests w' = 1%nat
    /\ tokenRequests w' = 0%nat
    /\ sleeps (trace w') = []
    /\ this_token w' = Some Scenario.tokenA
    /\ clock w' = 1000 + 0.
Proof.
  apply (resource_403_aborts_immediately
           4 5 Scenario.devicesUrl DEFAULT_ATTEMPT_OPTIONS
           (initialContext DEFAULT_ATTEMPT_OPTIONS) Scenario.forbidden
           Scenario.tokenA 0
           {| status := 403; statusText := "";
              headers := Scenario.noHeaders; body := None |}).
  - reflexivity.
  - reflexivity.
  - reflexivity.
  - reflexivity.
  - right. vm_compute. reflexivity.
Defined.

(** C8 on token endpoints answering 400, 403 and 500. *)
Lemma token_exchange_failure_classification_witness :
  (exists w',
      makeAttempt 5 authRequestAttempt authHandleError
                  DEFAULT_ATTEMPT_OPTIONS
                  (initialContext DEFAULT_ATTEMPT_OPTIONS)
                  (Scenario.tokenEndpointAnswers 400)
      = (Throw (IntegrationProviderAPIError
                  {| err_status := 400; err_statusText := "";
                     err_endpoint := TokenEndpoint |}), w')
      /\ tokenRequests w' = 1%nat
      /\ sleeps (trace w') = []
      /\ clock w' = 1000 + 0)
  /\ (exists w',
      makeAttempt 5 authRequestAttempt authHandleError
                  DEFAULT_ATTEMPT_OPTIONS
                  (initialContext DEFAULT_ATTEMPT_OPTIONS)
                  (Scenario.tokenEndpointAnswers 403)
      = (Throw (IntegrationProviderAuthenticationError
                  {| err_status := 403; err_statusText := "";
                     err_endpoint := TokenEndpoint |}), w')
      /\ tokenRequests w' = 1%nat
      /\ sleeps (trace w') = []
      /\ clock w' = 1000 + 0)
  /\ (let context1 := consumeAttempt (initialContext DEFAULT_ATTEMPT_OPTIONS) in
      let err := IntegrationProviderAPIError
                   {| err_status := 500; err_statusText := "";
                      err_endpoint := TokenEndpoint |} in
      let w1 := snd (authRequestAttempt context1
                       (Scenario.tokenEndpointAnswers 500)) in
      makeAttempt 5 authRequestAttempt authHandleError
                  DEFAULT_ATTEMPT_OPTIONS
                  (initialContext DEFAULT_ATTEMPT_OPTIONS)
                  (Scenario.tokenEndpointAnswers 500)
      = (if (attemptsRemaining context1 =? 0)%Z
         then (Throw err, emit (EvLog (LogAuthRecoverable context1 err)) w1)
         else (awaitDelay (defaultCalculateDelay (nextAttempt context1)
                                                 DEFAULT_ATTEMPT_OPTIONS) ;;
               makeAttempt 4 authRequestAttempt authHandleError
                           DEFAULT_ATTEMPT_OPTIONS (nextAttempt context1))
                (emit (EvLog (LogAuthRecoverable context1 err)) w1))
      /\ attemptsRemaining context1 = 4%Z
      /\ defaultCalculateDelay (nextAttempt context1)
                               DEFAULT_ATTEMPT_OPTIONS = 30000%Z).
Proof.
  split; [|split].
  - destruct (token_exchange_failure_classification
                4 DEFAULT_ATTEMPT_OPTIONS
                (initialContext DEFAULT_ATTEMPT_OPTIONS)
                (Scenario.tokenEndpointAnswers 400) eq_refl)
      as (H400 & _).
    apply (H400 0 {| status := 400; statusText := "";
                     headers := Scenario.noHeaders; body := None |});
      [reflexivity | reflexivity | right; vm_compute; reflexivity].
  - destruct (token_exchange_failure_classification
                4 DEFAULT_ATTEMPT_OPTIONS
                (initialContext DEFAULT_ATTEMPT_OPTIONS)
                (Scenario.tokenEndpointAnswers 403) eq_refl)
      as (_ & H403 & _).
    apply (H403 0 {| status := 403; statusText := "";
                     headers := Scenario.noHeaders; body := None |});
      [reflexivity | reflexivity | right; vm_compute; reflexivity].
  - destruct (token_exchange_failure_classification
                4 DEFAULT_ATTEMPT_OPTIONS
                (initialContext DEFAULT_ATTEMPT_OPTIONS)
                (Scenario.tokenEndpointAnswers 500) eq_refl)
      as (_ & _ & _ & _ & Hother).
    intros context1 err w1.
    split; [|split; vm_compute; reflexivity].
    apply (Hother err w1).
    + vm_compute. reflexivity.
    + reflexivity.
    + reflexivity.
    + right. vm_compute. reflexivity.
Defined.

(** C4 on the second page of a server whose later pages are empty. *)
Lemma seen_grows_by_page_length_witness :
  let w := Scenario.stalls in
  let first := paginateIteration 5 Scenario.ignore "/devices" None 0%Z None w in
  exists resp w1,
    executeAPIRequestWithRetries 5
      (pageUrl "/devices" None None)
      (emit (EvLog (LogRequestUrl (pageUrl "/devices" None None) None)) w)
    = (Ok resp, w1)
    /\ resources resp = ["d1"]
    /\ fst first
       = Ok {| loop_seen := 1;
               loop_paginationParams := Some (meta_pagination resp);
               loop_finished := false |}.
Proof.
  intros w first.
  destruct (seen_grows_by_page_length
              0 5 Scenario.ignore "/devices" None 0%Z None w (snd first)
              {| loop_seen := 1;
                 loop_paginationParams :=
                   Some {| limit := None; offset := None; after := None;
                           total := Some 5%Z |};
                 loop_finished := false |} eq_refl)
    as (resp & w1 & Hexec & _).
  exists resp, w1. split; [exact Hexec|].
  vm_compute in Hexec. injection Hexec as <- _.
  split; reflexivity.
Defined.

(** C5 on a server with nothing to list that reports a total of five. *)
Lemma empty_first_page_ends_run_witness :
  exists w',
    paginateResources 5 5 Scenario.ignore "/devices" None Scenario.empty
    = (Ok tt, w')
    /\ apiRequests w' = 1%nat
    /\ paginationStates (trace w') = [(0%Z, Some 5%Z, true)].
Proof.
  destruct (empty_first_page_ends_run 5 Scenario.ignore "/devices" None)
    as (Hempty & _).
  set (w0 := emit (EvLog (LogRequestUrl (pageUrl "/devices" None None) None))
                  Scenario.empty).
  set (run := executeAPIRequestWithRetries
                5 (pageUrl "/devices" None None) w0).
  destruct (Hempty 4%nat Scenario.empty (snd run) (snd run)
              {| resources := []; errors := None;
                 meta_pagination :=
                   {| limit := None; offset := None; after := None;
                      total := Some 5%Z |} |})
    as (w' & Hrun & Hapi & _ & Htrace).
  - reflexivity.
  - reflexivity.
  - reflexivity.
  - exists w'. split; [exact Hrun|]. split.
    + rewrite Hapi. reflexivity.
    + rewrite Htrace. reflexivity.
Defined.

(** C10 on a server that never reports a total. *)
Lemma pagination_stops_only_on_reported_total_witness :
  fst (paginateResources 100 5 Scenario.ignore "/devices" None
                         Scenario.totalNeverSent) <> Ok tt
  /\ apiRequests (snd (paginateResources 100 5 Scenario.ignore "/devices"
                                         None Scenario.totalNeverSent))
     = 100%nat.
Proof.
  split; [|vm_compute; reflexivity].
  set (first := paginateIteration 5 Scenario.ignore "/devices" None 0%Z None
                                  Scenario.totalNeverSent).
  destruct (pagination_stops_only_on_reported_total
              5 Scenario.ignore "/devices" None Scenario.totalNeverSent
              (snd first)
              {| loop_seen := 1;
                 loop_paginationParams :=
                   Some {| limit := None; offset := None; after := None;
                           total := None |};
                 loop_finished := false |})
    as (_ & _ & Hnever).
  - reflexivity.
  - reflexivity.
  - apply Hnever.
    + intros n dt r b Hr Hb. injection Hr as _ <-. injection Hb as <-.
      reflexivity.
    + intros l w1 o w2 H. injection H as _ <-. reflexivity.
Defined.

(** * Further properties of the client *)

Local Open Scope list_scope.

Section Further.
Context {Resource : Type}.
Local Abbreviation W := (World Resource).

(** ** The query string *)

(** X1.  [toQueryString] puts the pagination parameters first and the
    static query parameters, untouched and in their order, last.  The
    pagination part holds at most the keys [limit], [offset], [after], in
    that order and each at most once; it is empty without a cursor; a
    [limit] is sent only when it is a number, whereas [offset] and [after]
    are sent exactly when the cursor has them, whatever their type. *)
Theorem toQueryString_shape :
  forall (pagination : option PaginationMeta) (query : option QueryParams),
    exists pag,
      toQueryString pagination query
      = (pag ++ match query with Some q => q | None => [] end)%list
      /\ (exists keep : string -> bool,
             List.map fst pag
             = List.filter keep ["limit"; "offset"; "after"]%string)
      /\ (pagination = None -> pag = [])
      /\ (forall p v,
             pagination = Some p ->
             (In ("limit"%string, v) pag
              <-> exists n, limit p = Some (PNum n) /\ v = PNum n)
             /\ (In ("offset"%string, v) pag <-> offset p = Some v)
             /\ (In ("after"%string, v) pag <-> after p = Some v)).
Proof.
  intros pagination query. unfold toQueryString.
  destruct pagination as [p|].
  - eexists. split; [reflexivity|].
    split; [|split; [discriminate|]].
    + exists (fun k =>
                if String.eqb k "limit" then
                  match limit p with Some (PNum _) => true | _ => false end
                else if String.eqb k "offset" then
                  match offset p with Some _ => true | None => false end
                else
                  match after p with Some _ => true | None => false end).
      destruct (limit p) as [[n|s]|], (offset p), (after p); reflexivity.
    + intros p' v Hp. injection Hp as <-.
      destruct (limit p) as [[n|s]|], (offset p) as [o|], (after p) as [a|];
        simpl; repeat split; intro H;
        repeat match goal with
               | H : _ \/ _ |- _ => destruct H
               | H : False |- _ => contradiction
               | H : (_, _) = (_, _) |- _ => inversion H; clear H; subst
               | H : exists _, _ |- _ => destruct H as (? & ? & ?)
               | H : Some _ = Some _ |- _ => inversion H; clear H; subst
               | H : None = Some _ |- _ => discriminate
               | H : Some _ = None |- _ => discriminate
               end;
        try discriminate; eauto 6.
  - exists []. split; [reflexivity|].
    split; [exists (fun _ => false); reflexivity|].
    split; [reflexivity|]. intros p v H. discriminate.
Qed.

(** ** What authentication and the rate-limit wait leave alone *)

Section QuietInvariants.
Variable I : W -> Prop.
Hypothesis I_quiet : Quiet I.

Lemma quiet_log (r : LogRecord) : preserves I (log r).
Proof.
  intros w o w' HI H. injection H as _ <-.
  apply (quiet_emit I I_quiet). exact HI.
Qed.

Lemma quiet_sleep (ms : JsNumber) : preserves I (sleep ms).
Proof.
  intros w o w' HI H. injection H as _ <-.
  apply (quiet_advance I I_quiet), (quiet_emit I I_quiet). exact HI.
Qed.

Lemma quiet_awaitDelay (d : Z) : preserves I (awaitDelay d).
Proof.
  unfold awaitDelay. destruct (d =? 0)%Z.
  - apply preserves_ret.
  - apply quiet_sleep.
Qed.

Lemma quiet_fetch_token (c : OAuth2ClientCredentials) :
  preserves I (fetch_token c).
Proof.
  intros w o w' HI H. unfold fetch_token in H.
  assert (HI' : forall dt,
             I (advance dt (emit (EvTokenRequest c)
                                 (count_token_request w)))).
  { intro dt. apply (quiet_advance I I_quiet), (quiet_emit I I_quiet),
      (quiet_count_token_request I I_quiet). exact HI. }
  destruct (tokenServer w (tokenRequests w)) as [dt r|dt];
    injection H as _ <-; apply HI'.
Qed.

Lemma quiet_withTimeout {A} (options : AttemptOptions)
    (m : M Resource A) (h : Error -> M Resource A) :
  preserves I m -> (forall e, preserves I (h e)) ->
  preserves I (withTimeout options m h).
Proof.
  intros Hm Hh w r w' HI H. unfold withTimeout in H.
  destruct (m w) as [o w1] eqn:E.
  pose proof (Hm _ _ _ HI E) as HI1.
  destruct (timerFiresFirst options (clock w) (clock w1)).
  - injection H as _ <-. apply (quiet_advance I I_quiet). exact HI1.
  - destruct o as [a|e|].
    + injection H as _ <-. exact HI1.
    + exact (Hh e w1 r w' HI1 H).
    + injection H as _ <-. exact HI1.
Qed.

Lemma quiet_makeAttempt {A}
    (attemptFunc : AttemptContext -> M Resource A)
    (handleError : Error -> AttemptContext -> M Resource AttemptContext)
    (options : AttemptOptions) :
  (forall c, preserves I (attemptFunc c)) ->
  (forall e c, preserves I (handleError e c)) ->
  forall fuel context,
    preserves I (makeAttempt fuel attemptFunc handleError options context).
Proof.
  intros Ha Hh. induction fuel as [|fuel IH]; intro context.
  - apply preserves_outOfFuel.
  - rewrite makeAttempt_S. destruct (aborted context).
    + apply preserves_throw.
    + apply quiet_withTimeout; [apply Ha|].
      intro err. apply preserves_bind; [apply Hh|].
      intro c. destruct (aborted c || (attemptsRemaining c =? 0)%Z).
      * apply preserves_throw.
      * apply preserves_bind; [apply quiet_awaitDelay|].
        intros _. apply IH.
Qed.

Lemma quiet_requestOAuth2Token (fuel : nat) :
  preserves I (requestOAuth2Token fuel).
Proof.
  unfold requestOAuth2Token.
  apply preserves_bind; [apply quiet_log|]. intros _.
  apply preserves_bind; [apply preserves_gets|]. intro o.
  apply preserves_bind.
  { unfold retry. destruct (negb (Qle_bool 0 (factor o))).
    - apply preserves_throw.
    - apply quiet_makeAttempt.
      + intro c. unfold authRequestAttempt.
        apply preserves_bind; [apply preserves_gets|]. intro cr.
        apply preserves_bind; [apply quiet_fetch_token|]. intro r.
        destruct (response_ok r); [|apply preserves_throw].
        unfold json. destruct (body r);
          [apply preserves_ret | apply preserves_throw].
      + intros e c. unfold authHandleError.
        destruct (error_fields e) as [f|].
        * destruct (err_status f =? 403)%Z; [apply preserves_throw|].
          apply preserves_bind; [apply quiet_log|].
          intros _. apply preserves_ret.
        * apply preserves_bind; [apply quiet_log|].
          intros _. apply preserves_ret. }
  intro resp.
  apply preserves_bind; [apply preserves_gets|]. intro now.
  apply preserves_bind; [apply quiet_log|]. intros _.
  apply preserves_ret.
Qed.

Lemma quiet_authenticate (fuel : nat) : preserves I (authenticate fuel).
Proof.
  assert (Hrefresh : preserves I (refresh fuel)).
  { unfold refresh.
    apply preserves_bind; [apply quiet_requestOAuth2Token|].
    intro t. apply preserves_bind.
    - intros w o w' HI H. injection H as _ <-.
      apply (quiet_set_token I I_quiet). exact HI.
    - intros _. apply preserves_ret. }
  unfold authenticate.
  apply preserves_bind; [apply preserves_gets|]. intros [t|].
  - apply preserves_bind.
    + unfold isValidToken. apply preserves_bind; [apply preserves_gets|].
      intro now. apply preserves_ret.
    + intros []; [apply preserves_ret | exact Hrefresh].
  - exact Hrefresh.
Qed.

Lemma quiet_handle429Error : preserves I handle429Error.
Proof.
  assert (Hget : preserves I getRateLimitState).
  { unfold getRateLimitState.
    apply preserves_bind; [apply preserves_gets|]. intros [st|].
    - apply preserves_ret.
    - apply preserves_throw. }
  unfold handle429Error.
  apply preserves_bind; [apply preserves_gets|]. intro now.
  apply preserves_bind; [exact Hget|]. intro st.
  apply preserves_bind; [apply preserves_gets|]. intro cfg.
  apply preserves_bind; [apply quiet_log|]. intros _.
  apply preserves_bind; [apply quiet_sleep|]. intros _.
  apply preserves_bind; [exact Hget|]. intro st'.
  destruct (needsCooldown st' cfg).
  - apply preserves_bind; [apply quiet_log|]. intros _.
    apply quiet_sleep.
  - apply preserves_ret.
Qed.

(** The handler of a resource request sends no resource request. *)
Lemma quiet_requestHandleError (fuel : nat) (e : Error)
    (c : AttemptContext) :
  preserves I (requestHandleError fuel e c).
Proof.
  unfold requestHandleError.
  apply preserves_bind; [apply quiet_log|]. intros _.
  apply preserves_bind.
  { destruct (status_is e 401); [|apply preserves_ret].
    destruct (1 <? attemptNum c)%Z; [apply preserves_ret|].
    apply preserves_bind; [apply quiet_authenticate|].
    intros _. apply preserves_ret. }
  intro c'.
  apply preserves_bind.
  { destruct (status_is e 429);
      [apply quiet_handle429Error | apply preserves_ret]. }
  intros _.
  apply preserves_bind; [apply quiet_log|]. intros _.
  apply preserves_ret.
Qed.

End QuietInvariants.

Lemma noResourceTraffic_quiet (w0 : W) : Quiet (noResourceTraffic w0).
Proof. unfold noResourceTraffic. split; intros; simpl; assumption. Qed.

(** ** Authentication and resource requests *)

(** X2.  [authenticate] sends no resource request and does not write the
    rate-limit state, however it ends; so when the authentication that
    opens [executeAPIRequestWithRetries] throws, the call throws the same
    error without having sent any resource request. *)
Theorem failed_authentication_sends_no_resource_request :
  forall (fuel : nat) (u : Url) (w : W),
    apiRequests (snd (authenticate fuel w)) = apiRequests w
    /\ this_rateLimitState (snd (authenticate fuel w))
       = this_rateLimitState w
    /\ forall e w1,
        authenticate fuel w = (Throw e, w1) ->
        executeAPIRequestWithRetries fuel u w = (Throw e, w1)
        /\ apiRequests w1 = apiRequests w.
Proof.
  intros fuel u w.
  assert (Hq : noResourceTraffic w (snd (authenticate fuel w))).
  { destruct (authenticate fuel w) as [o w1] eqn:E.
    apply (quiet_authenticate _ (noResourceTraffic_quiet w) fuel w o w1);
      [split; reflexivity | exact E]. }
  destruct Hq as [Hreq Hst].
  split; [exact Hreq|]. split; [exact Hst|].
  intros e w1 Hauth. rewrite Hauth in Hreq. simpl in Hreq.
  split; [|exact Hreq].
  unfold executeAPIRequestWithRetries, bind at 1. rewrite Hauth.
  reflexivity.
Qed.

(** ** The bound on attempts *)

(** The attempt loop makes at most [attemptsRemaining] attempts: a
    counter that each attempt raises by at most one, and that neither the
    handler nor a timer touches, grows by at most that much. *)
Lemma makeAttempt_counts {A} (cnt : W -> nat)
    (attemptFunc : AttemptContext -> M Resource A)
    (handleError : Error -> AttemptContext -> M Resource AttemptContext)
    (options : AttemptOptions) :
  (forall c w r w', attemptFunc c w = (r, w') -> (cnt w' <= S (cnt w))%nat) ->
  (forall e c w r w', handleError e c w = (r, w') -> cnt w' = cnt w) ->
  (forall e c w c' w',
      handleError e c w = (Ok c', w') ->
      attemptsRemaining c' = attemptsRemaining c) ->
  (forall e w, cnt (emit e w) = cnt w) ->
  (forall dt w, cnt (advance dt w) = cnt w) ->
  forall fuel context w r w',
    (0 < attemptsRemaining context)%Z ->
    makeAttempt fuel attemptFunc handleError options context w = (r, w') ->
    (cnt w' <= cnt w + Z.to_nat (attemptsRemaining context))%nat.
Proof.
  intros Ha Hh Hrem Hemit Hadv.
  induction fuel as [|fuel IH]; intros context w r w' Hpos H.
  - injection H as _ <-. lia.
  - rewrite makeAttempt_S in H. destruct (aborted context).
    + injection H as _ <-. lia.
    + unfold withTimeout in H.
      assert (Hc : attemptsRemaining (consumeAttempt context)
                   = (attemptsRemaining context - 1)%Z).
      { unfold consumeAttempt. simpl.
        destruct (0 <? attemptsRemaining context)%Z eqn:E; [reflexivity|].
        apply Z.ltb_ge in E. lia. }
      destruct (attemptFunc (consumeAttempt context) w)
        as [o w1] eqn:E.
      destruct (timerFiresFirst options (clock w) (clock w1)).
      { injection H as _ <-. unfold at_instant. rewrite Hadv.
        pose proof (Ha _ _ _ _ E). lia. }
      destruct o as [a|e|].
      * injection H as _ <-. pose proof (Ha _ _ _ _ E). lia.
      * pose proof (Ha _ _ _ _ E) as H1.
        unfold bind at 1 in H.
        destruct (handleError e (consumeAttempt context) w1)
          as [[c| |] w2] eqn:E2.
        -- pose proof (Hh _ _ _ _ _ E2) as H2.
           pose proof (Hrem _ _ _ _ _ E2) as Hc'.
           destruct (aborted c || (attemptsRemaining c =? 0)%Z) eqn:Eab.
           ++ injection H as _ <-. lia.
           ++ apply orb_false_iff in Eab. destruct Eab as [_ Ez].
              apply Z.eqb_neq in Ez.
              unfold bind at 1 in H.
              assert (Hd : forall d o w3,
                         awaitDelay d w2 = (o, w3) -> cnt w3 = cnt w2).
              { intros d o w3. unfold awaitDelay.
                destruct (d =? 0)%Z; intro Hd; injection Hd as _ <-.
                - reflexivity.
                - rewrite Hadv, Hemit. reflexivity. }
              destruct (awaitDelay
                          (defaultCalculateDelay (nextAttempt c) options) w2)
                as [[[]| |] w3] eqn:E3.
              ** pose proof (Hd _ _ _ E3) as H3.
                 apply IH in H; [|simpl; lia].
                 simpl in H. rewrite Hc', Hc in H. lia.
              ** injection H as _ <-. pose proof (Hd _ _ _ E3). lia.
              ** injection H as _ <-. pose proof (Hd _ _ _ E3). lia.
        -- injection H as _ <-. pose proof (Hh _ _ _ _ _ E2). lia.
        -- injection H as _ <-. pose proof (Hh _ _ _ _ _ E2). lia.
      * injection H as _ <-. pose proof (Ha _ _ _ _ E). lia.
Qed.

Lemma requestAttempt_counts (u : Url) (c : AttemptContext)
    (w w' : W) (r : Outcome (ResourcesResponse Resource)) :
  requestAttempt u c w = (r, w') ->
  (apiRequests w' <= S (apiRequests w))%nat.
Proof.
  unfold requestAttempt, bind at 1, gets. cbv beta iota.
  destruct (this_token w) as [t|].
  - unfold bind, fetch_api, modify. cbv beta iota zeta.
    destruct (apiServer w (apiRequests w)) as [dt resp|dt].
    + destruct (response_ok resp).
      * unfold json. destruct (body resp);
          intro H; injection H as _ <-; simpl; lia.
      * destruct (status resp =? 401)%Z;
          [|destruct (status resp =? 403)%Z];
          intro H; injection H as _ <-; simpl; lia.
    + intro H. injection H as _ <-. simpl. lia.
  - intro H. injection H as _ <-. lia.
Qed.

(** X3.  Whatever the servers answer, one call of
    [executeAPIRequestWithRetries] sends at most [maxAttempts] resource
    requests (when [maxAttempts] is positive, that is when the attempts
    are bounded). *)
Theorem at_most_maxAttempts_resource_requests :
  forall (fuel : nat) (u : Url) (w : W),
    maxAttempts (this_attemptOptions w) <> 0%N ->
    (apiRequests (snd (executeAPIRequestWithRetries fuel u w))
     <= apiRequests w + N.to_nat (maxAttempts (this_attemptOptions w)))%nat.
Proof.
  intros fuel u w Hmax.
  unfold executeAPIRequestWithRetries, bind at 1.
  destruct (authenticate fuel w) as [o w1] eqn:Eauth.
  assert (Hq : noResourceTraffic w w1).
  { apply (quiet_authenticate _ (noResourceTraffic_quiet w) fuel w o w1);
      [split; reflexivity | exact Eauth]. }
  destruct Hq as [Hreq _].
  assert (Hopt : this_attemptOptions w1 = this_attemptOptions w).
  { exact (preserves_authenticate _ (hasOptions_stable (this_attemptOptions w))
             fuel w o w1 eq_refl Eauth). }
  destruct o as [t| |]; simpl; try lia.
  unfold bind, gets. cbv beta iota. rewrite Hopt.
  unfold retry.
  destruct (negb (Qle_bool 0 (factor (this_attemptOptions w))));
    [simpl; lia|].
  destruct (makeAttempt fuel (requestAttempt u) (requestHandleError fuel)
              (this_attemptOptions w)
              (initialContext (this_attemptOptions w)) w1)
    as [r w'] eqn:E.
  apply (makeAttempt_counts apiRequests) in E.
  - simpl. unfold initialContext in E. simpl in E.
    destruct (maxAttempts (this_attemptOptions w) =? 0)%N eqn:E0.
    + apply N.eqb_eq in E0. contradiction.
    + lia.
  - intros c w2 r2 w2'. apply requestAttempt_counts.
  - intros e c w2 r2 w2' Hh.
    destruct (quiet_requestHandleError _ (noResourceTraffic_quiet w2)
                fuel e c w2 r2 w2') as [Hr _];
      [split; reflexivity | exact Hh | exact Hr].
  - apply requestHandleError_attemptsRemaining.
  - reflexivity.
  - reflexivity.
  - unfold initialContext. simpl.
    destruct (maxAttempts (this_attemptOptions w) =? 0)%N eqn:E0.
    + apply N.eqb_eq in E0. contradiction.
    + lia.
Qed.

(** ** One attempt of a resource request *)

Lemma authenticate_valid (fuel : nat) (w : W) (t : OAuth2Token) :
  this_token w = Some t -> clock w < expiresAt t ->
  authenticate fuel w = (Ok t, w).
Proof.
  intros Ht Hlt. unfold authenticate, bind at 1, gets at 1.
  rewrite Ht. unfold bind at 1, isValidToken, bind at 1, getUnixTimeNow.
  unfold gets, ret. cbv beta iota. unfold Qgt_bool.
  destruct (Qle_bool (expiresAt t) (clock w)) eqn:E.
  - apply Qle_bool_iff in E. lra.
  - reflexivity.
Qed.

(** The world after a response to a resource request has arrived and the
    rate-limit state has been read off it. *)
Lemma requestAttempt_responds (u : Url) (c : AttemptContext) (w : W)
    (t : OAuth2Token) (dt : Q) (r : Response (ResourcesResponse Resource)) :
  this_token w = Some t ->
  apiServer w (apiRequests w) = Responds dt r ->
  let w1 := set_rateLimitState
              (Some (rateLimitState_of_headers (headers r)))
              (advance dt (emit (EvApiRequest u (token t))
                                (count_api_request w))) in
  let e := {| err_status := status r; err_statusText := statusText r;
              err_endpoint := ResourceEndpoint u |} in
  requestAttempt u c w
  = if response_ok r then
      match body r with
      | Some b => (Ok b, w1)
      | None => (Throw FetchError, w1)
      end
    else if (status r =? 401)%Z
         then (Throw (IntegrationProviderAuthenticationError e), w1)
         else if (status r =? 403)%Z
              then (Throw (IntegrationProviderAuthorizationError e), w1)
              else (Throw (IntegrationProviderAPIError e), w1).
Proof.
  intros Ht Hr w1 e.
  unfold requestAttempt, bind at 1, gets. cbv beta iota. rewrite Ht.
  unfold bind, fetch_api, modify. cbv beta iota zeta. rewrite Hr.
  fold w1. destruct (response_ok r).
  - unfold json. destruct (body r); reflexivity.
  - destruct (status r =? 401)%Z; [reflexivity|].
    destruct (status r =? 403)%Z; reflexivity.
Qed.

(** X4.  With an unexpired token held, a request whose first reply is a
    success with a parsable body, and arrives before the timer of the
    attempt fires, is one round trip: the body is returned and the world
    differs only by that one request, bearing the held token, the time
    the reply took and the rate-limit state read off its headers; no
    token is requested and no timer awaited. *)
Theorem successful_request_is_one_round_trip :
  forall (fuel : nat) (u : Url) (w : W) (t : OAuth2Token) (dt : Q)
         (r : Response (ResourcesResponse Resource))
         (b : ResourcesResponse Resource),
    this_token w = Some t ->
    clock w < expiresAt t ->
    0 <= factor (this_attemptOptions w) ->
    apiServer w (apiRequests w) = Responds dt r ->
    settlesInTime (this_attemptOptions w) dt ->
    response_ok r = true ->
    body r = Some b ->
    executeAPIRequestWithRetries (S fuel) u w
    = (Ok b,
       set_rateLimitState
         (Some (rateLimitState_of_headers (headers r)))
         (advance dt (emit (EvApiRequest u (token t))
                           (count_api_request w)))).
Proof.
  intros fuel u w t dt r b Ht Hvalid Hfactor Hr Htime Hok Hb.
  unfold executeAPIRequestWithRetries, bind at 1.
  rewrite (authenticate_valid _ _ _ Ht Hvalid).
  unfold bind, gets. cbv beta iota. unfold retry.
  apply Qle_bool_iff in Hfactor. rewrite Hfactor.
  change (negb true) with false. cbv iota.
  rewrite makeAttempt_S.
  change (aborted (initialContext (this_attemptOptions w))) with false.
  cbv iota.
  rewrite (requestAttempt_in_time _ u _ _ w t Ht)
    by (rewrite Hr; exact Htime).
  unfold catch.
  rewrite (requestAttempt_responds u _ w t dt r Ht Hr), Hok, Hb.
  reflexivity.
Qed.

(** X5.  An attempt whose reply is not a success throws an error that
    carries the status and status text of the reply and the URL requested:
    an [IntegrationProviderAuthenticationError] for 401, an
    [IntegrationProviderAuthorizationError] for 403, an
    [IntegrationProviderAPIError] for any other status; the rate-limit
    state is read off the headers of the failed reply all the same.  A
    network fault throws an error without status and leaves the rate-limit
    state as it was. *)
Theorem requestAttempt_failure_classification :
  forall (u : Url) (c : AttemptContext) (w : W) (t : OAuth2Token),
    this_token w = Some t ->
    (forall dt r,
        apiServer w (apiRequests w) = Responds dt r ->
        response_ok r = false ->
        exists err w1,
          requestAttempt u c w = (Throw err, w1)
          /\ error_fields err
             = Some {| err_status := status r;
                       err_statusText := statusText r;
                       err_endpoint := ResourceEndpoint u |}
          /\ (status r = 401%Z ->
              exists e, err = IntegrationProviderAuthenticationError e)
          /\ (status r = 403%Z ->
              exists e, err = IntegrationProviderAuthorizationError e)
          /\ (status r <> 401%Z -> status r <> 403%Z ->
              exists e, err = IntegrationProviderAPIError e)
          /\ this_rateLimitState w1
             = Some (rateLimitState_of_headers (headers r)))
    /\ (forall dt,
          apiServer w (apiRequests w) = NetworkFault dt ->
          exists w1,
            requestAttempt u c w = (Throw FetchError, w1)
            /\ error_status FetchError = None
            /\ this_rateLimitState w1 = this_rateLimitState w).
Proof.
  intros u c w t Ht. split.
  - intros dt r Hr Hok.
    rewrite (requestAttempt_responds u c w t dt r Ht Hr), Hok.
    destruct (status r =? 401)%Z eqn:E401;
      [|destruct (status r =? 403)%Z eqn:E403].
    + apply Z.eqb_eq in E401.
      eexists. eexists. split; [reflexivity|].
      split; [reflexivity|].
      split; [eauto|]. split; [intro; lia|].
      split; [intro; contradiction | reflexivity].
    + apply Z.eqb_eq in E403. apply Z.eqb_neq in E401.
      eexists. eexists. split; [reflexivity|].
      split; [reflexivity|].
      split; [intro; contradiction|]. split; [eauto|].
      split; [intros; contradiction | reflexivity].
    + apply Z.eqb_neq in E401. apply Z.eqb_neq in E403.
      eexists. eexists. split; [reflexivity|].
      split; [reflexivity|].
      split; [intro; contradiction|]. split; [intro; contradiction|].
      split; [eauto | reflexivity].
  - intros dt Hr.
    unfold requestAttempt, bind at 1, gets. cbv beta iota. rewrite Ht.
    unfold bind, fetch_api. cbv beta iota zeta. rewrite Hr.
    eexists. repeat split.
Qed.

(** X6.  After a reply that has no [X-RateLimit-Remaining] header, or an
    empty one, the remaining quota is recorded as 0, and a rate-limit wait
    that follows awaits its first timer only: the cooldown is never
    taken. *)
Theorem absent_remaining_header_never_cools_down :
  forall (u : Url) (c : AttemptContext) (w : W) (t : OAuth2Token)
         (dt : Q) (r : Response (ResourcesResponse Resource)),
    this_token w = Some t ->
    apiServer w (apiRequests w) = Responds dt r ->
    X_RateLimit_Remaining (headers r) = None
    \/ X_RateLimit_Remaining (headers r) = Some HEmpty ->
    let w1 := snd (requestAttempt u c w) in
    let st := rateLimitState_of_headers (headers r) in
    limitRemaining st = Num 0
    /\ exists w2,
        handle429Error w1 = (Ok tt, w2)
        /\ sleeps (trace w2)
           = sleeps (trace w1)
             ++ [js_mul (timeToSleepInSeconds st (clock w1)) (Num 1000)].
Proof.
  intros u c w t dt r Ht Hr Hmissing w1 st.
  assert (Hzero : limitRemaining st = Num 0).
  { unfold st, rateLimitState_of_headers. simpl.
    destruct Hmissing as [-> | ->]; reflexivity. }
  split; [exact Hzero|].
  assert (Hst : this_rateLimitState w1 = Some st).
  { unfold w1. rewrite (requestAttempt_responds u c w t dt r Ht Hr).
    destruct (response_ok r);
      [destruct (body r)|
       destruct (status r =? 401)%Z; [|destruct (status r =? 403)%Z]];
      reflexivity. }
  destruct (handle429Error_run w1 st Hst) as (w2 & Hrun & Hsl).
  exists w2. split; [exact Hrun|].
  rewrite Hsl. unfold needsCooldown. rewrite Hzero. reflexivity.
Qed.

(** ** What a returned page tells *)

Lemma requestAttempt_returns_last (u : Url) (c : AttemptContext) (w w' : W)
    (a : ResourcesResponse Resource) :
  requestAttempt u c w = (Ok a, w') ->
  exists dt r,
    apiServer w (apiRequests w) = Responds dt r
    /\ response_ok r = true
    /\ body r = Some a
    /\ this_rateLimitState w'
       = Some (rateLimitState_of_headers (headers r))
    /\ apiRequests w' = S (apiRequests w)
    /\ apiServer w' = apiServer w.
Proof.
  intro H.
  destruct (this_token w) as [t|] eqn:Ht.
  - destruct (apiServer w (apiRequests w)) as [dt r|dt] eqn:Hr.
    + rewrite (requestAttempt_responds u c w t dt r Ht Hr) in H.
      exists dt, r. split; [reflexivity|].
      destruct (response_ok r).
      * destruct (body r) as [b|]; [|discriminate].
        injection H as <- <-. repeat split.
      * destruct (status r =? 401)%Z; [discriminate|].
        destruct (status r =? 403)%Z; discriminate.
    + unfold requestAttempt, bind at 1, gets in H. cbv beta iota in H.
      rewrite Ht in H. unfold bind, fetch_api in H.
      cbv beta iota zeta in H. rewrite Hr in H. discriminate.
  - unfold requestAttempt, bind at 1, gets in H. cbv beta iota in H.
    rewrite Ht in H. discriminate.
Qed.

(** X7.  When [executeAPIRequestWithRetries] returns a page, that page is
    the body of the reply to the last resource request it sent, that reply
    was a success, and the rate-limit state the client holds is the one
    read off the headers of that same reply (the state of an earlier,
    failed attempt does not survive). *)
Theorem returned_page_is_the_last_reply :
  forall (fuel : nat) (u : Url) (w w' : W)
         (resp : ResourcesResponse Resource),
    executeAPIRequestWithRetries fuel u w = (Ok resp, w') ->
    (apiRequests w < apiRequests w')%nat
    /\ exists dt r,
        apiServer w (pred (apiRequests w')) = Responds dt r
        /\ response_ok r = true
        /\ body r = Some resp
        /\ this_rateLimitState w'
           = Some (rateLimitState_of_headers (headers r)).
Proof.
  intros fuel u w w' resp.
  unfold executeAPIRequestWithRetries, bind at 1.
  destruct (authenticate fuel w) as [[t| |] w1] eqn:Eauth;
    try discriminate.
  unfold bind, gets. cbv beta iota. intro H.
  pose proof (preserves_authenticate _ (servedBy_stable w) fuel
                w _ w1 (servedBy_refl w) Eauth) as HI1.
  apply (retry_returns (servedBy w) (servedBy_stable w) fuel
           (requestAttempt u) (requestHandleError fuel)
           (this_attemptOptions w1)
           (fun a w2 =>
              (apiRequests w < apiRequests w2)%nat
              /\ exists dt r,
                  apiServer w (pred (apiRequests w2)) = Responds dt r
                  /\ response_ok r = true
                  /\ body r = Some a
                  /\ this_rateLimitState w2
                     = Some (rateLimitState_of_headers (headers r))))
    with (w := w1) (w' := w').
  - intro c. apply preserves_requestAttempt, servedBy_stable.
  - intros e c. apply preserves_requestHandleError, servedBy_stable.
  - intros c w2 a w2' (_ & Hsrv & _ & Hle) Hatt.
    destruct (requestAttempt_returns_last _ _ _ _ _ Hatt)
      as (dt & r & Hr & Hok & Hb & Hst & Hcount & _).
    split; [lia|]. exists dt, r. rewrite Hcount. simpl pred.
    rewrite <- Hsrv. repeat split; assumption.
  - exact HI1.
  - exact H.
Qed.

(** ** A 429 inside the retry engine *)

(** What only timers and log records leave as it is, [handle429Error]
    leaves as it is. *)
Lemma handle429Error_keeps {A} (f : W -> A) :
  (forall e w, f (emit e w) = f w) ->
  (forall dt w, f (advance dt w) = f w) ->
  forall w r w', handle429Error w = (r, w') -> f w' = f w.
Proof.
  intros Hemit Hadv w r w'.
  cbv beta iota zeta
      delta [handle429Error bind getUnixTimeNow getRateLimitState gets].
  destruct (this_rateLimitState w) as [st|] eqn:Hst.
  - simpl. rewrite Hst. unfold ret at 1.
    destruct (needsCooldown st (this_rateLimitConfig w));
      intro H; injection H as _ <-;
      unfold sleep, modify; cbv beta iota;
      repeat (rewrite ?Hadv, ?Hemit); reflexivity.
  - intro H. injection H as _ <-. reflexivity.
Qed.

(** The handler on an error that is none of 401, 403, 429: two log
    records, the context as it was. *)
Lemma requestHandleError_plain (fuel : nat) (err : Error)
    (c : AttemptContext) (w : W) :
  status_is err 401 = false ->
  status_is err 403 = false ->
  status_is err 429 = false ->
  requestHandleError fuel err c w
  = (Ok c, emit (EvLog (LogRequestRecoverable c err))
                (emit (EvLog (LogHandleError err c)) w)).
Proof.
  intros H401 H403 H429. unfold requestHandleError.
  rewrite H401, H403, H429. reflexivity.
Qed.

(** The handler on a 429: the rate-limit wait between the two log
    records, the context as it was. *)
Lemma requestHandleError_429 (fuel : nat) (err : Error)
    (c : AttemptContext) (w : W) (st : RateLimitState) :
  status_is err 401 = false ->
  status_is err 403 = false ->
  status_is err 429 = true ->
  this_rateLimitState w = Some st ->
  exists w1,
    handle429Error (emit (EvLog (LogHandleError err c)) w) = (Ok tt, w1)
    /\ requestHandleError fuel err c w
       = (Ok c, emit (EvLog (LogRequestRecoverable c err)) w1).
Proof.
  intros H401 H403 H429 Hst.
  destruct (handle429Error_run (emit (EvLog (LogHandleError err c)) w)
              st Hst) as (w1 & Hrun & _).
  exists w1. split; [exact Hrun|].
  unfold requestHandleError. rewrite H401, H403, H429.
  unfold bind at 1, log at 1, modify. cbv beta iota.
  unfold bind at 1, ret at 1. cbv beta iota.
  unfold bind at 1. rewrite Hrun. reflexivity.
Qed.

(** X8.  In any attempt of a resource request, a 429 reply that arrives
    before the timer of the attempt fires is never aborted.  The handler
    first awaits the rate-limit wait, computed from the headers of that
    very reply at the time it arrived (and the cooldown when it applies);
    only then does the retry policy decide: with an attempt left the
    backoff delay is awaited and the next attempt made, with none left
    the 429 is rethrown as an [IntegrationProviderAPIError] -- after the
    wait has been taken, which the clock shows.  No token is requested
    and the held token is kept. *)
Theorem resource_429_waits_before_the_policy_decides :
  forall (fuel hfuel : nat) (url : Url) (options : AttemptOptions)
         (context : AttemptContext) (w : W) (t : OAuth2Token)
         (dt : Q) (r : Response (ResourcesResponse Resource)),
    aborted context = false ->
    this_token w = Some t ->
    apiServer w (apiRequests w) = Responds dt r ->
    settlesInTime options dt ->
    status r = 429%Z ->
    let st := rateLimitState_of_headers (headers r) in
    let cfg := this_rateLimitConfig w in
    let context1 := consumeAttempt context in
    let err := IntegrationProviderAPIError
                 {| err_status := 429; err_statusText := statusText r;
                    err_endpoint := ResourceEndpoint url |} in
    exists w2,
      makeAttempt (S fuel) (requestAttempt url) (requestHandleError hfuel)
                  options context w
      = (if (attemptsRemaining context1 =? 0)%Z
         then (Throw err, w2)
         else (awaitDelay (defaultCalculateDelay (nextAttempt context1)
                                                 options) ;;
               makeAttempt fuel (requestAttempt url)
                           (requestHandleError hfuel) options
                           (nextAttempt context1)) w2)
      /\ sleeps (trace w2)
         = sleeps (trace w)
           ++ js_mul (timeToSleepInSeconds st (clock w + dt)) (Num 1000)
              :: (if needsCooldown st cfg
                  then [Num (cooldownPeriod cfg)] else [])
      /\ clock w2
         == clock w + dt
            + timer_elapsed
                (js_mul (timeToSleepInSeconds st (clock w + dt))
                        (Num 1000)) / 1000
            + (if needsCooldown st cfg
               then Qmax 0 (cooldownPeriod cfg) / 1000 else 0)
      /\ apiRequests w2 = S (apiRequests w)
      /\ tokenRequests w2 = tokenRequests w
      /\ this_token w2 = Some t
      /\ this_rateLimitState w2 = Some st.
Proof.
  intros fuel hfuel url options context w t dt r Hab Ht Hr Htime Hst
         st cfg context1 err.
  rewrite makeAttempt_S, Hab.
  rewrite (requestAttempt_in_time _ url _ _ w t Ht)
    by (rewrite Hr; exact Htime).
  unfold catch. fold context1.
  rewrite (requestAttempt_responds url context1 w t dt r Ht Hr).
  unfold response_ok. rewrite Hst.
  change ((200 <=? 429)%Z && (429 <=? 299)%Z) with false.
  change (429 =? 401)%Z with false. change (429 =? 403)%Z with false.
  cbv iota. fold st. fold err.
  set (w1 := set_rateLimitState (Some st)
               (advance dt (emit (EvApiRequest url (token t))
                                 (count_api_request w)))).
  destruct (requestHandleError_429 hfuel err context1 w1 st
              eq_refl eq_refl eq_refl eq_refl)
    as (w1'' & Hrun & Hhandler).
  unfold bind at 1. rewrite Hhandler.
  set (w2 := emit (EvLog (LogRequestRecoverable context1 err)) w1'').
  exists w2.
  replace (aborted context1) with false
    by (unfold context1; simpl; symmetry; exact Hab).
  rewrite orb_false_l.
  split.
  - destruct (attemptsRemaining context1 =? 0)%Z; reflexivity.
  - destruct (handle429Error_run _ st
                (eq_refl : this_rateLimitState
                             (emit (EvLog (LogHandleError err context1)) w1)
                           = Some st))
      as (w1' & Hrun' & Hsl).
    rewrite Hrun in Hrun'. injection Hrun' as <-.
    pose proof (handle429Error_clock _ st
                  (eq_refl : this_rateLimitState
                               (emit (EvLog (LogHandleError err context1))
                                     w1)
                             = Some st)) as Hclock.
    rewrite Hrun in Hclock. simpl snd in Hclock.
    unfold w2. simpl. rewrite sleeps_app. simpl. rewrite app_nil_r.
    rewrite Hsl. unfold w1. simpl.
    rewrite !sleeps_app. simpl. rewrite !app_nil_r.
    split; [reflexivity|].
    split; [exact Hclock|].
    rewrite (handle429Error_keeps apiRequests
               (fun _ _ => eq_refl) (fun _ _ => eq_refl) _ _ _ Hrun).
    rewrite (handle429Error_keeps tokenRequests
               (fun _ _ => eq_refl) (fun _ _ => eq_refl) _ _ _ Hrun).
    rewrite (handle429Error_keeps this_token
               (fun _ _ => eq_refl) (fun _ _ => eq_refl) _ _ _ Hrun).
    rewrite (handle429Error_keeps this_rateLimitState
               (fun _ _ => eq_refl) (fun _ _ => eq_refl) _ _ _ Hrun).
    simpl. repeat split. exact Ht.
Qed.

(** ** The token lifecycle, continued *)

(** A token exchange that the endpoint grants at once. *)
Lemma requestOAuth2Token_first_try (fuel : nat) (w : W) (dt : Q)
    (r : Response OAuth2TokenResponse) (b : OAuth2TokenResponse) :
  0 <= factor (this_attemptOptions w) ->
  tokenServer w (tokenRequests w) = Responds dt r ->
  settlesInTime (this_attemptOptions w) dt ->
  response_ok r = true ->
  body r = Some b ->
  let expiry := clock w + dt + expires_in b in
  requestOAuth2Token (S fuel) w
  = (Ok {| token := access_token b; expiresAt := expiry |},
     emit (EvLog (LogFetchedToken expiry (expires_in b)))
          (advance dt
             (emit (EvTokenRequest (this_credentials w))
                   (count_token_request
                      (emit (EvLog LogFetchingToken) w))))).
Proof.
  intros Hfactor Hr Htime Hok Hb expiry.
  unfold requestOAuth2Token.
  unfold bind at 1, log at 1, modify. cbv beta iota.
  unfold bind at 1, gets at 1. cbv beta iota.
  unfold bind at 1, retry.
  apply Qle_bool_iff in Hfactor.
  replace (this_attemptOptions (emit (EvLog LogFetchingToken) w))
    with (this_attemptOptions w) by reflexivity.
  rewrite Hfactor. change (negb true) with false. cbv iota.
  rewrite makeAttempt_S.
  change (aborted (initialContext (this_attemptOptions w))) with false.
  cbv iota.
  rewrite authRequestAttempt_in_time
    by (change (settlesInTime
                  (this_attemptOptions w)
                  (replyLatency (tokenServer w (tokenRequests w))));
        rewrite Hr; exact Htime).
  unfold catch.
  unfold authRequestAttempt at 1, bind at 1, gets at 1. cbv beta iota.
  unfold bind at 1, fetch_token. cbv beta iota zeta.
  replace (tokenServer (emit (EvLog LogFetchingToken) w)
                       (tokenRequests (emit (EvLog LogFetchingToken) w)))
    with (tokenServer w (tokenRequests w)) by reflexivity.
  rewrite Hr, Hok. unfold json. rewrite Hb. unfold ret at 1.
  reflexivity.
Qed.

(** X9.  Authentication is idempotent while the token lasts: if every
    token the endpoint grants has a positive [expires_in], then right
    after [authenticate] has returned a token, calling it again returns
    the same token and changes nothing -- no second exchange. *)
Theorem authenticate_twice_exchanges_once :
  forall (fuel fuel' : nat) (w w' : W) (t : OAuth2Token),
    (forall n dt r b,
        tokenServer w n = Responds dt r -> body r = Some b ->
        0 < expires_in b) ->
    authenticate fuel w = (Ok t, w') ->
    this_token w' = Some t
    /\ authenticate fuel' w' = (Ok t, w').
Proof.
  intros fuel fuel' w w' t Hpos Hauth.
  assert (Hheld : this_token w' = Some t /\ clock w' < expiresAt t).
  { assert (Hrefresh : refresh fuel w = (Ok t, w') ->
                       this_token w' = Some t /\ clock w' < expiresAt t).
    { unfold refresh, bind at 1.
      destruct (requestOAuth2Token fuel w) as [[t1| |] w1] eqn:E;
        try discriminate.
      unfold bind, modify, ret. cbv beta iota.
      intro H. injection H as <- <-.
      destruct (requestOAuth2Token_returns _ _ _ _ E)
        as (_ & n & dt & r & b & Hn & Hb & _ & Hexp).
      split; [reflexivity|].
      simpl. rewrite Hexp. pose proof (Hpos n dt r b Hn Hb). lra. }
    revert Hauth.
    unfold authenticate, bind at 1, gets at 1. cbv beta iota.
    destruct (this_token w) as [t0|] eqn:Ht; [|exact Hrefresh].
    unfold bind at 1, isValidToken, bind at 1, getUnixTimeNow.
    unfold gets, ret. cbv beta iota. unfold Qgt_bool.
    destruct (Qle_bool (expiresAt t0) (clock w)) eqn:E; simpl.
    - exact Hrefresh.
    - intro H. injection H as <- <-. split; [exact Ht|].
      destruct (Qlt_le_dec (clock w) (expiresAt t0)) as [Hlt|Hle];
        [exact Hlt|].
      apply Qle_bool_iff in Hle. congruence. }
  destruct Hheld as [Hheld Hvalid].
  split; [exact Hheld|].
  apply authenticate_valid; assumption.
Qed.

(** X10.  The first authentication, when the token endpoint grants at
    once and its reply arrives before the timer of the attempt fires:
    with no token held (or an expired one) the client sends exactly one
    token request with its credentials, awaits no timer, and holds and
    returns a token whose secret is the [access_token] of the reply and
    whose [expiresAt] is the time the reply arrived plus its
    [expires_in]. *)
Theorem first_authentication_stores_granted_token :
  forall (fuel : nat) (w : W) (dt : Q)
         (r : Response OAuth2TokenResponse) (b : OAuth2TokenResponse),
    (this_token w = None
     \/ exists t, this_token w = Some t /\ expiresAt t <= clock w) ->
    0 <= factor (this_attemptOptions w) ->
    tokenServer w (tokenRequests w) = Responds dt r ->
    settlesInTime (this_attemptOptions w) dt ->
    response_ok r = true ->
    body r = Some b ->
    let granted := {| token := access_token b;
                      expiresAt := clock w + dt + expires_in b |} in
    exists w',
      authenticate (S fuel) w = (Ok granted, w')
      /\ this_token w' = Some granted
      /\ tokenRequests w' = S (tokenRequests w)
      /\ apiRequests w' = apiRequests w
      /\ clock w' = clock w + dt
      /\ sleeps (trace w') = sleeps (trace w)
      /\ List.filter is_token_request (trace w')
         = List.filter is_token_request (trace w)
           ++ [EvTokenRequest (this_credentials w)].
Proof.
  intros fuel w dt r b Hcase Hfactor Hr Htime Hok Hb granted.
  assert (Hrefresh :
            exists w',
              refresh (S fuel) w = (Ok granted, w')
              /\ this_token w' = Some granted
              /\ tokenRequests w' = S (tokenRequests w)
              /\ apiRequests w' = apiRequests w
              /\ clock w' = clock w + dt
              /\ sleeps (trace w') = sleeps (trace w)
              /\ List.filter is_token_request (trace w')
                 = List.filter is_token_request (trace w)
                   ++ [EvTokenRequest (this_credentials w)]).
  { unfold refresh, bind at 1.
    rewrite (requestOAuth2Token_first_try fuel w dt r b
               Hfactor Hr Htime Hok Hb).
    fold granted. unfold bind, modify, ret. cbv beta iota.
    eexists. split; [reflexivity|]. simpl.
    rewrite !sleeps_app, !filter_app. simpl. rewrite !app_nil_r.
    repeat split. }
  destruct Hrefresh as (w' & Hrun & Hrest).
  exists w'. split; [|exact Hrest].
  rewrite <- Hrun.
  unfold authenticate, bind at 1, gets at 1. cbv beta iota.
  destruct Hcase as [Hnone|(t & Ht & Hle)].
  - rewrite Hnone. reflexivity.
  - rewrite Ht. unfold bind at 1, isValidToken, bind at 1, getUnixTimeNow.
    unfold gets, ret. cbv beta iota.
    apply Qle_bool_iff in Hle. unfold Qgt_bool. rewrite Hle.
    reflexivity.
Qed.

(** ** A 401 once the token has expired *)

Lemma authenticate_expired (fuel : nat) (w : W) (t : OAuth2Token) :
  this_token w = Some t -> expiresAt t <= clock w ->
  authenticate fuel w = refresh fuel w.
Proof.
  intros Ht Hle. unfold authenticate, bind at 1, gets at 1.
  rewrite Ht. unfold bind at 1, isValidToken, bind at 1, getUnixTimeNow.
  unfold gets, ret. cbv beta iota.
  apply Qle_bool_iff in Hle. unfold Qgt_bool. rewrite Hle.
  reflexivity.
Qed.

(** The handler on a 401 of the first or second attempt, when the
    authentication it calls returns. *)
Lemma requestHandleError_401_authenticates (fuel : nat) (e : ProviderError)
    (c : AttemptContext) (w w1 : W) (tk : OAuth2Token) :
  err_status e = 401%Z ->
  (attemptNum c <= 1)%Z ->
  let err := IntegrationProviderAuthenticationError e in
  authenticate fuel (emit (EvLog (LogHandleError err c)) w) = (Ok tk, w1) ->
  requestHandleError fuel err c w
  = (Ok c, emit (EvLog (LogRequestRecoverable c err)) w1).
Proof.
  intros He Hnum err Hauth. unfold requestHandleError.
  assert (H401 : status_is err 401 = true)
    by (unfold status_is; simpl; rewrite He; reflexivity).
  assert (H403 : status_is err 403 = false)
    by (unfold status_is; simpl; rewrite He; reflexivity).
  assert (H429 : status_is err 429 = false)
    by (unfold status_is; simpl; rewrite He; reflexivity).
  rewrite H401, H403, H429.
  replace (1 <? attemptNum c)%Z with false
    by (symmetry; apply Z.ltb_ge; exact Hnum).
  unfold bind at 1, log at 1, modify. cbv beta iota.
  unfold bind at 1, bind at 1. rewrite Hauth. reflexivity.
Qed.

(** X11.  A 401 on the first or second attempt, received when the held
    token has meanwhile expired on the client's clock, is followed by a
    token exchange: if the endpoint grants at once, the granted token
    replaces the held one before the retry policy decides, so the next
    attempt bears the new token.  Both replies are taken to arrive before
    the timer of their attempt fires. *)
Theorem expired_token_401_is_refreshed :
  forall (fuel hfuel : nat) (url : Url) (options : AttemptOptions)
         (context : AttemptContext) (w : W) (t : OAuth2Token)
         (dt : Q) (r : Response (ResourcesResponse Resource))
         (dt' : Q) (r' : Response OAuth2TokenResponse)
         (b : OAuth2TokenResponse),
    aborted context = false ->
    (attemptNum context <= 1)%Z ->
    this_token w = Some t ->
    apiServer w (apiRequests w) = Responds dt r ->
    settlesInTime options dt ->
    status r = 401%Z ->
    expiresAt t <= clock w + dt ->
    0 <= factor (this_attemptOptions w) ->
    tokenServer w (tokenRequests w) = Responds dt' r' ->
    settlesInTime (this_attemptOptions w) dt' ->
    response_ok r' = true ->
    body r' = Some b ->
    let granted := {| token := access_token b;
                      expiresAt := clock w + dt + dt' + expires_in b |} in
    let context1 := consumeAttempt context in
    let err := IntegrationProviderAuthenticationError
                 {| err_status := 401; err_statusText := statusText r;
                    err_endpoint := ResourceEndpoint url |} in
    exists w2,
      makeAttempt (S fuel) (requestAttempt url)
                  (requestHandleError (S hfuel)) options context w
      = (if (attemptsRemaining context1 =? 0)%Z
         then (Throw err, w2)
         else (awaitDelay (defaultCalculateDelay (nextAttempt context1)
                                                 options) ;;
               makeAttempt fuel (requestAttempt url)
                           (requestHandleError (S hfuel)) options
                           (nextAttempt context1)) w2)
      /\ this_token w2 = Some granted
      /\ tokenRequests w2 = S (tokenRequests w)
      /\ apiRequests w2 = S (apiRequests w)
      /\ sleeps (trace w2) = sleeps (trace w)
      /\ clock w2 = clock w + dt + dt'.
Proof.
  intros fuel hfuel url options context w t dt r dt' r' b
         Hab Hnum Ht Hr Htime Hst Hexp Hfactor Hr' Htime' Hok' Hb'
         granted context1 err.
  rewrite makeAttempt_S, Hab.
  rewrite (requestAttempt_in_time _ url _ _ w t Ht)
    by (rewrite Hr; exact Htime).
  unfold catch. fold context1.
  rewrite (requestAttempt_responds url context1 w t dt r Ht Hr).
  unfold response_ok. rewrite Hst.
  change ((200 <=? 401)%Z && (401 <=? 299)%Z) with false.
  change (401 =? 401)%Z with true. cbv iota. fold err.
  set (w1 := set_rateLimitState
               (Some (rateLimitState_of_headers (headers r)))
               (advance dt (emit (EvApiRequest url (token t))
                                 (count_api_request w)))).
  set (w1' := emit (EvLog (LogHandleError err context1)) w1).
  assert (Hauth : exists w1'',
             authenticate (S hfuel) w1' = (Ok granted, w1'')
             /\ this_token w1'' = Some granted
             /\ tokenRequests w1'' = S (tokenRequests w)
             /\ apiRequests w1'' = S (apiRequests w)
             /\ sleeps (trace w1'') = sleeps (trace w)
             /\ clock w1'' = clock w + dt + dt').
  { rewrite (authenticate_expired (S hfuel) w1' t Ht Hexp).
    unfold refresh, bind at 1.
    rewrite (requestOAuth2Token_first_try hfuel w1' dt' r' b
               Hfactor Hr' Htime' Hok' Hb').
    unfold bind, modify, ret. cbv beta iota.
    eexists. split; [reflexivity|]. simpl.
    rewrite !sleeps_app. simpl. rewrite !app_nil_r.
    repeat split. }
  destruct Hauth as (w1'' & Hauth & Htok & Htr & Har & Hsl & Hck).
  unfold bind at 1.
  assert (Hh : requestHandleError (S hfuel) err context1 w1
               = (Ok context1,
                  emit (EvLog (LogRequestRecoverable context1 err)) w1''))
    by exact (requestHandleError_401_authenticates (S hfuel)
                {| err_status := 401; err_statusText := statusText r;
                   err_endpoint := ResourceEndpoint url |}
                context1 w1 w1'' granted eq_refl
                (Hnum : (attemptNum context1 <= 1)%Z) Hauth).
  rewrite Hh.
  set (w2 := emit (EvLog (LogRequestRecoverable context1 err)) w1'').
  exists w2.
  replace (aborted context1) with false
    by (unfold context1; simpl; symmetry; exact Hab).
  rewrite orb_false_l.
  split.
  - destruct (attemptsRemaining context1 =? 0)%Z; reflexivity.
  - unfold w2. simpl. rewrite sleeps_app. simpl. rewrite app_nil_r.
    repeat split; assumption.
Qed.

(** ** Failures without a status *)

(** X12.  A network fault, and a success reply whose body does not parse,
    both surface as an error without status when they settle before the
    timer of the attempt fires; the handler of a resource request neither
    aborts on it nor re-authenticates nor waits for the rate limit: the
    retry policy alone decides (rethrow when no attempt remains, else
    backoff and next attempt).  The unparsable reply has still updated
    the rate-limit state; the network fault has not. *)
Theorem failures_without_status_are_retried :
  forall (fuel hfuel : nat) (url : Url) (options : AttemptOptions)
         (context : AttemptContext) (w : W) (t : OAuth2Token),
    aborted context = false ->
    this_token w = Some t ->
    let context1 := consumeAttempt context in
    let logged (w1 : W) :=
      emit (EvLog (LogRequestRecoverable context1 FetchError))
           (emit (EvLog (LogHandleError FetchError context1)) w1) in
    let decided (w2 : W) :=
      if (attemptsRemaining context1 =? 0)%Z
      then (Throw FetchError, w2)
      else (awaitDelay (defaultCalculateDelay (nextAttempt context1)
                                              options) ;;
            makeAttempt fuel (requestAttempt url)
                        (requestHandleError hfuel) options
                        (nextAttempt context1)) w2 in
    (forall dt,
        apiServer w (apiRequests w) = NetworkFault dt ->
        settlesInTime options dt ->
        makeAttempt (S fuel) (requestAttempt url)
                    (requestHandleError hfuel) options context w
        = decided (logged (advance dt
                             (emit (EvApiRequest url (token t))
                                   (count_api_request w)))))
    /\ (forall dt r,
          apiServer w (apiRequests w) = Responds dt r ->
          settlesInTime options dt ->
          response_ok r = true ->
          body r = None ->
          makeAttempt (S fuel) (requestAttempt url)
                      (requestHandleError hfuel) options context w
          = decided (logged (set_rateLimitState
                               (Some (rateLimitState_of_headers (headers r)))
                               (advance dt
                                  (emit (EvApiRequest url (token t))
                                        (count_api_request w)))))).
Proof.
  intros fuel hfuel url options context w t Hab Ht context1 logged decided.
  assert (Hab1 : aborted context1 = false) by exact Hab.
  split.
  - intros dt Hr Htime.
    rewrite makeAttempt_S, Hab.
    rewrite (requestAttempt_in_time _ url _ _ w t Ht)
      by (rewrite Hr; exact Htime).
    unfold catch. fold context1.
    unfold requestAttempt at 1, bind at 1, gets at 1. cbv beta iota.
    rewrite Ht. unfold bind at 1, fetch_api. cbv beta iota zeta.
    rewrite Hr.
    unfold bind at 1.
    rewrite (requestHandleError_plain hfuel FetchError context1 _
               eq_refl eq_refl eq_refl).
    rewrite Hab1, orb_false_l. unfold decided, logged.
    destruct (attemptsRemaining context1 =? 0)%Z; reflexivity.
  - intros dt r Hr Htime Hok Hb.
    rewrite makeAttempt_S, Hab.
    rewrite (requestAttempt_in_time _ url _ _ w t Ht)
      by (rewrite Hr; exact Htime).
    unfold catch. fold context1.
    rewrite (requestAttempt_responds url context1 w t dt r Ht Hr), Hok, Hb.
    unfold bind at 1.
    rewrite (requestHandleError_plain hfuel FetchError context1 _
               eq_refl eq_refl eq_refl).
    rewrite Hab1, orb_false_l. unfold decided, logged.
    destruct (attemptsRemaining context1 =? 0)%Z; reflexivity.
Qed.

(** ** Failures that exhaust the attempts *)

Lemma awaitDelay_run (d : Z) (w : W) :
  exists w',
    awaitDelay d w = (Ok tt, w')
    /\ sleeps (trace w')
       = sleeps (trace w) ++ (if (d =? 0)%Z then [] else [Num (inject_Z d)])
    /\ this_token w' = this_token w
    /\ apiServer w' = apiServer w
    /\ apiRequests w' = apiRequests w
    /\ tokenRequests w' = tokenRequests w.
Proof.
  unfold awaitDelay. destruct (d =? 0)%Z.
  - exists w. rewrite app_nil_r. repeat split.
  - eexists. split; [reflexivity|]. simpl. rewrite sleeps_app.
    repeat split.
Qed.

(** One attempt of a resource request that meets a plain failure. *)
Lemma makeAttempt_plain_failure (fuel hfuel : nat) (u : Url)
    (options : AttemptOptions) (context : AttemptContext) (w : W)
    (t : OAuth2Token) (dt : Q) (r : Response (ResourcesResponse Resource)) :
  aborted context = false ->
  (0 < attemptsRemaining context)%Z ->
  this_token w = Some t ->
  apiServer w (apiRequests w) = Responds dt r ->
  settlesInTime options dt ->
  plainFailure (Responds dt r) ->
  let context1 := consumeAttempt context in
  let err := IntegrationProviderAPIError
               {| err_status := status r; err_statusText := statusText r;
                  err_endpoint := ResourceEndpoint u |} in
  let w2 := emit (EvLog (LogRequestRecoverable context1 err))
              (emit (EvLog (LogHandleError err context1))
                 (set_rateLimitState
                    (Some (rateLimitState_of_headers (headers r)))
                    (advance dt (emit (EvApiRequest u (token t))
                                      (count_api_request w))))) in
  attemptsRemaining context1 = (attemptsRemaining context - 1)%Z
  /\ aborted context1 = false
  /\ makeAttempt (S fuel) (requestAttempt u) (requestHandleError hfuel)
                 options context w
     = if (attemptsRemaining context1 =? 0)%Z
       then (Throw err, w2)
       else (awaitDelay (defaultCalculateDelay (nextAttempt context1)
                                               options) ;;
             makeAttempt fuel (requestAttempt u) (requestHandleError hfuel)
                         options (nextAttempt context1)) w2.
Proof.
  intros Hab Hpos Ht Hr Htime (Hok & H401 & H403 & H429) context1 err w2.
  assert (Hrem1 : attemptsRemaining context1
                  = (attemptsRemaining context - 1)%Z).
  { unfold context1, consumeAttempt. simpl.
    destruct (0 <? attemptsRemaining context)%Z eqn:E; [reflexivity|].
    apply Z.ltb_ge in E. lia. }
  assert (Hab1 : aborted context1 = false) by exact Hab.
  split; [exact Hrem1|]. split; [exact Hab1|].
  rewrite makeAttempt_S, Hab.
  rewrite (requestAttempt_in_time _ u _ _ w t Ht)
    by (rewrite Hr; exact Htime).
  unfold catch. fold context1.
  rewrite (requestAttempt_responds u context1 w t dt r Ht Hr), Hok.
  apply Z.eqb_neq in H401. apply Z.eqb_neq in H403.
  apply Z.eqb_neq in H429.
  rewrite H401, H403. fold err.
  unfold bind at 1.
  rewrite (requestHandleError_plain hfuel err context1 _
             (H401 : status_is err 401 = false)
             (H403 : status_is err 403 = false)
             (H429 : status_is err 429 = false)).
  fold w2. rewrite Hab1, orb_false_l.
  destruct (attemptsRemaining context1 =? 0)%Z; reflexivity.
Qed.

(** The attempt loop of a resource request against a server that keeps
    answering with plain failures. *)
Lemma makeAttempt_exhausts (hfuel : nat) (u : Url)
    (options : AttemptOptions) (t : OAuth2Token) :
  forall (k fuel : nat) (context : AttemptContext) (w : W),
    aborted context = false ->
    attemptsRemaining context = Z.of_nat (S k) ->
    (S k <= fuel)%nat ->
    this_token w = Some t ->
    (forall i, (i <= k)%nat ->
               plainFailure (apiServer w (apiRequests w + i)%nat)) ->
    (forall i, (i <= k)%nat ->
               settlesInTime
                 options
                 (replyLatency (apiServer w (apiRequests w + i)%nat))) ->
    exists w' dt r,
      makeAttempt fuel (requestAttempt u) (requestHandleError hfuel)
                  options context w
      = (Throw (IntegrationProviderAPIError
                  {| err_status := status r;
                     err_statusText := statusText r;
                     err_endpoint := ResourceEndpoint u |}), w')
      /\ apiServer w (apiRequests w + k)%nat = Responds dt r
      /\ apiRequests w' = (apiRequests w + S k)%nat
      /\ tokenRequests w' = tokenRequests w
      /\ this_token w' = Some t
      /\ sleeps (trace w')
         = sleeps (trace w) ++ backoffWaits options context k.
Proof.
  induction k as [|k IH];
    intros fuel context w Hab Hrem Hfuel Ht Hfail Hintime.
  - destruct fuel as [|fuel]; [lia|].
    pose proof (Hfail 0%nat (Nat.le_0_l _)) as H0.
    pose proof (Hintime 0%nat (Nat.le_0_l _)) as T0.
    rewrite Nat.add_0_r in H0, T0.
    destruct (apiServer w (apiRequests w)) as [dt r|dt] eqn:Hr;
      [|contradiction].
    destruct (makeAttempt_plain_failure fuel hfuel u options context w
                t dt r Hab ltac:(lia) Ht Hr T0 H0) as (Hrem1 & _ & Hrun).
    rewrite Hrun, Hrem1, Hrem.
    change (Z.of_nat 1 - 1 =? 0)%Z with true. cbv iota.
    eexists. exists dt, r. split; [reflexivity|].
    rewrite Nat.add_0_r. split; [exact Hr|].
    simpl. rewrite !sleeps_app. simpl. rewrite !app_nil_r.
    repeat split; [lia | exact Ht].
  - destruct fuel as [|fuel]; [lia|].
    pose proof (Hfail 0%nat (Nat.le_0_l _)) as H0.
    pose proof (Hintime 0%nat (Nat.le_0_l _)) as T0.
    rewrite Nat.add_0_r in H0, T0.
    destruct (apiServer w (apiRequests w)) as [dt r|dt] eqn:Hr;
      [|contradiction].
    destruct (makeAttempt_plain_failure fuel hfuel u options context w
                t dt r Hab ltac:(lia) Ht Hr T0 H0) as (Hrem1 & Hab1 & Hrun).
    rewrite Hrun.
    set (context1 := consumeAttempt context) in *.
    set (err := IntegrationProviderAPIError
                  {| err_status := status r; err_statusText := statusText r;
                     err_endpoint := ResourceEndpoint u |}) in *.
    set (w2 := emit (EvLog (LogRequestRecoverable context1 err)) _) in *.
    replace (attemptsRemaining context1 =? 0)%Z with false
      by (symmetry; apply Z.eqb_neq; rewrite Hrem1; lia).
    unfold bind at 1.
    destruct (awaitDelay_run
                (defaultCalculateDelay (nextAttempt context1) options) w2)
      as (w3 & Hd & Hsl3 & Ht3 & Hsrv3 & Hreq3 & Htr3).
    rewrite Hd.
    assert (Hreq2 : apiRequests w2 = S (apiRequests w)) by reflexivity.
    assert (Htr2 : tokenRequests w2 = tokenRequests w) by reflexivity.
    assert (Hsrv2 : apiServer w2 = apiServer w) by reflexivity.
    assert (Ht2 : this_token w2 = this_token w) by reflexivity.
    assert (Hsl2 : sleeps (trace w2) = sleeps (trace w)).
    { unfold w2. simpl. rewrite !sleeps_app. simpl.
      rewrite !app_nil_r. reflexivity. }
    destruct (IH fuel (nextAttempt context1) w3) as
        (w' & dt' & r' & Hrun' & Hlast & Hreq & Htr & Htok & Hsl).
    + exact Hab1.
    + change (attemptsRemaining (nextAttempt context1))
        with (attemptsRemaining context1).
      rewrite Hrem1. lia.
    + lia.
    + rewrite Ht3, Ht2. exact Ht.
    + intros i Hi. rewrite Hsrv3, Hreq3, Hsrv2, Hreq2.
      replace (S (apiRequests w) + i)%nat with (apiRequests w + S i)%nat
        by lia.
      apply Hfail. lia.
    + intros i Hi. rewrite Hsrv3, Hreq3, Hsrv2, Hreq2.
      replace (S (apiRequests w) + i)%nat with (apiRequests w + S i)%nat
        by lia.
      apply Hintime. lia.
    + exists w', dt', r'. split; [exact Hrun'|].
      rewrite Hsrv3, Hreq3, Hsrv2, Hreq2 in Hlast.
      replace (S (apiRequests w) + k)%nat with (apiRequests w + S k)%nat
        in Hlast by lia.
      split; [exact Hlast|].
      rewrite Hreq, Htr, Hsl, Hsl3, Hreq3, Htr3, Hreq2, Htr2, Hsl2.
      simpl backoffWaits. fold context1. rewrite <- app_assoc.
      repeat split; [lia | exact Htok].
Qed.

(** X13.  Against a server that keeps answering with plain failures (a
    status that is not a success and none of 401, 403, 429), each
    arriving before the timer of its attempt fires, a client holding an
    unexpired token sends exactly [maxAttempts] requests, waits between
    them as the backoff policy computes, requests no token, and throws
    the [IntegrationProviderAPIError] of the last reply. *)
Theorem plain_failures_exhaust_the_attempts :
  forall (k fuel : nat) (u : Url) (w : W) (t : OAuth2Token),
    this_token w = Some t ->
    clock w < expiresAt t ->
    0 <= factor (this_attemptOptions w) ->
    maxAttempts (this_attemptOptions w) = N.of_nat (S k) ->
    (S k <= fuel)%nat ->
    (forall i, (i <= k)%nat ->
               plainFailure (apiServer w (apiRequests w + i)%nat)) ->
    (forall i, (i <= k)%nat ->
               settlesInTime
                 (this_attemptOptions w)
                 (replyLatency (apiServer w (apiRequests w + i)%nat))) ->
    exists w' dt r,
      executeAPIRequestWithRetries fuel u w
      = (Throw (IntegrationProviderAPIError
                  {| err_status := status r;
                     err_statusText := statusText r;
                     err_endpoint := ResourceEndpoint u |}), w')
      /\ apiServer w (apiRequests w + k)%nat = Responds dt r
      /\ apiRequests w' = (apiRequests w + S k)%nat
      /\ tokenRequests w' = tokenRequests w
      /\ sleeps (trace w')
         = sleeps (trace w)
           ++ backoffWaits (this_attemptOptions w)
                           (initialContext (this_attemptOptions w)) k.
Proof.
  intros k fuel u w t Ht Hvalid Hfactor Hmax Hfuel Hfail Hintime.
  unfold executeAPIRequestWithRetries, bind at 1.
  rewrite (authenticate_valid _ _ _ Ht Hvalid).
  unfold bind, gets. cbv beta iota. unfold retry.
  apply Qle_bool_iff in Hfactor. rewrite Hfactor.
  change (negb true) with false. cbv iota.
  destruct (makeAttempt_exhausts fuel u (this_attemptOptions w) t k fuel
              (initialContext (this_attemptOptions w)) w)
    as (w' & dt & r & Hrun & Hlast & Hreq & Htr & _ & Hsl).
  - reflexivity.
  - unfold initialContext. simpl. rewrite Hmax.
    destruct (N.of_nat (S k) =? 0)%N eqn:E.
    + apply N.eqb_eq in E. lia.
    + lia.
  - exact Hfuel.
  - exact Ht.
  - exact Hfail.
  - exact Hintime.
  - exists w', dt, r. repeat split; assumption.
Qed.

(** ** A reply slower than the timer of its attempt *)




(** ** Listing devices *)

(** An iteration of the pagination loop, from the outcome of its request
    and of its page handler. *)
Lemma paginateIteration_run (rfuel : nat)
    (callback : list Resource -> M Resource unit)
    (resourcePath : string) (query : option QueryParams)
    (seen : Z) (params : option PaginationMeta)
    (w w1 w2 : W) (resp : ResourcesResponse Resource)
    (o : Outcome unit) :
  let url := pageUrl resourcePath query params in
  executeAPIRequestWithRetries rfuel url
    (emit (EvLog (LogRequestUrl url params)) w) = (Ok resp, w1) ->
  callback (resources resp) (snd (logResponseErrors resp w1)) = (o, w2) ->
  let seen' := (seen + Z.of_nat (List.length (resources resp)))%Z in
  let tot := total (meta_pagination resp) in
  let fin := (seen' =? 0)%Z || seen_ge_total seen' tot in
  paginateIteration rfuel callback resourcePath query seen params w
  = match o with
    | Ok _ =>
      (Ok {| loop_seen := seen';
             loop_paginationParams := Some (meta_pagination resp);
             loop_finished := fin |},
       emit (EvLog (LogPaginationState seen' tot fin))
            (emit (EvLog (LogPaginationResponse
                            (meta_pagination resp)
                            (Z.of_nat (List.length (resources resp)))))
                  w2))
    | Throw e => (Throw e, w2)
    | OutOfFuel => (OutOfFuel, w2)
    end.
Proof.
  intros url Hexec Hcb seen' tot fin.
  unfold paginateIteration. fold url.
  unfold bind at 1, log at 1, modify. cbv beta iota.
  unfold bind at 1. rewrite Hexec.
  unfold bind at 1.
  assert (Hlog : exists w1', logResponseErrors resp w1 = (Ok tt, w1')).
  { unfold logResponseErrors. destruct (errors resp) as [[|e errs]|];
      eexists; reflexivity. }
  destruct Hlog as (w1' & Hlog). rewrite Hlog in *. simpl snd in Hcb.
  unfold bind at 1. rewrite Hcb.
  destruct o as [[]| |]; reflexivity.
Qed.

(** X14.  [iterateDevices] on an empty first page of identifiers: the run
    returns after the one listing request, sends no request for device
    records, and never invokes the caller's callback -- the run is the same
    whatever callback is given. *)
Theorem iterateDevices_skips_an_empty_page :
  forall (deviceId : Resource -> ParamValue) (fuel rfuel : nat)
         (callback : list Resource -> M Resource unit)
         (query : option QueryParams) (w w1 : W)
         (page : ResourcesResponse Resource),
    let url := pageUrl "/devices/queries/devices-scroll/v1" query None in
    executeAPIRequestWithRetries rfuel url
      (emit (EvLog (LogRequestUrl url None)) w) = (Ok page, w1) ->
    resources page = [] ->
    exists w',
      iterateDevices deviceId (S fuel) rfuel callback query w = (Ok tt, w')
      /\ apiRequests w' = apiRequests w1
      /\ tokenRequests w' = tokenRequests w1
      /\ forall callback',
          iterateDevices deviceId (S fuel) rfuel callback' query w
          = (Ok tt, w').
Proof.
  intros deviceId fuel rfuel callback query w w1 page url Hexec Hnil.
  assert (Hrun : forall cb,
             iterateDevices deviceId (S fuel) rfuel cb query w
             = (Ok tt,
                emit (EvLog (LogPaginationState
                               0 (total (meta_pagination page)) true))
                     (emit (EvLog (LogPaginationResponse
                                     (meta_pagination page) 0))
                           (snd (logResponseErrors page w1))))).
  { intro cb. unfold iterateDevices, paginateResources.
    rewrite paginateLoop_S. unfold bind at 1.
    rewrite (paginateIteration_run rfuel (hydrateDevices deviceId rfuel cb)
               "/devices/queries/devices-scroll/v1" query 0%Z None
               w w1 (snd (logResponseErrors page w1)) page (Ok tt) Hexec).
    - rewrite Hnil. reflexivity.
    - rewrite Hnil. reflexivity. }
  eexists. split; [apply Hrun|].
  split; [|split; [|intro cb'; apply Hrun]].
  - unfold logResponseErrors.
    destruct (errors page) as [[|e errs]|]; reflexivity.
  - unfold logResponseErrors.
    destruct (errors page) as [[|e errs]|]; reflexivity.
Qed.

(** X15.  [iterateDevices] on a page of identifiers that is not empty:
    the identifiers are sent, one [ids] parameter each and in their order,
    to the device-entities endpoint.  If that request returns, the
    caller's callback receives the records of its reply and [seen] grows
    by the number of identifiers listed (not of records received); if it
    throws, the iteration throws the same error and the callback is not
    invoked. *)
Theorem iterateDevices_hydrates_a_page :
  forall (deviceId : Resource -> ParamValue) (rfuel : nat)
         (callback : list Resource -> M Resource unit)
         (resourcePath : string) (query : option QueryParams)
         (seen : Z) (cursor : option PaginationMeta)
         (w w1 : W) (page : ResourcesResponse Resource)
         (id : Resource) (ids : list Resource),
    let url := pageUrl resourcePath query cursor in
    executeAPIRequestWithRetries rfuel url
      (emit (EvLog (LogRequestUrl url cursor)) w) = (Ok page, w1) ->
    resources page = id :: ids ->
    let w1' := snd (logResponseErrors page w1) in
    let devicesUrl := devicesEntitiesUrl deviceId (id :: ids) in
    path devicesUrl = "/devices/entities/devices/v1"%string
    /\ List.map snd (params devicesUrl) = List.map deviceId (id :: ids)
    /\ Forall (fun kv => fst kv = "ids"%string) (params devicesUrl)
    /\ (forall devices w2 w3,
          executeAPIRequestWithRetries rfuel devicesUrl w1'
          = (Ok devices, w2) ->
          callback (resources devices) w2 = (Ok tt, w3) ->
          exists st w',
            paginateIteration rfuel (hydrateDevices deviceId rfuel callback)
                              resourcePath query seen cursor w
            = (Ok st, w')
            /\ loop_seen st
               = (seen + Z.of_nat (List.length (id :: ids)))%Z
            /\ apiRequests w' = apiRequests w3)
    /\ (forall e w2 callback',
          executeAPIRequestWithRetries rfuel devicesUrl w1' = (Throw e, w2) ->
          paginateIteration rfuel (hydrateDevices deviceId rfuel callback')
                            resourcePath query seen cursor w
          = (Throw e, w2)).
Proof.
  intros deviceId rfuel callback resourcePath query seen cursor
         w w1 page id ids url Hexec Hpage w1' devicesUrl.
  split; [reflexivity|]. split; [|split; [|split]].
  - unfold devicesUrl, devicesEntitiesUrl.
    cbn [params]. rewrite List.map_map. reflexivity.
  - unfold devicesUrl, devicesEntitiesUrl.
    cbn [params]. apply Forall_map. apply Forall_forall.
    intros x _. reflexivity.
  - intros devices w2 w3 Hhyd Hcb.
    eexists. eexists.
    rewrite (paginateIteration_run rfuel
               (hydrateDevices deviceId rfuel callback)
               resourcePath query seen cursor w w1 w3 page (Ok tt) Hexec).
    + split; [reflexivity|]. rewrite Hpage. split; reflexivity.
    + rewrite Hpage. unfold hydrateDevices, fetchDevices.
      fold devicesUrl. fold w1'.
      unfold bind at 1, bind at 1. rewrite Hhyd.
      unfold ret at 1. exact Hcb.
  - intros e w2 callback' Hhyd.
    rewrite (paginateIteration_run rfuel
               (hydrateDevices deviceId rfuel callback')
               resourcePath query seen cursor w w1 w2 page (Throw e) Hexec).
    + reflexivity.
    + rewrite Hpage. unfold hydrateDevices, fetchDevices.
      fold devicesUrl. fold w1'.
      unfold bind at 1, bind at 1. rewrite Hhyd. reflexivity.
Qed.

(** ** Where the requests go *)

Section Sends.
Variable P : Url -> Prop.

Lemma sends_nothing {A} (m : M Resource A) :
  (forall w r w', m w = (r, w') -> trace w' = trace w) ->
  sends P m.
Proof.
  intros H w r w' Hm. exists []. rewrite app_nil_r.
  split; [exact (H _ _ _ Hm) | constructor].
Qed.

Lemma sends_ret {A} (a : A) : sends P (@ret Resource A a).
Proof. apply sends_nothing. intros w r w' H. injection H as _ <-. reflexivity. Qed.

Lemma sends_throw {A} (e : Error) : sends P (@throw Resource A e).
Proof. apply sends_nothing. intros w r w' H. injection H as _ <-. reflexivity. Qed.

Lemma sends_gets {A} (f : W -> A) : sends P (gets f).
Proof. apply sends_nothing. intros w r w' H. injection H as _ <-. reflexivity. Qed.

Lemma sends_modify (f : W -> W) :
  (forall w, trace (f w) = trace w) -> sends P (modify f).
Proof.
  intro Hf. apply sends_nothing. intros w r w' H.
  injection H as _ <-. apply Hf.
Qed.

Lemma sends_bind {A B} (m : M Resource A) (k : A -> M Resource B) :
  sends P m -> (forall a, sends P (k a)) -> sends P (bind m k).
Proof.
  intros Hm Hk w r w' H. unfold bind in H.
  destruct (m w) as [[a|e|] w1] eqn:E;
    destruct (Hm _ _ _ E) as (added & Htr & Hall).
  - destruct (Hk a _ _ _ H) as (added' & Htr' & Hall').
    exists (added ++ added'). rewrite Htr', Htr, app_assoc.
    split; [reflexivity | apply Forall_app; split; assumption].
  - injection H as _ <-. exists added. split; assumption.
  - injection H as _ <-. exists added. split; assumption.
Qed.

Lemma sends_catch {A} (m : M Resource A) (h : Error -> M Resource A) :
  sends P m -> (forall e, sends P (h e)) -> sends P (catch m h).
Proof.
  intros Hm Hh w r w' H. unfold catch in H.
  destruct (m w) as [[a|e|] w1] eqn:E;
    destruct (Hm _ _ _ E) as (added & Htr & Hall).
  - injection H as _ <-. exists added. split; assumption.
  - destruct (Hh e _ _ _ H) as (added' & Htr' & Hall').
    exists (added ++ added'). rewrite Htr', Htr, app_assoc.
    split; [reflexivity | apply Forall_app; split; assumption].
  - injection H as _ <-. exists added. split; assumption.
Qed.

Lemma sends_withTimeout {A} (options : AttemptOptions)
    (m : M Resource A) (h : Error -> M Resource A) :
  sends P m -> (forall e, sends P (h e)) ->
  sends P (withTimeout options m h).
Proof.
  intros Hm Hh w r w' H. unfold withTimeout in H.
  destruct (m w) as [o w1] eqn:E.
  destruct (timerFiresFirst options (clock w) (clock w1)).
  - injection H as _ <-. exact (Hm _ _ _ E).
  - destruct o as [a|e|].
    + injection H as _ <-. exact (Hm _ _ _ E).
    + destruct (Hm _ _ _ E) as (a1 & H1 & P1).
      destruct (Hh e _ _ _ H) as (a2 & H2 & P2).
      exists (a1 ++ a2). split.
      * rewrite H2, H1, app_assoc. reflexivity.
      * apply Forall_app. split; assumption.
    + injection H as _ <-. exact (Hm _ _ _ E).
Qed.

Lemma sends_log (r : LogRecord) : sends P (@log Resource r).
Proof.
  intros w o w' H. injection H as _ <-.
  exists [EvLog r]. split; [reflexivity|].
  repeat constructor.
Qed.

Lemma sends_sleep (ms : JsNumber) : sends P (@sleep Resource ms).
Proof.
  intros w o w' H. injection H as _ <-.
  exists [EvSleep ms]. split; [reflexivity|].
  repeat constructor.
Qed.

Lemma sends_awaitDelay (d : Z) : sends P (@awaitDelay Resource d).
Proof.
  unfold awaitDelay. destruct (d =? 0)%Z;
    [apply sends_ret | apply sends_sleep].
Qed.

Lemma sends_fetch_token (c : OAuth2ClientCredentials) :
  sends P (@fetch_token Resource c).
Proof.
  intros w o w' H. unfold fetch_token in H.
  exists [EvTokenRequest c].
  destruct (tokenServer w (tokenRequests w)) as [dt r|dt];
    injection H as _ <-; (split; [reflexivity | repeat constructor]).
Qed.

Lemma sends_fetch_api (u : Url) (b : string) :
  P u -> sends P (@fetch_api Resource u b).
Proof.
  intros Hu w o w' H. unfold fetch_api in H.
  exists [EvApiRequest u b].
  destruct (apiServer w (apiRequests w)) as [dt r|dt];
    injection H as _ <-;
    (split; [reflexivity | repeat constructor; exact Hu]).
Qed.

Lemma sends_makeAttempt {A}
    (attemptFunc : AttemptContext -> M Resource A)
    (handleError : Error -> AttemptContext -> M Resource AttemptContext)
    (options : AttemptOptions) :
  (forall c, sends P (attemptFunc c)) ->
  (forall e c, sends P (handleError e c)) ->
  forall fuel context,
    sends P (makeAttempt fuel attemptFunc handleError options context).
Proof.
  intros Ha Hh. induction fuel as [|fuel IH]; intro context.
  - apply sends_nothing. intros w r w' H. injection H as _ <-.
    reflexivity.
  - rewrite makeAttempt_S. destruct (aborted context).
    + apply sends_throw.
    + apply sends_withTimeout; [apply Ha|].
      intro err. apply sends_bind; [apply Hh|].
      intro c. destruct (aborted c || (attemptsRemaining c =? 0)%Z).
      * apply sends_throw.
      * apply sends_bind; [apply sends_awaitDelay|].
        intros _. apply IH.
Qed.

Lemma sends_retry {A} (fuel : nat)
    (attemptFunc : AttemptContext -> M Resource A)
    (handleError : Error -> AttemptContext -> M Resource AttemptContext)
    (options : AttemptOptions) :
  (forall c, sends P (attemptFunc c)) ->
  (forall e c, sends P (handleError e c)) ->
  sends P (retry fuel attemptFunc handleError options).
Proof.
  intros Ha Hh. unfold retry.
  destruct (negb (Qle_bool 0 (factor options))).
  - apply sends_throw.
  - apply sends_makeAttempt; assumption.
Qed.

Lemma sends_authenticate (fuel : nat) :
  sends P (@authenticate Resource fuel).
Proof.
  assert (Hrefresh : sends P (@refresh Resource fuel)).
  { unfold refresh, requestOAuth2Token.
    apply sends_bind.
    - apply sends_bind; [apply sends_log|]. intros _.
      apply sends_bind; [apply sends_gets|]. intro o.
      apply sends_bind.
      + apply sends_retry.
        * intro c. unfold authRequestAttempt.
          apply sends_bind; [apply sends_gets|]. intro cr.
          apply sends_bind; [apply sends_fetch_token|]. intro r.
          destruct (response_ok r); [|apply sends_throw].
          unfold json. destruct (body r);
            [apply sends_ret | apply sends_throw].
        * intros e c. unfold authHandleError.
          destruct (error_fields e) as [f|].
          -- destruct (err_status f =? 403)%Z; [apply sends_throw|].
             apply sends_bind; [apply sends_log|].
             intros _. apply sends_ret.
          -- apply sends_bind; [apply sends_log|].
             intros _. apply sends_ret.
      + intro resp.
        apply sends_bind; [apply sends_gets|]. intro now.
        apply sends_bind; [apply sends_log|]. intros _.
        apply sends_ret.
    - intro t. apply sends_bind.
      + apply sends_modify. reflexivity.
      + intros _. apply sends_ret. }
  unfold authenticate.
  apply sends_bind; [apply sends_gets|]. intros [t|].
  - apply sends_bind.
    + unfold isValidToken. apply sends_bind; [apply sends_gets|].
      intro now. apply sends_ret.
    + intros []; [apply sends_ret | exact Hrefresh].
  - exact Hrefresh.
Qed.

Lemma sends_handle429Error : sends P (@handle429Error Resource).
Proof.
  assert (Hget : sends P (@getRateLimitState Resource)).
  { unfold getRateLimitState.
    apply sends_bind; [apply sends_gets|]. intros [st|];
      [apply sends_ret | apply sends_throw]. }
  unfold handle429Error.
  apply sends_bind; [apply sends_gets|]. intro now.
  apply sends_bind; [exact Hget|]. intro st.
  apply sends_bind; [apply sends_gets|]. intro cfg.
  apply sends_bind; [apply sends_log|]. intros _.
  apply sends_bind; [apply sends_sleep|]. intros _.
  apply sends_bind; [exact Hget|]. intro st'.
  destruct (needsCooldown st' cfg).
  - apply sends_bind; [apply sends_log|]. intros _. apply sends_sleep.
  - apply sends_ret.
Qed.

Lemma sends_executeAPIRequestWithRetries (fuel : nat) (u : Url) :
  P u -> sends P (@executeAPIRequestWithRetries Resource fuel u).
Proof.
  intro Hu. unfold executeAPIRequestWithRetries.
  apply sends_bind; [apply sends_authenticate|]. intros _.
  apply sends_bind; [apply sends_gets|]. intro o.
  apply sends_retry.
  - intro c. unfold requestAttempt.
    apply sends_bind; [apply sends_gets|]. intros [t|];
      [|apply sends_throw].
    apply sends_bind; [apply sends_fetch_api; exact Hu|]. intro r.
    apply sends_bind; [apply sends_modify; reflexivity|]. intros _.
    destruct (response_ok r).
    + unfold json. destruct (body r);
        [apply sends_ret | apply sends_throw].
    + destruct (status r =? 401)%Z; [apply sends_throw|].
      destruct (status r =? 403)%Z; apply sends_throw.
  - intros e c. unfold requestHandleError.
    apply sends_bind; [apply sends_log|]. intros _.
    apply sends_bind.
    { destruct (status_is e 401); [|apply sends_ret].
      destruct (1 <? attemptNum c)%Z; [apply sends_ret|].
      apply sends_bind; [apply sends_authenticate|].
      intros _. apply sends_ret. }
    intro c'.
    apply sends_bind.
    { destruct (status_is e 429);
        [apply sends_handle429Error | apply sends_ret]. }
    intros _.
    apply sends_bind; [apply sends_log|]. intros _.
    apply sends_ret.
Qed.

Lemma sends_paginateLoop (rfuel : nat)
    (callback : list Resource -> M Resource unit)
    (resourcePath : string) (query : option QueryParams) :
  (forall cursor, P (pageUrl resourcePath query cursor)) ->
  (forall l, sends P (callback l)) ->
  forall fuel seen cursor,
    sends P (paginateLoop fuel rfuel callback resourcePath query
                          seen cursor).
Proof.
  intros Hu Hcb. induction fuel as [|fuel IH]; intros seen cursor.
  - apply sends_nothing. intros w r w' H. injection H as _ <-.
    reflexivity.
  - rewrite paginateLoop_S. apply sends_bind.
    + unfold paginateIteration.
      apply sends_bind; [apply sends_log|]. intros _.
      apply sends_bind;
        [apply sends_executeAPIRequestWithRetries, Hu|]. intro resp.
      apply sends_bind.
      { unfold logResponseErrors.
        destruct (errors resp) as [[|e errs]|];
          [apply sends_ret | apply sends_log | apply sends_ret]. }
      intros _.
      apply sends_bind; [apply Hcb|]. intros _.
      apply sends_bind; [apply sends_log|]. intros _.
      apply sends_bind; [apply sends_log|]. intros _.
      apply sends_ret.
    + intro st. destruct (loop_finished st); [apply sends_ret | apply IH].
Qed.

End Sends.

Lemma sends_weaken (P Q : Url -> Prop) {A} (m : M Resource A) :
  (forall u, P u -> Q u) -> sends P m -> sends Q m.
Proof.
  intros HPQ Hm w r w' H.
  destruct (Hm _ _ _ H) as (added & Htr & Hall).
  exists added. split; [exact Htr|].
  unfold requestsOnly in *. eapply Forall_impl; [|exact Hall].
  intros [c|u b|ms|l]; simpl; auto.
Qed.

(** X16.  Whatever the servers answer and however the call ends, the
    resource requests sent by [executeAPIRequestWithRetries] for a URL all
    go to that URL: retries, re-authentication and rate-limit waits
    never change the address. *)
Theorem every_attempt_requests_the_same_url :
  forall (fuel : nat) (u : Url) (w : W),
    exists added,
      trace (snd (executeAPIRequestWithRetries fuel u w)) = trace w ++ added
      /\ requestsOnly (fun u' => u' = u) added.
Proof.
  intros fuel u w.
  destruct (executeAPIRequestWithRetries fuel u w) as [r w'] eqn:E.
  exact (sends_executeAPIRequestWithRetries (fun u' => u' = u) fuel u
           eq_refl w r w' E).
Qed.

(** X17.  Every resource request of a pagination run goes to the resource
    path and carries, after whatever cursor parameters it has, all the
    static query parameters in their order -- provided the page handler
    sends no resource request of its own. *)
Theorem pagination_requests_keep_path_and_query :
  forall (fuel rfuel : nat) (callback : list Resource -> M Resource unit)
         (resourcePath : string) (query : option QueryParams) (w : W),
    (forall l, sends (fun _ => False) (callback l)) ->
    exists added,
      trace (snd (paginateResources fuel rfuel callback resourcePath
                                    query w))
      = trace w ++ added
      /\ requestsOnly
           (fun u =>
              path u = resourcePath
              /\ exists cursorParams,
                  params u
                  = cursorParams
                    ++ match query with Some q => q | None => [] end)
           added.
Proof.
  intros fuel rfuel callback resourcePath query w Hcb.
  destruct (paginateResources fuel rfuel callback resourcePath query w)
    as [r w'] eqn:E.
  unfold paginateResources in E.
  eapply sends_paginateLoop; [| |exact E].
  - intro cursor. split; [reflexivity|].
    unfold pageUrl, toQueryString. cbn [params].
    eexists. reflexivity.
  - intro l. eapply sends_weaken; [|apply Hcb]. intros u [].
Qed.

(** X18.  The three plain iterators request only their own endpoint:
    vulnerabilities, prevention policies, and the members of a prevention
    policy, whose every request ends with the parameter [id] set to the
    policy identifier (provided the callback sends no resource request of
    its own). *)
Theorem named_iterators_request_their_endpoint :
  forall (fuel rfuel : nat) (callback : list Resource -> M Resource unit)
         (w : W),
    (forall l, sends (fun _ => False) (callback l)) ->
    (forall query,
        exists added,
          trace (snd (iterateVulnerabilities fuel rfuel callback query w))
          = trace w ++ added
          /\ requestsOnly
               (fun u => path u = "/spotlight/combined/vulnerabilities/v1")
               added)
    /\ (exists added,
          trace (snd (iteratePreventionPolicies fuel rfuel callback w))
          = trace w ++ added
          /\ requestsOnly
               (fun u => path u = "/policy/combined/prevention/v1") added)
    /\ (forall policyId,
          exists added,
            trace (snd (iteratePreventionPolicyMemberIds
                          fuel rfuel callback policyId w))
            = trace w ++ added
            /\ requestsOnly
                 (fun u =>
                    path u = "/policy/queries/prevention-members/v1"
                    /\ exists cursorParams,
                        params u = cursorParams ++ [("id", PStr policyId)])
                 added).
Proof.
  intros fuel rfuel callback w Hcb.
  assert (Hcb' : forall (Q : Url -> Prop) l, sends Q (callback l)).
  { intros Q l. eapply sends_weaken; [|apply Hcb]. intros u []. }
  split; [|split].
  - intro query.
    destruct (iterateVulnerabilities fuel rfuel callback query w)
      as [r w'] eqn:E.
    unfold iterateVulnerabilities, paginateResources in E.
    eapply sends_paginateLoop; [| |exact E].
    + intro cursor. reflexivity.
    + apply Hcb'.
  - destruct (iteratePreventionPolicies fuel rfuel callback w)
      as [r w'] eqn:E.
    unfold iteratePreventionPolicies, paginateResources in E.
    eapply sends_paginateLoop; [| |exact E].
    + intro cursor. reflexivity.
    + apply Hcb'.
  - intro policyId.
    destruct (iteratePreventionPolicyMemberIds fuel rfuel callback
                                               policyId w)
      as [r w'] eqn:E.
    unfold iteratePreventionPolicyMemberIds, paginateResources in E.
    eapply sends_paginateLoop; [| |exact E].
    + intro cursor. split; [reflexivity|].
      unfold pageUrl, toQueryString. cbn [params].
      eexists. reflexivity.
    + apply Hcb'.
Qed.

(** X19.  [iterateDevices] requests two endpoints only: the scroll
    endpoint, with the caller's query after the cursor parameters, and the
    device-entities endpoint, always with at least one parameter and with
    [ids] parameters only -- it never asks for device records without
    naming any (provided the callback sends no resource request of its
    own). *)
Theorem iterateDevices_never_requests_entities_without_ids :
  forall (deviceId : Resource -> ParamValue) (fuel rfuel : nat)
         (callback : list Resource -> M Resource unit)
         (query : option QueryParams) (w : W),
    (forall l, sends (fun _ => False) (callback l)) ->
    exists added,
      trace (snd (iterateDevices deviceId fuel rfuel callback query w))
      = trace w ++ added
      /\ requestsOnly
           (fun u =>
              (path u = "/devices/queries/devices-scroll/v1"
               /\ exists cursorParams,
                   params u
                   = cursorParams
                     ++ match query with Some q => q | None => [] end)
              \/ (path u = "/devices/entities/devices/v1"
                  /\ params u <> []
                  /\ Forall (fun kv => fst kv = "ids"%string) (params u)))
           added.
Proof.
  intros deviceId fuel rfuel callback query w Hcb.
  destruct (iterateDevices deviceId fuel rfuel callback query w)
    as [r w'] eqn:E.
  unfold iterateDevices, paginateResources in E.
  eapply sends_paginateLoop; [| |exact E].
  - intro cursor. left. split; [reflexivity|].
    unfold pageUrl, toQueryString. cbn [params].
    eexists. reflexivity.
  - intros [|id ids]; unfold hydrateDevices.
    + apply sends_ret.
    + apply sends_bind.
      * unfold fetchDevices. apply sends_bind.
        -- apply sends_executeAPIRequestWithRetries.
           right. split; [reflexivity|].
           unfold devicesEntitiesUrl. cbn [params]. split.
           ++ discriminate.
           ++ apply Forall_map. apply Forall_forall.
              intros x _. reflexivity.
        -- intro resp. apply sends_ret.
      * intro devices. eapply sends_weaken; [|apply Hcb]. intros u [].
Qed.

End Further.

(** ** The further properties at concrete inputs *)

(** X1 on a scroll cursor and a policy query. *)
Lemma toQueryString_shape_witness :
  exists pag,
    toQueryString (Some Scenario.scrollCursor) (Some Scenario.policyQuery)
    = pag ++ Scenario.policyQuery
    /\ In ("limit"%string, PNum 100) pag
    /\ In ("offset"%string, PStr "scroll-token") pag
    /\ ~ In ("after"%string, PStr "x") pag.
Proof.
  destruct (toQueryString_shape (Some Scenario.scrollCursor)
                                (Some Scenario.policyQuery))
    as (pag & Hshape & _ & _ & Hfields).
  destruct (Hfields Scenario.scrollCursor (PNum 100) eq_refl)
    as (Hlimit & _ & _).
  destruct (Hfields Scenario.scrollCursor (PStr "scroll-token") eq_refl)
    as (_ & Hoffset & _).
  destruct (Hfields Scenario.scrollCursor (PStr "x") eq_refl)
    as (_ & _ & Hafter).
  exists pag. split; [exact Hshape|]. split; [|split].
  - apply Hlimit. exists 100%Z. split; reflexivity.
  - apply Hoffset. reflexivity.
  - intro H. apply Hafter in H. discriminate.
Defined.

(** X2 on a token endpoint that answers 400. *)
Lemma failed_authentication_sends_no_resource_request_witness :
  fst (executeAPIRequestWithRetries 5 Scenario.devicesUrl
                                    (Scenario.tokenEndpointAnswers 400))
  = Throw (IntegrationProviderAPIError
             {| err_status := 400; err_statusText := "";
                err_endpoint := TokenEndpoint |})
  /\ apiRequests (snd (authenticate 5 (Scenario.tokenEndpointAnswers 400)))
     = 0%nat.
Proof.
  destruct (failed_authentication_sends_no_resource_request
              5 Scenario.devicesUrl (Scenario.tokenEndpointAnswers 400))
    as (Hreq & _ & Hthrow).
  split; [|exact Hreq].
  destruct (Hthrow
              (IntegrationProviderAPIError
                 {| err_status := 400; err_statusText := "";
                    err_endpoint := TokenEndpoint |})
              (snd (authenticate 5 (Scenario.tokenEndpointAnswers 400))))
    as (Hrun & _).
  - vm_compute. reflexivity.
  - rewrite Hrun. reflexivity.
Defined.

(** X3 on a server that rejects the token every time. *)
Lemma at_most_maxAttempts_resource_requests_witness :
  (apiRequests (snd (executeAPIRequestWithRetries
                       5 Scenario.devicesUrl Scenario.rejected))
   <= 0 + 5)%nat.
Proof.
  apply (at_most_maxAttempts_resource_requests
           5 Scenario.devicesUrl Scenario.rejected).
  vm_compute. discriminate.
Defined.

(** X4 on a server that answers the first request with an empty page. *)
Lemma successful_request_is_one_round_trip_witness :
  exists w',
    executeAPIRequestWithRetries 1 Scenario.devicesUrl Scenario.empty
    = (Ok {| resources := []; errors := None;
             meta_pagination :=
               {| limit := None; offset := None; after := None;
                  total := Some 5%Z |} |}, w')
    /\ trace w' = [EvApiRequest Scenario.devicesUrl "A"].
Proof.
  eexists. split.
  - apply (successful_request_is_one_round_trip
             0 Scenario.devicesUrl Scenario.empty Scenario.tokenA 0
             {| status := 200; statusText := "OK";
                headers := Scenario.noHeaders;
                body := Some {| resources := []; errors := None;
                                meta_pagination :=
                                  {| limit := None; offset := None;
                                     after := None;
                                     total := Some 5%Z |} |} |}).
    + reflexivity.
    + vm_compute. reflexivity.
    + vm_compute. discriminate.
    + reflexivity.
    + right. vm_compute. reflexivity.
    + reflexivity.
    + reflexivity.
  - reflexivity.
Defined.

(** X5 on a 500, on a 401 and on an unreachable server. *)
Lemma requestAttempt_failure_classification_witness :
  (exists e w1,
      requestAttempt Scenario.devicesUrl
                     (initialContext DEFAULT_ATTEMPT_OPTIONS)
                     (Scenario.failingWith 500)
      = (Throw (IntegrationProviderAPIError e), w1)
      /\ err_status e = 500%Z)
  /\ (exists e w1,
      requestAttempt Scenario.devicesUrl
                     (initialContext DEFAULT_ATTEMPT_OPTIONS)
                     Scenario.rejected
      = (Throw (IntegrationProviderAuthenticationError e), w1))
  /\ (exists w1,
      requestAttempt Scenario.devicesUrl
                     (initialContext DEFAULT_ATTEMPT_OPTIONS)
                     Scenario.offline
      = (Throw FetchError, w1)
      /\ this_rateLimitState w1 = None).
Proof.
  split; [|split].
  - destruct (requestAttempt_failure_classification
                Scenario.devicesUrl (initialContext DEFAULT_ATTEMPT_OPTIONS)
                (Scenario.failingWith 500) Scenario.tokenA eq_refl)
      as (Hhttp & _).
    destruct (Hhttp 0 {| status := 500; statusText := "";
                         headers := Scenario.noHeaders; body := None |}
                    eq_refl eq_refl)
      as (err & w1 & Hrun & Hfields & _ & _ & Hplain & _).
    destruct Hplain as (e & ->); [discriminate | discriminate |].
    exists e, w1. split; [exact Hrun|].
    simpl in Hfields. injection Hfields as ->. reflexivity.
  - destruct (requestAttempt_failure_classification
                Scenario.devicesUrl (initialContext DEFAULT_ATTEMPT_OPTIONS)
                Scenario.rejected Scenario.tokenA eq_refl)
      as (Hhttp & _).
    destruct (Hhttp 0 {| status := 401; statusText := "";
                         headers := Scenario.noHeaders; body := None |}
                    eq_refl eq_refl)
      as (err & w1 & Hrun & _ & H401 & _).
    destruct (H401 eq_refl) as (e & ->).
    exists e, w1. exact Hrun.
  - destruct (requestAttempt_failure_classification
                Scenario.devicesUrl (initialContext DEFAULT_ATTEMPT_OPTIONS)
                Scenario.offline Scenario.tokenA eq_refl)
      as (_ & Hfault).
    destruct (Hfault 1 eq_refl) as (w1 & Hrun & _ & Hstate).
    exists w1. split; [exact Hrun | exact Hstate].
Defined.

(** X6 on a 429 that carries no rate-limit header. *)
Lemma absent_remaining_header_never_cools_down_witness :
  let w1 := snd (requestAttempt Scenario.devicesUrl
                                (initialContext DEFAULT_ATTEMPT_OPTIONS)
                                (Scenario.failingWith 429)) in
  exists w2,
    handle429Error w1 = (Ok tt, w2)
    /\ sleeps (trace w2) = [Num (0 * 1000)].
Proof.
  intro w1.
  destruct (absent_remaining_header_never_cools_down
              Scenario.devicesUrl (initialContext DEFAULT_ATTEMPT_OPTIONS)
              (Scenario.failingWith 429) Scenario.tokenA 0
              {| status := 429; statusText := "";
                 headers := Scenario.noHeaders; body := None |}
              eq_refl eq_refl (or_introl eq_refl))
    as (_ & w2 & Hrun & Hsl).
  exists w2. split; [exact Hrun|]. rewrite Hsl. reflexivity.
Defined.

(** X7 on the first page of a listing. *)
Lemma returned_page_is_the_last_reply_witness :
  let w' := snd (executeAPIRequestWithRetries 5 Scenario.devicesUrl
                                              Scenario.stalls) in
  (0 < apiRequests w')%nat
  /\ exists dt r,
      apiServer Scenario.stalls (pred (apiRequests w')) = Responds dt r
      /\ response_ok r = true
      /\ body r = Some {| resources := ["d1"]; errors := None;
                          meta_pagination :=
                            {| limit := None; offset := None; after := None;
                               total := Some 5%Z |} |}
      /\ this_rateLimitState w'
         = Some (rateLimitState_of_headers (headers r)).
Proof.
  intro w'.
  apply (returned_page_is_the_last_reply
           5 Scenario.devicesUrl Scenario.stalls w').
  vm_compute. reflexivity.
Defined.

(** X8 on a 429 with a retry-after 40 seconds ahead and 10 requests
    remaining: a wait of 100 seconds, then the cooldown. *)
Lemma resource_429_waits_before_the_policy_decides_witness :
  exists w2,
    makeAttempt 5 (requestAttempt Scenario.devicesUrl)
                (requestHandleError 5) DEFAULT_ATTEMPT_OPTIONS
                (initialContext DEFAULT_ATTEMPT_OPTIONS) Scenario.throttled
    = (awaitDelay 30000 ;;
       makeAttempt 4 (requestAttempt Scenario.devicesUrl)
                   (requestHandleError 5) DEFAULT_ATTEMPT_OPTIONS
                   (nextAttempt (consumeAttempt
                                   (initialContext DEFAULT_ATTEMPT_OPTIONS))))
        w2
    /\ sleeps (trace w2) = [Num ((1040 + 60 - (1000 + 0)) * 1000); Num 1000]
    /\ clock w2 == 1000 + 100 + 1
    /\ apiRequests w2 = 1%nat
    /\ tokenRequests w2 = 0%nat.
Proof.
  destruct (resource_429_waits_before_the_policy_decides
              4 5 Scenario.devicesUrl DEFAULT_ATTEMPT_OPTIONS
              (initialContext DEFAULT_ATTEMPT_OPTIONS) Scenario.throttled
              Scenario.tokenA 0 Scenario.tooManyRequests)
    as (w2 & Hrun & Hsl & Hclock & Hreq & Htr & _).
  - reflexivity.
  - reflexivity.
  - reflexivity.
  - right. vm_compute. reflexivity.
  - reflexivity.
  - exists w2. split; [exact Hrun|].
    split; [exact Hsl|].
    split; [rewrite Hclock; vm_compute; reflexivity|].
    split; [exact Hreq | exact Htr].
Defined.

(** X9 and X10 on a client without a token. *)
Lemma authenticate_twice_exchanges_once_witness :
  let w' := snd (authenticate 5 Scenario.tokenless) in
  authenticate 7 w' = (Ok {| token := "B"; expiresAt := 1000 + 1799 |}, w')
  /\ tokenRequests w' = 1%nat.
Proof.
  intro w'.
  destruct (authenticate_twice_exchanges_once
              5 7 Scenario.tokenless w'
              {| token := "B"; expiresAt := 1000 + 1799 |})
    as (_ & Hagain).
  - intros n dt r b Hr Hb. injection Hr as _ <-. injection Hb as <-.
    vm_compute. reflexivity.
  - vm_compute. reflexivity.
  - split; [exact Hagain | reflexivity].
Defined.

Lemma first_authentication_stores_granted_token_witness :
  exists w',
    authenticate 1 Scenario.tokenless
    = (Ok {| token := "B"; expiresAt := 1000 + 0 + 1799 |}, w')
    /\ this_token w' = Some {| token := "B"; expiresAt := 1000 + 0 + 1799 |}
    /\ tokenRequests w' = 1%nat
    /\ sleeps (trace w') = [].
Proof.
  destruct (first_authentication_stores_granted_token
              0 Scenario.tokenless 0
              {| status := 200; statusText := "OK";
                 headers := Scenario.noHeaders;
                 body := Some {| access_token := "B";
                                 expires_in := 1799 |} |}
              {| access_token := "B"; expires_in := 1799 |})
    as (w' & Hrun & Htok & Htr & _ & _ & Hsl & _).
  - left. reflexivity.
  - vm_compute. discriminate.
  - reflexivity.
  - right. vm_compute. reflexivity.
  - reflexivity.
  - reflexivity.
  - exists w'. split; [exact Hrun|]. split; [exact Htok|].
    split; [exact Htr | exact Hsl].
Defined.

(** X11 on a 401 that arrives after the token has expired. *)
Lemma expired_token_401_is_refreshed_witness :
  exists w2,
    makeAttempt 5 (requestAttempt Scenario.devicesUrl)
                (requestHandleError 5) DEFAULT_ATTEMPT_OPTIONS
                (initialContext DEFAULT_ATTEMPT_OPTIONS)
                Scenario.expiresInFlight
    = (awaitDelay 30000 ;;
       makeAttempt 4 (requestAttempt Scenario.devicesUrl)
                   (requestHandleError 5) DEFAULT_ATTEMPT_OPTIONS
                   (nextAttempt (consumeAttempt
                                   (initialContext DEFAULT_ATTEMPT_OPTIONS))))
        w2
    /\ this_token w2
       = Some {| token := "B"; expiresAt := 1000 + 5 + 0 + 1799 |}
    /\ tokenRequests w2 = 1%nat
    /\ clock w2 = 1000 + 5 + 0.
Proof.
  destruct (expired_token_401_is_refreshed
              4 4 Scenario.devicesUrl DEFAULT_ATTEMPT_OPTIONS
              (initialContext DEFAULT_ATTEMPT_OPTIONS)
              Scenario.expiresInFlight
              {| token := "A"; expiresAt := 1001 |}
              5 Scenario.unauthorized 0
              {| status := 200; statusText := "OK";
                 headers := Scenario.noHeaders;
                 body := Some {| access_token := "B";
                                 expires_in := 1799 |} |}
              {| access_token := "B"; expires_in := 1799 |})
    as (w2 & Hrun & Htok & Htr & _ & _ & Hclock).
  - reflexivity.
  - vm_compute. discriminate.
  - reflexivity.
  - reflexivity.
  - right. vm_compute. reflexivity.
  - reflexivity.
  - vm_compute. discriminate.
  - vm_compute. discriminate.
  - reflexivity.
  - right. vm_compute. reflexivity.
  - reflexivity.
  - reflexivity.
  - exists w2. split; [exact Hrun|]. split; [exact Htok|].
    split; [exact Htr | exact Hclock].
Defined.

(** X12 on an unreachable server, on the first of five attempts. *)
Lemma failures_without_status_are_retried_witness :
  let context1 := consumeAttempt (initialContext DEFAULT_ATTEMPT_OPTIONS) in
  let w2 :=
    emit (EvLog (LogRequestRecoverable context1 FetchError))
         (emit (EvLog (LogHandleError FetchError context1))
               (advance 1 (emit (EvApiRequest Scenario.devicesUrl "A")
                                (count_api_request Scenario.offline)))) in
  makeAttempt 5 (requestAttempt Scenario.devicesUrl)
              (requestHandleError 5) DEFAULT_ATTEMPT_OPTIONS
              (initialContext DEFAULT_ATTEMPT_OPTIONS) Scenario.offline
  = (awaitDelay 30000 ;;
     makeAttempt 4 (requestAttempt Scenario.devicesUrl)
                 (requestHandleError 5) DEFAULT_ATTEMPT_OPTIONS
                 (nextAttempt context1)) w2
  /\ this_rateLimitState w2 = None.
Proof.
  intros context1 w2. split; [|reflexivity].
  destruct (failures_without_status_are_retried
              4 5 Scenario.devicesUrl DEFAULT_ATTEMPT_OPTIONS
              (initialContext DEFAULT_ATTEMPT_OPTIONS) Scenario.offline
              Scenario.tokenA eq_refl eq_refl)
    as (Hfault & _).
  assert (Htime : settlesInTime DEFAULT_ATTEMPT_OPTIONS 1)
    by (right; vm_compute; reflexivity).
  rewrite (Hfault 1 eq_refl Htime).
  change (attemptsRemaining
            (consumeAttempt (initialContext DEFAULT_ATTEMPT_OPTIONS)) =? 0)%Z
    with false.
  reflexivity.
Defined.

(** X13 on a server that always answers 500, with the default options:
    five requests, and waits of 30, 60, 120 and 240 seconds. *)
Lemma plain_failures_exhaust_the_attempts_witness :
  exists w',
    executeAPIRequestWithRetries 5 Scenario.devicesUrl
                                 (Scenario.failingWith 500)
    = (Throw (IntegrationProviderAPIError
                {| err_status := 500; err_statusText := "";
                   err_endpoint := ResourceEndpoint Scenario.devicesUrl |}),
       w')
    /\ apiRequests w' = 5%nat
    /\ tokenRequests w' = 0%nat
    /\ sleeps (trace w')
       = [Num 30000; Num 60000; Num 120000; Num 240000].
Proof.
  destruct (plain_failures_exhaust_the_attempts
              4 5 Scenario.devicesUrl (Scenario.failingWith 500)
              Scenario.tokenA)
    as (w' & dt & r & Hrun & Hlast & Hreq & Htr & Hsl).
  - reflexivity.
  - vm_compute. reflexivity.
  - vm_compute. discriminate.
  - reflexivity.
  - apply le_n.
  - intros i _. vm_compute. repeat split; discriminate.
  - intros i _. right. vm_compute. reflexivity.
  - injection Hlast as _ <-.
    exists w'. split; [exact Hrun|].
    split; [exact Hreq|]. split; [exact Htr|].
    rewrite Hsl. reflexivity.
Defined.

(** X14 on a server with nothing to list. *)
Lemma iterateDevices_skips_an_empty_page_witness :
  exists w',
    iterateDevices PStr 1 5 Scenario.ignore None Scenario.empty
    = (Ok tt, w')
    /\ apiRequests w' = 1%nat
    /\ forall callback',
        iterateDevices PStr 1 5 callback' None Scenario.empty = (Ok tt, w').
Proof.
  pose (url := pageUrl "/devices/queries/devices-scroll/v1" None None).
  pose (w1 := snd (executeAPIRequestWithRetries
                     5 url
                     (emit (EvLog (LogRequestUrl url None))
                           Scenario.empty))).
  destruct (iterateDevices_skips_an_empty_page
              PStr 0 5 Scenario.ignore None Scenario.empty w1
              {| resources := []; errors := None;
                 meta_pagination :=
                   {| limit := None; offset := None; after := None;
                      total := Some 5%Z |} |})
    as (w' & Hrun & Hreq & _ & Hany).
  - vm_compute. reflexivity.
  - reflexivity.
  - exists w'. split; [exact Hrun|]. split; [|exact Hany].
    rewrite Hreq. vm_compute. reflexivity.
Defined.

(** X15 on a scroll of two identifiers followed by the two records. *)
Lemma iterateDevices_hydrates_a_page_witness :
  params (devicesEntitiesUrl PStr ["id1"; "id2"]%string)
  = [("ids", PStr "id1"); ("ids", PStr "id2")]%string
  /\ exists st w',
      paginateIteration 5 (hydrateDevices PStr 5 Scenario.ignore)
                        "/devices/queries/devices-scroll/v1" None 0 None
                        Scenario.deviceListing
      = (Ok st, w')
      /\ loop_seen st = 2%Z
      /\ apiRequests w' = 2%nat.
Proof.
  split; [reflexivity|].
  pose (url := pageUrl "/devices/queries/devices-scroll/v1" None None).
  pose (page := {| resources := ["id1"; "id2"]%string; errors := None;
                   meta_pagination :=
                     {| limit := None; offset := None; after := None;
                        total := Some 2%Z |} |}).
  pose (w1 := snd (executeAPIRequestWithRetries
                     5 url
                     (emit (EvLog (LogRequestUrl url None))
                           Scenario.deviceListing))).
  pose (w2 := snd (executeAPIRequestWithRetries
                     5 (devicesEntitiesUrl PStr ["id1"; "id2"]%string)
                     (snd (logResponseErrors page w1)))).
  destruct (iterateDevices_hydrates_a_page
              PStr 5 Scenario.ignore
              "/devices/queries/devices-scroll/v1" None 0 None
              Scenario.deviceListing w1 page "id1"%string ["id2"%string])
    as (_ & _ & _ & Hok & _).
  - vm_compute. reflexivity.
  - reflexivity.
  - destruct (Hok {| resources := ["device1"; "device2"]%string;
                     errors := None;
                     meta_pagination :=
                       {| limit := None; offset := None; after := None;
                          total := None |} |} w2 w2)
      as (st & w' & Hrun & Hseen & Hreq).
    + vm_compute. reflexivity.
    + reflexivity.
    + exists st, w'. split; [exact Hrun|]. split; [exact Hseen|].
      rewrite Hreq. vm_compute. reflexivity.
Defined.

(** X17 on a listing that stalls after its first page, with a static
    query. *)
Lemma pagination_requests_keep_path_and_query_witness :
  exists added,
    trace (snd (paginateResources
                  3 5 Scenario.ignore
                  "/policy/queries/prevention-members/v1"
                  (Some Scenario.policyQuery) Scenario.stalls))
    = trace Scenario.stalls ++ added
    /\ requestsOnly
         (fun u =>
            path u = "/policy/queries/prevention-members/v1"%string
            /\ exists cursorParams,
                params u = cursorParams ++ Scenario.policyQuery)
         added.
Proof.
  apply (pagination_requests_keep_path_and_query
           3 5 Scenario.ignore "/policy/queries/prevention-members/v1"
           (Some Scenario.policyQuery) Scenario.stalls).
  intro l. apply sends_ret.
Defined.

(** X18 on the same listing. *)
Lemma named_iterators_request_their_endpoint_witness :
  exists added,
    trace (snd (iteratePreventionPolicies 3 5 Scenario.ignore
                                          Scenario.stalls))
    = trace Scenario.stalls ++ added
    /\ requestsOnly
         (fun u => path u = "/policy/combined/prevention/v1"%string) added.
Proof.
  destruct (named_iterators_request_their_endpoint
              3 5 Scenario.ignore Scenario.stalls)
    as (_ & Hpolicies & _).
  - intro l. apply sends_ret.
  - exact Hpolicies.
Defined.

(** X19 on a scroll of two identifiers followed by the two records. *)
Lemma iterateDevices_never_requests_entities_without_ids_witness :
  exists added,
    trace (snd (iterateDevices PStr 3 5 Scenario.ignore None
                               Scenario.deviceListing))
    = trace Scenario.deviceListing ++ added
    /\ requestsOnly
         (fun u =>
            (path u = "/devices/queries/devices-scroll/v1"%string
             /\ exists cursorParams, params u = cursorParams ++ [])
            \/ (path u = "/devices/entities/devices/v1"%string
                /\ params u <> []
                /\ Forall (fun kv => fst kv = "ids"%string) (params u)))
         added.
Proof.
  apply (iterateDevices_never_requests_entities_without_ids
           PStr 3 5 Scenario.ignore None Scenario.deviceListing).
  intro l. apply sends_ret.
Defined.

